(** * Piutang: receivables and revenues bookkeeping

    A shallow embedding of the two variants of the application and the
    properties of its record store and view projector.

    - [Local] embeds the variant that keeps its lists in [localStorage]
      (interface fields [totalAmount], [paidAmount], [dueDate]).
    - [Remote] embeds the variant that persists through the Supabase client
      and listens to realtime changes (interface fields [total_amount],
      [paid_amount], [due_date]).

    Modelling conventions.
    - A JavaScript [number] is a double.  A currency amount is a [Z]: the
      whole number that the double holds (amounts are whole currency units, and
      the number inputs, having the default step 1, accept whole numbers only).
      The results of [+] and [-] are rounded as the language rounds them
      ([JS.round]: to the nearest double, ties to even), so they are exact up
      to 2^53 and rounded beyond.  [JS.isDouble] tells the whole numbers that a
      double holds; a result beyond the largest of them is [Infinity] in the
      language and lies outside the model.
    - A [number] that may be [NaN] (a time stamp, the value returned by a
      comparator) is an [option Z], [None] standing for [NaN].
    - What a number input holds is an [option Z]: the whole number written in
      it, [None] when it is empty or holds no such number.  A handler is
      reached only through [onSubmit], that is by a submission that satisfies
      the constraints of its form, so the numeric fields it reads with
      [parseFloat] are numbers.
    - An array held in React state is a [list]; [setX(prev => f(prev))] is the
      application of [f] to the field of the state record.
    - What the environment decides (the fresh UUID, the answer to
      [window.confirm], the collaborator's response) is an argument of the
      handler. *)

From Stdlib Require Import ZArith List String Ascii Bool Lia Permutation Sorted.
Import ListNotations.
Local Open Scope Z_scope.

Set Implicit Arguments.

(** ** The JavaScript built-ins the handlers use *)

Module JS.

(** [Number.MAX_SAFE_INTEGER] and [Number.MAX_VALUE]. *)
Definition MAX_SAFE_INTEGER : Z := 2 ^ 53 - 1.

Definition MAX_VALUE : Z := (2 ^ 53 - 1) * 2 ^ 971.

(** The distance between neighbouring doubles around a magnitude of 2^53 or
    more: a double has 53 significant bits. *)
Definition ulp (a : Z) : Z := 2 ^ (Z.log2 a - 52).

(** The double nearest to a magnitude [a >= 0], ties going to the double
    whose last significant bit is 0. *)
Definition roundMagnitude (a : Z) : Z :=
  if a <? 2 ^ 53 then a
  else
    let u := ulp a in
    let q := a / u in
    let r := a mod u in
    if 2 * r <? u then q * u
    else if u <? 2 * r then (q + 1) * u
    else if Z.even q then q * u else (q + 1) * u.

(** The double nearest to a whole number. *)
Definition round (z : Z) : Z := Z.sgn z * roundMagnitude (Z.abs z).

(** [x + y] and [x - y] on doubles that hold whole numbers. *)
Definition add (x y : Z) : Z := round (x + y).

Definition subtract (x y : Z) : Z := round (x - y).

(** The whole number is held by a (finite) double. *)
Definition isDouble (z : Z) : bool := (round z =? z) && (Z.abs z <=? MAX_VALUE).

(** [parseFloat] on the text of a whole number. *)
Definition parseFloat (text : Z) : Z := round text.

(** [a - b] on numbers that may be [NaN]. *)
Definition sub (a b : option Z) : option Z :=
  match a, b with
  | Some x, Some y => Some (subtract x y)
  | _, _ => None
  end.

(** [!s] for a string: only the empty string is falsy. *)
Definition falsy (s : string) : bool := String.eqb s EmptyString.

Section ArraySort.
Context {A : Type}.
Variable comparefn : A -> A -> option Z.

(** ECMAScript's SortCompare: a comparator result of [NaN] counts as [+0]. *)
Definition SortCompare (x y : A) : Z :=
  match comparefn x y with
  | Some v => v
  | None => 0
  end.

(** [precedes x y]: the comparator puts [x] strictly before [y]. *)
Definition precedes (x y : A) : bool := SortCompare x y <? 0.

(** [Array.prototype.sort(comparefn)].  ECMAScript requires the sort to be
    stable and, for a comparator that is consistent on the elements, fixes its
    result: the permutation that is ordered under the comparator and keeps tied
    elements in array order.  The model is a stable insertion sort: the
    elements are taken in array order and each one is placed in front of the
    first already placed element that it strictly precedes (the comparator is
    asked with the incoming element first), so it stays behind every element
    it ties with.  Where the comparator is not consistent the language leaves
    the order to the engine, and the model is one such engine. *)
Fixpoint insert (x : A) (placed : list A) : list A :=
  match placed with
  | [] => [x]
  | y :: rest => if precedes x y then x :: y :: rest else y :: insert x rest
  end.

Definition sort (l : list A) : list A :=
  fold_left (fun placed x => insert x placed) l [].
End ArraySort.

(** [new Date(s).getTime()] on the date-only form [YYYY-MM-DD] that the
    date inputs produce: milliseconds since the epoch at UTC midnight.  The
    projector is parametrised by the time-stamp function, and the statements
    about it hold for any such function; this instance serves the examples.  It
    reads only the date-only form and answers [NaN] for every other string, the
    empty string among them. *)
Definition digit (c : ascii) : option Z :=
  let n := Z.of_nat (nat_of_ascii c) - 48 in
  if (0 <=? n) && (n <=? 9) then Some n else None.

Definition days_in_month (y m : Z) : Z :=
  if (m =? 2) then
    if ((y mod 4 =? 0) && negb (y mod 100 =? 0)) || (y mod 400 =? 0) then 29 else 28
  else if (m =? 4) || (m =? 6) || (m =? 9) || (m =? 11) then 30 else 31.

Definition days_from_civil (y m d : Z) : Z :=
  let y' := if m <=? 2 then y - 1 else y in
  let era := y' / 400 in
  let yoe := y' - era * 400 in
  let mp := if 2 <? m then m - 3 else m + 9 in
  let doy := (153 * mp + 2) / 5 + d - 1 in
  let doe := yoe * 365 + yoe / 4 - yoe / 100 + doy in
  era * 146097 + doe - 719468.

Definition isoTime (s : string) : option Z :=
  match map digit (list_ascii_of_string s) with
  | [Some y1; Some y2; Some y3; Some y4; None;
     Some m1; Some m2; None; Some d1; Some d2] =>
      let y := 1000 * y1 + 100 * y2 + 10 * y3 + y4 in
      let m := 10 * m1 + m2 in
      let d := 10 * d1 + d2 in
      if String.eqb (substring 4 1 s) "-" && String.eqb (substring 7 1 s) "-"
         && (1 <=? m) && (m <=? 12) && (1 <=? d) && (d <=? days_in_month y m)
      then Some (days_from_civil y m d * 86400000)
      else None
  | _ => None
  end.

End JS.


(** ** The forms

    The two variants render the same four forms.  Each record holds what the
    inputs of a form hold when it is submitted: the text of a text or date
    input, and for a number input the whole number written in it ([None] when
    it is empty or holds no such number). *)

Module Form.

(** The form that adds a receivable and the form that edits one: inputs
    [description], [totalAmount], [dueDate]. *)
Module Receivable.
Record t : Type := mk {
  description : string;
  totalAmount : option Z;
  dueDate : string
}.
End Receivable.

(** The form that adds a revenue and the form that edits one: inputs
    [description], [amount], [date]. *)
Module Revenue.
Record t : Type := mk {
  description : string;
  amount : option Z;
  date : string
}.
End Revenue.

(** The payment form: input [paymentAmount]. *)
Module Payment.
Record t : Type := mk {
  paymentAmount : option Z
}.
End Payment.

(** [valueAsNumber] of a number input, [None] for [NaN]: the double that
    [parseFloat] reads from its text.  Text that stands for no double (it is
    beyond the largest one) does not stay in the input. *)
Definition valueAsNumber (input : option Z) : option Z :=
  match input with
  | Some text =>
      if JS.isDouble (JS.parseFloat text) then Some (JS.parseFloat text) else None
  | None => None
  end.

(** The edit modal renders one of the two edit forms, after the tag of the
    item being edited. *)
Inductive Edit : Type :=
| editReceivable (form : Receivable.t)
| editRevenue (form : Revenue.t).

End Form.


(** ** The local-storage variant

    The effects that load the two lists from [localStorage] on mount and save
    them after every change are modelled apart, in [Persistence]. *)

Module Local.

(** [interface Receivable] and [interface Revenue]. *)
Module Receivable.
Record t : Type := mk {
  id : string;
  description : string;
  totalAmount : Z;
  paidAmount : Z;
  dueDate : string
}.
End Receivable.

Module Revenue.
Record t : Type := mk {
  id : string;
  description : string;
  amount : Z;
  date : string
}.
End Revenue.

(** The named fields that the handler of a dispatched submission reads with
    [formData.get], the numeric ones after [parseFloat]. *)
Module FormData.
Record t : Type := mk {
  description : string;
  totalAmount : Z;
  dueDate : string;
  amount : Z;
  date : string;
  paymentAmount : Z
}.
End FormData.

Inductive ActiveTab : Type := receivables_tab | revenues_tab.

(** [type EditingItem = { type, data }]: the tag and the record it announces
    (both call sites of [handleOpenEditModal] pass a matching pair). *)
Inductive EditingItem : Type :=
| receivable (data : Receivable.t)
| revenue (data : Revenue.t).

(** The [useState] cells of [App]. *)
Record State : Type := mkState {
  activeTab : ActiveTab;
  receivables : list Receivable.t;
  revenues : list Revenue.t;
  isReceivableModalOpen : bool;
  isRevenueModalOpen : bool;
  isPaymentModalOpen : bool;
  editingItem : option EditingItem;
  currentReceivable : option Receivable.t
}.

Definition setReceivables (f : list Receivable.t -> list Receivable.t) (s : State) : State :=
  mkState (activeTab s) (f (receivables s)) (revenues s) (isReceivableModalOpen s)
          (isRevenueModalOpen s) (isPaymentModalOpen s) (editingItem s) (currentReceivable s).

Definition setRevenues (f : list Revenue.t -> list Revenue.t) (s : State) : State :=
  mkState (activeTab s) (receivables s) (f (revenues s)) (isReceivableModalOpen s)
          (isRevenueModalOpen s) (isPaymentModalOpen s) (editingItem s) (currentReceivable s).

Definition setReceivableModalOpen (b : bool) (s : State) : State :=
  mkState (activeTab s) (receivables s) (revenues s) b
          (isRevenueModalOpen s) (isPaymentModalOpen s) (editingItem s) (currentReceivable s).

Definition setRevenueModalOpen (b : bool) (s : State) : State :=
  mkState (activeTab s) (receivables s) (revenues s) (isReceivableModalOpen s)
          b (isPaymentModalOpen s) (editingItem s) (currentReceivable s).

Definition setPaymentModalOpen (b : bool) (s : State) : State :=
  mkState (activeTab s) (receivables s) (revenues s) (isReceivableModalOpen s)
          (isRevenueModalOpen s) b (editingItem s) (currentReceivable s).

Definition setEditingItem (e : option EditingItem) (s : State) : State :=
  mkState (activeTab s) (receivables s) (revenues s) (isReceivableModalOpen s)
          (isRevenueModalOpen s) (isPaymentModalOpen s) e (currentReceivable s).

Definition setCurrentReceivable (r : option Receivable.t) (s : State) : State :=
  mkState (activeTab s) (receivables s) (revenues s) (isReceivableModalOpen s)
          (isRevenueModalOpen s) (isPaymentModalOpen s) (editingItem s) r.

(** The state of a freshly mounted [App]. *)
Definition initialState : State :=
  mkState receivables_tab [] [] false false false None None.

(** *** Handlers *)

(** [uuid] is the value of [crypto.randomUUID()]. *)
Definition handleAddReceivable (uuid : string) (formData : FormData.t) (s : State) : State :=
  let newReceivable :=
    Receivable.mk uuid (FormData.description formData) (FormData.totalAmount formData)
                  0 (FormData.dueDate formData) in
  setReceivableModalOpen false (setReceivables (fun prev => prev ++ [newReceivable]) s).

Definition handleAddRevenue (uuid : string) (formData : FormData.t) (s : State) : State :=
  let newRevenue :=
    Revenue.mk uuid (FormData.description formData) (FormData.amount formData)
               (FormData.date formData) in
  setRevenueModalOpen false (setRevenues (fun prev => prev ++ [newRevenue]) s).

Definition handleRecordPayment (formData : FormData.t) (s : State) : State :=
  match currentReceivable s with
  | None => s
  | Some current =>
      let paymentAmount := FormData.paymentAmount formData in
      setCurrentReceivable None
        (setPaymentModalOpen false
          (setReceivables
            (map (fun r =>
               if String.eqb (Receivable.id r) (Receivable.id current)
               then Receivable.mk (Receivable.id r) (Receivable.description r)
                      (Receivable.totalAmount r)
                      (Z.min (Receivable.totalAmount r)
                             (JS.add (Receivable.paidAmount r) paymentAmount))
                      (Receivable.dueDate r)
               else r))
            s))
  end.

(** [confirmed] is the answer to [window.confirm]. *)
Definition handleDeleteReceivable (confirmed : bool) (id : string) (s : State) : State :=
  if confirmed
  then setReceivables (filter (fun r => negb (String.eqb (Receivable.id r) id))) s
  else s.

Definition handleDeleteRevenue (confirmed : bool) (id : string) (s : State) : State :=
  if confirmed
  then setRevenues (filter (fun r => negb (String.eqb (Revenue.id r) id))) s
  else s.

Definition handleOpenEditModal (item : EditingItem) (s : State) : State :=
  setEditingItem (Some item) s.

Definition handleCloseEditModal (s : State) : State :=
  setEditingItem None s.

Definition handleUpdateItem (formData : FormData.t) (s : State) : State :=
  match editingItem s with
  | None => s
  | Some (receivable data) =>
      let updatedReceivable :=
        Receivable.mk (Receivable.id data) (FormData.description formData)
                      (FormData.totalAmount formData) (Receivable.paidAmount data)
                      (FormData.dueDate formData) in
      handleCloseEditModal
        (setReceivables
          (map (fun r =>
             if String.eqb (Receivable.id r) (Receivable.id updatedReceivable)
             then updatedReceivable else r))
          s)
  | Some (revenue data) =>
      let updatedRevenue :=
        Revenue.mk (Revenue.id data) (FormData.description formData)
                   (FormData.amount formData) (FormData.date formData) in
      handleCloseEditModal
        (setRevenues
          (map (fun r =>
             if String.eqb (Revenue.id r) (Revenue.id updatedRevenue)
             then updatedRevenue else r))
          s)
  end.

(** The [onClick] of a row's pay button, rendered only while the row is not
    paid: [setCurrentReceivable(r); setPaymentModalOpen(true)]. *)
Definition clickPay (r : Receivable.t) (s : State) : State :=
  setPaymentModalOpen true (setCurrentReceivable (Some r) s).

(** *** Form constraints

    Each form is submitted through [onSubmit]; the browser dispatches the
    event only when every input satisfies its constraints, so a submission that
    violates one never reaches the handler.  For each form there is the check
    of its constraints, the [FormData] that the handler of a dispatched
    submission reads (fields of other forms, which that handler does not read,
    are left empty), and the submission itself. *)

(** [description]: [required]; [totalAmount]: [type="number" min="0"
    required]; [dueDate]: [type="date" required]. *)
Definition receivableFormValid (form : Form.Receivable.t) : bool :=
  negb (JS.falsy (Form.Receivable.description form))
  && match Form.valueAsNumber (Form.Receivable.totalAmount form) with
     | Some value => 0 <=? value
     | None => false
     end
  && negb (JS.falsy (Form.Receivable.dueDate form)).

Definition receivableFormData (form : Form.Receivable.t) : option FormData.t :=
  if receivableFormValid form then
    match Form.valueAsNumber (Form.Receivable.totalAmount form) with
    | Some value =>
        Some (FormData.mk (Form.Receivable.description form) value
                          (Form.Receivable.dueDate form) 0 EmptyString 0)
    | None => None
    end
  else None.

(** [paymentAmount]: [type="number" min="0" max={totalAmount - paidAmount}
    required], the bound taken from [currentReceivable] (without one the
    bound is [NaN], which is no bound). *)
Definition paymentFormValid (current : option Receivable.t) (form : Form.Payment.t) : bool :=
  match Form.valueAsNumber (Form.Payment.paymentAmount form) with
  | Some value =>
      (0 <=? value)
      && match current with
         | Some r =>
             value <=? JS.subtract (Receivable.totalAmount r) (Receivable.paidAmount r)
         | None => true
         end
  | None => false
  end.

Definition paymentFormData (current : option Receivable.t) (form : Form.Payment.t)
    : option FormData.t :=
  if paymentFormValid current form then
    match Form.valueAsNumber (Form.Payment.paymentAmount form) with
    | Some value =>
        Some (FormData.mk EmptyString 0 EmptyString 0 EmptyString value)
    | None => None
    end
  else None.

Definition submitReceivableForm (uuid : string) (form : Form.Receivable.t) (s : State)
    : State :=
  match receivableFormData form with
  | Some formData => handleAddReceivable uuid formData s
  | None => s
  end.

Definition submitPaymentForm (form : Form.Payment.t) (s : State) : State :=
  match paymentFormData (currentReceivable s) form with
  | Some formData => handleRecordPayment formData s
  | None => s
  end.

(** *** Derived state *)

Section Projector.
Variable getTime : string -> option Z.

(** The comparator of [sortedReceivables]. *)
Definition compareReceivables (a b : Receivable.t) : option Z :=
  let remainingA := JS.subtract (Receivable.totalAmount a) (Receivable.paidAmount a) in
  let remainingB := JS.subtract (Receivable.totalAmount b) (Receivable.paidAmount b) in
  if (0 <? remainingA) && (remainingB <=? 0) then Some (-1)
  else if (remainingA <=? 0) && (0 <? remainingB) then Some 1
  else JS.sub (getTime (Receivable.dueDate a)) (getTime (Receivable.dueDate b)).

Definition sortedReceivables (receivables : list Receivable.t) : list Receivable.t :=
  JS.sort compareReceivables receivables.

(** The comparator of [sortedRevenues]. *)
Definition compareRevenues (a b : Revenue.t) : option Z :=
  JS.sub (getTime (Revenue.date b)) (getTime (Revenue.date a)).

Definition sortedRevenues (revenues : list Revenue.t) : list Revenue.t :=
  JS.sort compareRevenues revenues.
End Projector.

Module Summary.
Record t : Type := mk { total : Z; remaining : Z }.
End Summary.

(** [receivables.reduce((acc, curr) => ..., { total: 0, remaining: 0 })]. *)
Definition receivablesSummary (receivables : list Receivable.t) : Summary.t :=
  fold_left
    (fun acc curr =>
       Summary.mk (JS.add (Summary.total acc) (Receivable.totalAmount curr))
                  (JS.add (Summary.remaining acc)
                          (JS.subtract (Receivable.totalAmount curr)
                                       (Receivable.paidAmount curr))))
    receivables (Summary.mk 0 0).

(** [revenues.reduce((acc, curr) => ..., { total: 0 })]. *)
Definition revenuesSummary (revenues : list Revenue.t) : Z :=
  fold_left (fun acc curr => JS.add acc (Revenue.amount curr)) revenues 0.

End Local.


(** ** The Supabase variant

    The initial query of the two tables is not part of the model; the sign-in
    screen is modelled apart, in [Auth]. *)

Module Remote.

(** [interface Receivable] and [interface Revenue].  A [due_date] or [date]
    that the backend holds as [null] is the empty string here: both are falsy,
    and a missing date is only ever tested with [!]. *)
Module Receivable.
Record t : Type := mk {
  id : string;
  description : string;
  total_amount : Z;
  paid_amount : Z;
  due_date : string
}.
End Receivable.

Module Revenue.
Record t : Type := mk {
  id : string;
  description : string;
  amount : Z;
  date : string
}.
End Revenue.

Module FormData.
Record t : Type := mk {
  description : string;
  totalAmount : Z;
  dueDate : string;
  amount : Z;
  date : string;
  paymentAmount : Z
}.
End FormData.

(** *** The persistence collaborator

    The Supabase client is outside the repository.  A handler sees it through
    the [{ data, error }] object a request resolves to, so the client is a
    record of functions from the request to that object; [error] carries the
    message. *)

Module Response.
Record t (A : Type) : Type := mk { data : option A; error : option string }.
End Response.

(** The object given to [insert] on [receivables] and on [revenues]. *)
Module ReceivableInsert.
Record t : Type := mk {
  description : string;
  total_amount : Z;
  paid_amount : Z;
  due_date : string;
  user_id : string
}.
End ReceivableInsert.

Module RevenueInsert.
Record t : Type := mk {
  description : string;
  amount : Z;
  date : string;
  user_id : string
}.
End RevenueInsert.

(** The object given to [update]: the columns it names. *)
Module ReceivablePatch.
Record t : Type := mk {
  description : option string;
  total_amount : option Z;
  paid_amount : option Z;
  due_date : option string
}.

(** The row after the update: named columns replaced, the others kept. *)
Definition apply (patch : t) (row : Receivable.t) : Receivable.t :=
  Receivable.mk (Receivable.id row)
    (match description patch with Some v => v | None => Receivable.description row end)
    (match total_amount patch with Some v => v | None => Receivable.total_amount row end)
    (match paid_amount patch with Some v => v | None => Receivable.paid_amount row end)
    (match due_date patch with Some v => v | None => Receivable.due_date row end).
End ReceivablePatch.

Module RevenuePatch.
Record t : Type := mk {
  description : string;
  amount : Z;
  date : string
}.

Definition apply (patch : t) (row : Revenue.t) : Revenue.t :=
  Revenue.mk (Revenue.id row) (description patch) (amount patch) (date patch).
End RevenuePatch.

Module Supabase.
Record t : Type := mk {
  (** [from('receivables').insert(row).select().single()] *)
  insert_receivable : ReceivableInsert.t -> Response.t Receivable.t;
  (** [from('receivables').update(patch).eq('id', id).select().single()] *)
  update_receivable : ReceivablePatch.t -> string -> Response.t Receivable.t;
  (** [from('receivables').delete().eq('id', id)]: only [error] is read *)
  delete_receivable : string -> option string;
  insert_revenue : RevenueInsert.t -> Response.t Revenue.t;
  update_revenue : RevenuePatch.t -> string -> Response.t Revenue.t;
  delete_revenue : string -> option string
}.
End Supabase.

Inductive ActiveTab : Type := receivables_tab | revenues_tab.

Inductive EditingItem : Type :=
| receivable (data : Receivable.t)
| revenue (data : Revenue.t).

(** The [useState] cells of [Dashboard], and the messages shown with [alert]
    so far (oldest first). *)
Record State : Type := mkState {
  activeTab : ActiveTab;
  receivables : list Receivable.t;
  revenues : list Revenue.t;
  isReceivableModalOpen : bool;
  isRevenueModalOpen : bool;
  isPaymentModalOpen : bool;
  editingItem : option EditingItem;
  currentReceivable : option Receivable.t;
  alerts : list string
}.

Definition setReceivables (f : list Receivable.t -> list Receivable.t) (s : State) : State :=
  mkState (activeTab s) (f (receivables s)) (revenues s) (isReceivableModalOpen s)
          (isRevenueModalOpen s) (isPaymentModalOpen s) (editingItem s) (currentReceivable s)
          (alerts s).

Definition setRevenues (f : list Revenue.t -> list Revenue.t) (s : State) : State :=
  mkState (activeTab s) (receivables s) (f (revenues s)) (isReceivableModalOpen s)
          (isRevenueModalOpen s) (isPaymentModalOpen s) (editingItem s) (currentReceivable s)
          (alerts s).

Definition setReceivableModalOpen (b : bool) (s : State) : State :=
  mkState (activeTab s) (receivables s) (revenues s) b
          (isRevenueModalOpen s) (isPaymentModalOpen s) (editingItem s) (currentReceivable s)
          (alerts s).

Definition setRevenueModalOpen (b : bool) (s : State) : State :=
  mkState (activeTab s) (receivables s) (revenues s) (isReceivableModalOpen s)
          b (isPaymentModalOpen s) (editingItem s) (currentReceivable s)
          (alerts s).

Definition setPaymentModalOpen (b : bool) (s : State) : State :=
  mkState (activeTab s) (receivables s) (revenues s) (isReceivableModalOpen s)
          (isRevenueModalOpen s) b (editingItem s) (currentReceivable s)
          (alerts s).

Definition setEditingItem (e : option EditingItem) (s : State) : State :=
  mkState (activeTab s) (receivables s) (revenues s) (isReceivableModalOpen s)
          (isRevenueModalOpen s) (isPaymentModalOpen s) e (currentReceivable s)
          (alerts s).

Definition setCurrentReceivable (r : option Receivable.t) (s : State) : State :=
  mkState (activeTab s) (receivables s) (revenues s) (isReceivableModalOpen s)
          (isRevenueModalOpen s) (isPaymentModalOpen s) (editingItem s) r
          (alerts s).

Definition alert (message : string) (s : State) : State :=
  mkState (activeTab s) (receivables s) (revenues s) (isReceivableModalOpen s)
          (isRevenueModalOpen s) (isPaymentModalOpen s) (editingItem s) (currentReceivable s)
          (alerts s ++ [message]).

(** The state of a freshly mounted [Dashboard]. *)
Definition initialState : State :=
  mkState receivables_tab [] [] false false false None None [].

(** *** Realtime changes

    A [postgres_changes] payload: its table, its [eventType], the [new] row
    and the [id] of the [old] row.  The channel listens to the two tables only;
    the handler ignores any other. *)
Inductive Payload : Type :=
| receivables_change (eventType : string) (newRecord : Receivable.t) (oldRecord_id : string)
| revenues_change (eventType : string) (newRecord : Revenue.t) (oldRecord_id : string)
| other_table (table : string).

Definition handleChanges (payload : Payload) (s : State) : State :=
  match payload with
  | receivables_change eventType newRecord oldRecord_id =>
      setReceivables
        (fun current =>
           if String.eqb eventType "INSERT" then
             if existsb (fun r => String.eqb (Receivable.id r) (Receivable.id newRecord)) current
             then current
             else current ++ [newRecord]
           else if String.eqb eventType "UPDATE" then
             map (fun r =>
                    if String.eqb (Receivable.id r) (Receivable.id newRecord)
                    then newRecord else r) current
           else if String.eqb eventType "DELETE" then
             filter (fun r => negb (String.eqb (Receivable.id r) oldRecord_id)) current
           else current)
        s
  | revenues_change eventType newRecord oldRecord_id =>
      setRevenues
        (fun current =>
           if String.eqb eventType "INSERT" then
             if existsb (fun r => String.eqb (Revenue.id r) (Revenue.id newRecord)) current
             then current
             else current ++ [newRecord]
           else if String.eqb eventType "UPDATE" then
             map (fun r =>
                    if String.eqb (Revenue.id r) (Revenue.id newRecord)
                    then newRecord else r) current
           else if String.eqb eventType "DELETE" then
             filter (fun r => negb (String.eqb (Revenue.id r) oldRecord_id)) current
           else current)
        s
  | other_table _ => s
  end.

(** *** Handlers

    [supabase] answers the request of the handler, [user_id] is
    [session.user.id]. *)

Definition handleAddReceivable (supabase : Supabase.t) (user_id : string)
    (formData : FormData.t) (s : State) : State :=
  let response :=
    Supabase.insert_receivable supabase
      (ReceivableInsert.mk (FormData.description formData) (FormData.totalAmount formData)
                           0 (FormData.dueDate formData) user_id) in
  match Response.error response with
  | Some message => alert message s
  | None =>
      match Response.data response with
      | Some data =>
          setReceivableModalOpen false (setReceivables (fun current => current ++ [data]) s)
      | None => s
      end
  end.

Definition handleAddRevenue (supabase : Supabase.t) (user_id : string)
    (formData : FormData.t) (s : State) : State :=
  let response :=
    Supabase.insert_revenue supabase
      (RevenueInsert.mk (FormData.description formData) (FormData.amount formData)
                        (FormData.date formData) user_id) in
  match Response.error response with
  | Some message => alert message s
  | None =>
      match Response.data response with
      | Some data =>
          setRevenueModalOpen false (setRevenues (fun current => current ++ [data]) s)
      | None => s
      end
  end.

(** The [paid_amount] that [handleRecordPayment] asks the collaborator to
    store. *)
Definition paymentPatch (current : Receivable.t) (paymentAmount : Z) : ReceivablePatch.t :=
  ReceivablePatch.mk None None
    (Some (Z.min (Receivable.total_amount current)
                 (JS.add (Receivable.paid_amount current) paymentAmount)))
    None.

Definition handleRecordPayment (supabase : Supabase.t) (formData : FormData.t)
    (s : State) : State :=
  match currentReceivable s with
  | None => s
  | Some current =>
      let paymentAmount := FormData.paymentAmount formData in
      let response :=
        Supabase.update_receivable supabase (paymentPatch current paymentAmount)
                                   (Receivable.id current) in
      match Response.error response with
      | Some message => alert message s
      | None =>
          match Response.data response with
          | Some data =>
              setCurrentReceivable None
                (setPaymentModalOpen false
                  (setReceivables
                    (map (fun r =>
                       if String.eqb (Receivable.id r) (Receivable.id data) then data else r))
                    s))
          | None => s
          end
      end
  end.

Definition handleDeleteReceivable (supabase : Supabase.t) (confirmed : bool) (id : string)
    (s : State) : State :=
  if confirmed then
    match Supabase.delete_receivable supabase id with
    | Some message => alert message s
    | None => setReceivables (filter (fun r => negb (String.eqb (Receivable.id r) id))) s
    end
  else s.

Definition handleDeleteRevenue (supabase : Supabase.t) (confirmed : bool) (id : string)
    (s : State) : State :=
  if confirmed then
    match Supabase.delete_revenue supabase id with
    | Some message => alert message s
    | None => setRevenues (filter (fun r => negb (String.eqb (Revenue.id r) id))) s
    end
  else s.

Definition handleOpenEditModal (item : EditingItem) (s : State) : State :=
  setEditingItem (Some item) s.

Definition handleCloseEditModal (s : State) : State :=
  setEditingItem None s.

(** The columns that [handleUpdateItem] asks the collaborator to replace. *)
Definition receivableEditPatch (formData : FormData.t) : ReceivablePatch.t :=
  ReceivablePatch.mk (Some (FormData.description formData))
                     (Some (FormData.totalAmount formData))
                     None
                     (Some (FormData.dueDate formData)).

Definition revenueEditPatch (formData : FormData.t) : RevenuePatch.t :=
  RevenuePatch.mk (FormData.description formData) (FormData.amount formData)
                  (FormData.date formData).

Definition handleUpdateItem (supabase : Supabase.t) (formData : FormData.t)
    (s : State) : State :=
  match editingItem s with
  | None => s
  | Some (receivable item) =>
      let response :=
        Supabase.update_receivable supabase (receivableEditPatch formData)
                                   (Receivable.id item) in
      handleCloseEditModal
        match Response.error response with
        | Some message => alert message s
        | None =>
            match Response.data response with
            | Some data =>
                setReceivables
                  (map (fun r =>
                     if String.eqb (Receivable.id r) (Receivable.id data) then data else r))
                  s
            | None => s
            end
        end
  | Some (revenue item) =>
      let response :=
        Supabase.update_revenue supabase (revenueEditPatch formData) (Revenue.id item) in
      handleCloseEditModal
        match Response.error response with
        | Some message => alert message s
        | None =>
            match Response.data response with
            | Some data =>
                setRevenues
                  (map (fun r =>
                     if String.eqb (Revenue.id r) (Revenue.id data) then data else r))
                  s
            | None => s
            end
        end
  end.

(** The [onClick] of a row's pay button, rendered only while the row is not
    paid. *)
Definition clickPay (r : Receivable.t) (s : State) : State :=
  setPaymentModalOpen true (setCurrentReceivable (Some r) s).

(** *** Form constraints (the same inputs as in the local variant) *)

Definition receivableFormValid (form : Form.Receivable.t) : bool :=
  negb (JS.falsy (Form.Receivable.description form))
  && match Form.valueAsNumber (Form.Receivable.totalAmount form) with
     | Some value => 0 <=? value
     | None => false
     end
  && negb (JS.falsy (Form.Receivable.dueDate form)).

Definition receivableFormData (form : Form.Receivable.t) : option FormData.t :=
  if receivableFormValid form then
    match Form.valueAsNumber (Form.Receivable.totalAmount form) with
    | Some value =>
        Some (FormData.mk (Form.Receivable.description form) value
                          (Form.Receivable.dueDate form) 0 EmptyString 0)
    | None => None
    end
  else None.

Definition paymentFormValid (current : option Receivable.t) (form : Form.Payment.t) : bool :=
  match Form.valueAsNumber (Form.Payment.paymentAmount form) with
  | Some value =>
      (0 <=? value)
      && match current with
         | Some r =>
             value <=? JS.subtract (Receivable.total_amount r) (Receivable.paid_amount r)
         | None => true
         end
  | None => false
  end.

Definition paymentFormData (current : option Receivable.t) (form : Form.Payment.t)
    : option FormData.t :=
  if paymentFormValid current form then
    match Form.valueAsNumber (Form.Payment.paymentAmount form) with
    | Some value =>
        Some (FormData.mk EmptyString 0 EmptyString 0 EmptyString value)
    | None => None
    end
  else None.

Definition submitReceivableForm (supabase : Supabase.t) (user_id : string)
    (form : Form.Receivable.t) (s : State) : State :=
  match receivableFormData form with
  | Some formData => handleAddReceivable supabase user_id formData s
  | None => s
  end.

Definition submitPaymentForm (supabase : Supabase.t) (form : Form.Payment.t)
    (s : State) : State :=
  match paymentFormData (currentReceivable s) form with
  | Some formData => handleRecordPayment supabase formData s
  | None => s
  end.

(** *** Derived state *)

Section Projector.
Variable getTime : string -> option Z.

(** The comparator of [sortedReceivables]. *)
Definition compareReceivables (a b : Receivable.t) : option Z :=
  let remainingA := JS.subtract (Receivable.total_amount a) (Receivable.paid_amount a) in
  let remainingB := JS.subtract (Receivable.total_amount b) (Receivable.paid_amount b) in
  if (0 <? remainingA) && (remainingB <=? 0) then Some (-1)
  else if (remainingA <=? 0) && (0 <? remainingB) then Some 1
  else if JS.falsy (Receivable.due_date a) then Some 1
  else if JS.falsy (Receivable.due_date b) then Some (-1)
  else JS.sub (getTime (Receivable.due_date a)) (getTime (Receivable.due_date b)).

Definition sortedReceivables (receivables : list Receivable.t) : list Receivable.t :=
  JS.sort compareReceivables receivables.

(** The comparator of [sortedRevenues]. *)
Definition compareRevenues (a b : Revenue.t) : option Z :=
  if JS.falsy (Revenue.date a) then Some 1
  else if JS.falsy (Revenue.date b) then Some (-1)
  else JS.sub (getTime (Revenue.date b)) (getTime (Revenue.date a)).

Definition sortedRevenues (revenues : list Revenue.t) : list Revenue.t :=
  JS.sort compareRevenues revenues.
End Projector.

Module Summary.
Record t : Type := mk { total : Z; remaining : Z }.
End Summary.

Definition receivablesSummary (receivables : list Receivable.t) : Summary.t :=
  fold_left
    (fun acc curr =>
       Summary.mk (JS.add (Summary.total acc) (Receivable.total_amount curr))
                  (JS.add (Summary.remaining acc)
                          (JS.subtract (Receivable.total_amount curr)
                                       (Receivable.paid_amount curr))))
    receivables (Summary.mk 0 0).

Definition revenuesSummary (revenues : list Revenue.t) : Z :=
  fold_left (fun acc curr => JS.add acc (Revenue.amount curr)) revenues 0.

End Remote.



(** ** The persistence effects of the local variant

    [App] has three effects: one loads both lists from [localStorage] on
    mount, two save a list whenever it changes.  [JSON.parse] and
    [JSON.stringify] are arguments ([None] when [JSON.parse] throws); the storage
    is what [getItem] answers for each key ([None] for [null]); [accepted] tells
    whether the browser takes the write ([setItem] throws when it does not, and
    the effect catches that). *)

Module Persistence.

Definition Storage : Type := string -> option string.

Definition setItem (key value : string) (storage : Storage) : Storage :=
  fun k => if String.eqb k key then Some value else storage k.

Section Effects.
Variable parseReceivables : string -> option (list Local.Receivable.t).
Variable parseRevenues : string -> option (list Local.Revenue.t).
Variable stringifyReceivables : list Local.Receivable.t -> string.
Variable stringifyRevenues : list Local.Revenue.t -> string.

(** The first statement of the [try] block: [None] when [JSON.parse] threw. *)
Definition loadReceivables (storage : Storage) (s : Local.State) : option Local.State :=
  match storage "receivables"%string with
  | Some storedReceivables =>
      if JS.falsy storedReceivables then Some s
      else
        match parseReceivables storedReceivables with
        | Some parsed => Some (Local.setReceivables (fun _ => parsed) s)
        | None => None
        end
  | None => Some s
  end.

(** The load effect: a throw leaves the [try] block, with what was set before
    it kept. *)
Definition loadEffect (storage : Storage) (s : Local.State) : Local.State :=
  match loadReceivables storage s with
  | None => s
  | Some s1 =>
      match storage "revenues"%string with
      | Some storedRevenues =>
          if JS.falsy storedRevenues then s1
          else
            match parseRevenues storedRevenues with
            | Some parsed => Local.setRevenues (fun _ => parsed) s1
            | None => s1
            end
      | None => s1
      end
  end.

Definition saveReceivablesEffect (accepted : bool) (s : Local.State) (storage : Storage)
    : Storage :=
  if accepted
  then setItem "receivables" (stringifyReceivables (Local.receivables s)) storage
  else storage.

Definition saveRevenuesEffect (accepted : bool) (s : Local.State) (storage : Storage)
    : Storage :=
  if accepted
  then setItem "revenues" (stringifyRevenues (Local.revenues s)) storage
  else storage.
End Effects.

End Persistence.

(** ** The remaining events of the local interface *)

Module LocalUI.

(** The tab buttons. *)
Definition setActiveTab (tab : Local.ActiveTab) (s : Local.State) : Local.State :=
  Local.mkState tab (Local.receivables s) (Local.revenues s) (Local.isReceivableModalOpen s)
    (Local.isRevenueModalOpen s) (Local.isPaymentModalOpen s) (Local.editingItem s)
    (Local.currentReceivable s).

(** [onClose] of the payment modal and its cancel button:
    [setPaymentModalOpen(false); setCurrentReceivable(null)]. *)
Definition closePayment (s : Local.State) : Local.State :=
  Local.setCurrentReceivable None (Local.setPaymentModalOpen false s).

(** The inputs of the revenue forms: [description] is [required], [amount] is
    [type="number" min="0" required], [date] is [type="date" required]. *)
Definition revenueFormValid (form : Form.Revenue.t) : bool :=
  negb (JS.falsy (Form.Revenue.description form))
  && match Form.valueAsNumber (Form.Revenue.amount form) with
     | Some value => 0 <=? value
     | None => false
     end
  && negb (JS.falsy (Form.Revenue.date form)).

Definition revenueFormData (form : Form.Revenue.t) : option Local.FormData.t :=
  if revenueFormValid form then
    match Form.valueAsNumber (Form.Revenue.amount form) with
    | Some value =>
        Some (Local.FormData.mk (Form.Revenue.description form) 0 EmptyString
                value (Form.Revenue.date form) 0)
    | None => None
    end
  else None.

Definition submitRevenueForm (uuid : string) (form : Form.Revenue.t) (s : Local.State)
    : Local.State :=
  match revenueFormData form with
  | Some formData => Local.handleAddRevenue uuid formData s
  | None => s
  end.

(** The edit modal renders the receivable form or the revenue form after the
    tag of [editingItem], with the constraints of the add forms, and nothing
    when there is no [editingItem]: the other form cannot be submitted. *)
Definition submitEditForm (form : Form.Edit) (s : Local.State) : Local.State :=
  match Local.editingItem s, form with
  | Some (Local.receivable _), Form.editReceivable fields =>
      match Local.receivableFormData fields with
      | Some formData => Local.handleUpdateItem formData s
      | None => s
      end
  | Some (Local.revenue _), Form.editRevenue fields =>
      match revenueFormData fields with
      | Some formData => Local.handleUpdateItem formData s
      | None => s
      end
  | _, _ => s
  end.

End LocalUI.

(** ** The sign-in screen of the Supabase variant *)

Module Auth.

(** The error of an authentication request: [error_description] may be
    undefined ([None]). *)
Module AuthError.
Record t : Type := mk { error_description : option string; message : string }.
End AuthError.

(** [supabase.auth]: each request answers with its [error], if any (a request
    that rejects throws that error). *)
Module Client.
Record t : Type := mk {
  signInWithPassword : string -> string -> option AuthError.t;
  signUp : string -> string -> option AuthError.t
}.
End Client.

(** The [useState] cells of [Auth], and the messages shown with [alert]. *)
Record State : Type := mkState {
  loading : bool;
  email : string;
  password : string;
  isLogin : bool;
  alerts : list string
}.

Definition setLoading (b : bool) (s : State) : State :=
  mkState b (email s) (password s) (isLogin s) (alerts s).

Definition setIsLogin (b : bool) (s : State) : State :=
  mkState (loading s) (email s) (password s) b (alerts s).

Definition alert (text : string) (s : State) : State :=
  mkState (loading s) (email s) (password s) (isLogin s) (alerts s ++ [text]).

(** [error.error_description || error.message]. *)
Definition errorText (error : AuthError.t) : string :=
  match AuthError.error_description error with
  | Some description =>
      if JS.falsy description then AuthError.message error else description
  | None => AuthError.message error
  end.

Definition handleAuth (auth : Client.t) (s : State) : State :=
  let started := setLoading true s in
  let tried :=
    if isLogin s then
      match Client.signInWithPassword auth (email s) (password s) with
      | Some error => alert (errorText error) started
      | None => started
      end
    else
      match Client.signUp auth (email s) (password s) with
      | Some error => alert (errorText error) started
      | None =>
          alert "Pendaftaran berhasil! Silakan cek email Anda untuk verifikasi." started
      end in
  setLoading false tried.

End Auth.


(** * Vocabulary of the statements *)

Section ByIdDefinitions.
Context {R : Type}.
Variable id : R -> string.

(** No record of [l] carries the identifier [x]. *)
Definition absent (x : string) (l : list R) : Prop :=
  forall r, In r l -> id r <> x.

(** [current.some(r => r.id === d.id) ? current : [...current, d]], the
    [INSERT] branch of [handleChanges]. *)
Definition insert_if_absent (d : R) (current : list R) : list R :=
  if existsb (fun r => String.eqb (id r) (id d)) current then current else current ++ [d].
End ByIdDefinitions.

(** The sum of a list of amounts, as whole numbers. *)
Definition sumZ (l : list Z) : Z := fold_right Z.add 0 l.

(** The sums that adding up a list from the left goes through, starting from
    [acc]. *)
Fixpoint runningSums (acc : Z) (l : list Z) : list Z :=
  match l with
  | [] => []
  | x :: rest => (acc + x) :: runningSums (acc + x) rest
  end.

(** Adding up the list from 0 needs no rounding: each sum on the way is held
    by a double. *)
Definition summed_exactly (l : list Z) : Prop :=
  Forall (fun sum => JS.isDouble sum = true) (runningSums 0 l).



(** The payment form submitted with [amount] (the handler reads no other
    field). *)
Definition localPayment (amount : Z) : Local.FormData.t :=
  Local.FormData.mk EmptyString 0 EmptyString 0 EmptyString amount.

Definition remotePayment (amount : Z) : Remote.FormData.t :=
  Remote.FormData.mk EmptyString 0 EmptyString 0 EmptyString amount.

(** [recordPayment(id, amount)] in the local variant: the pay button of the
    stored receivable [id], then the payment form submitted with [amount].
    Nothing happens when no receivable is stored under [id]. *)
Definition Local_recordPayment (id : string) (amount : Z) (s : Local.State) : Local.State :=
  match find (fun r => String.eqb (Local.Receivable.id r) id) (Local.receivables s) with
  | Some r => Local.handleRecordPayment (localPayment amount) (Local.clickPay r s)
  | None => s
  end.

(** A sequence of payments on the receivable [id], in order. *)
Definition Local_recordPayments (id : string) (amounts : list Z) (s : Local.State)
    : Local.State :=
  fold_left (fun s amount => Local_recordPayment id amount s) amounts s.

(** [r'] is a later stage of the receivable [r]: same id, same total amount
    and, when the amounts of [r] are doubles and [r] had not paid more than its
    total, a paid amount that is a double, has not decreased and does not exceed
    the total. *)
Definition Local_steady (r r' : Local.Receivable.t) : Prop :=
  Local.Receivable.id r' = Local.Receivable.id r
  /\ Local.Receivable.totalAmount r' = Local.Receivable.totalAmount r
  /\ (JS.isDouble (Local.Receivable.totalAmount r) = true ->
      JS.isDouble (Local.Receivable.paidAmount r) = true ->
      Local.Receivable.paidAmount r <= Local.Receivable.totalAmount r ->
      JS.isDouble (Local.Receivable.paidAmount r') = true
      /\ Local.Receivable.paidAmount r <= Local.Receivable.paidAmount r'
      /\ Local.Receivable.paidAmount r' <= Local.Receivable.totalAmount r').

Definition Remote_steady (r r' : Remote.Receivable.t) : Prop :=
  Remote.Receivable.id r' = Remote.Receivable.id r
  /\ Remote.Receivable.total_amount r' = Remote.Receivable.total_amount r
  /\ (JS.isDouble (Remote.Receivable.total_amount r) = true ->
      JS.isDouble (Remote.Receivable.paid_amount r) = true ->
      Remote.Receivable.paid_amount r <= Remote.Receivable.total_amount r ->
      JS.isDouble (Remote.Receivable.paid_amount r') = true
      /\ Remote.Receivable.paid_amount r <= Remote.Receivable.paid_amount r'
      /\ Remote.Receivable.paid_amount r' <= Remote.Receivable.total_amount r').

(** One payment in the remote variant with nothing in between: the pay
    button of a receivable [r] as it is stored, then at once the payment form
    submitted with a non-negative [amount], answered by a collaborator that,
    when it returns a row, returns [r] with the requested paid amount (it may
    also report an error). *)
Inductive Remote_payment_step : Remote.State -> Remote.State -> Prop :=
| payment_step (supabase : Remote.Supabase.t) (r : Remote.Receivable.t) (amount : Z)
    (s : Remote.State) :
    In r (Remote.receivables s) ->
    0 <= amount ->
    (forall data,
       Remote.Response.data
         (Remote.Supabase.update_receivable supabase (Remote.paymentPatch r amount)
            (Remote.Receivable.id r))
       = Some data ->
       data = Remote.ReceivablePatch.apply (Remote.paymentPatch r amount) r) ->
    Remote_payment_step s
      (Remote.handleRecordPayment supabase (remotePayment amount) (Remote.clickPay r s)).

(** A finite sequence of payments. *)
Inductive Remote_payments : Remote.State -> Remote.State -> Prop :=
| payments_done (s : Remote.State) : Remote_payments s s
| payments_more (s s1 s2 : Remote.State) :
    Remote_payment_step s s1 -> Remote_payments s1 s2 -> Remote_payments s s2.

(** Under a comparator, [x] may stand before [y] when [y] does not strictly
    precede [x]; [x] and [y] are tied when neither strictly precedes the
    other. *)
Definition ordered_by {A : Type} (comparefn : A -> A -> option Z) (x y : A) : Prop :=
  JS.precedes comparefn y x = false.

Definition tied_by {A : Type} (comparefn : A -> A -> option Z) (x y : A) : bool :=
  negb (JS.precedes comparefn x y) && negb (JS.precedes comparefn y x).

(** *** The projected order of receivables *)

(** [remaining = total_amount - paid_amount], as whole numbers; the
    difference that the code computes has the same sign
    ([subtract_positive]). *)
Definition Local_remaining (r : Local.Receivable.t) : Z :=
  Local.Receivable.totalAmount r - Local.Receivable.paidAmount r.

Definition Remote_remaining (r : Remote.Receivable.t) : Z :=
  Remote.Receivable.total_amount r - Remote.Receivable.paid_amount r.

(** The time stamp of a date, 0 standing in where there is none. *)
Definition time_of (getTime : string -> option Z) (date : string) : Z :=
  match getTime date with
  | Some t => t
  | None => 0
  end.

Section OrderVocabulary.
Variable getTime : string -> option Z.






End OrderVocabulary.

(** *** Vocabulary of the further statements *)

(** A run of realtime notifications, in arrival order. *)
Definition Remote_changes (payloads : list Remote.Payload) (s : Remote.State) : Remote.State :=
  fold_left (fun s payload => Remote.handleChanges payload s) payloads s.

(** The ids of the two lists of a state are unique. *)
Definition Remote_unique_ids (s : Remote.State) : Prop :=
  NoDup (map Remote.Receivable.id (Remote.receivables s))
  /\ NoDup (map Remote.Revenue.id (Remote.revenues s)).

Section RevenueOrderVocabulary.
Variable getTime : string -> option Z.

(** The date of the revenue is a valid date. *)
Definition Local_revenue_dated (r : Local.Revenue.t) : Prop :=
  getTime (Local.Revenue.date r) <> None.

(** [a] may stand before [b]: the date of [a] is not before that of [b]. *)
Definition Local_revenue_in_order (a b : Local.Revenue.t) : Prop :=
  time_of getTime (Local.Revenue.date b) <= time_of getTime (Local.Revenue.date a).

Definition Local_revenue_same_key (a b : Local.Revenue.t) : bool :=
  time_of getTime (Local.Revenue.date a) =? time_of getTime (Local.Revenue.date b).

(** The date of the revenue is missing or a valid date. *)
Definition Remote_revenue_missing_or_dated (r : Remote.Revenue.t) : Prop :=
  Remote.Revenue.date r = EmptyString \/ getTime (Remote.Revenue.date r) <> None.

(** [a] may stand before [b]: [a] lacks a date only if [b] lacks one and, both
    having one, that of [a] is not before that of [b]. *)
Definition Remote_revenue_in_order (a b : Remote.Revenue.t) : Prop :=
  (Remote.Revenue.date a = EmptyString -> Remote.Revenue.date b = EmptyString)
  /\ (Remote.Revenue.date a <> EmptyString ->
      Remote.Revenue.date b <> EmptyString ->
      time_of getTime (Remote.Revenue.date b) <= time_of getTime (Remote.Revenue.date a)).

(** [a] and [b] both have a date, and the same one. *)
Definition Remote_revenue_same_key (a b : Remote.Revenue.t) : bool :=
  negb (JS.falsy (Remote.Revenue.date a))
  && negb (JS.falsy (Remote.Revenue.date b))
  && (time_of getTime (Remote.Revenue.date a) =? time_of getTime (Remote.Revenue.date b)).
End RevenueOrderVocabulary.

(** *** The events of the local interface *)

(** A state is sound when the ids of each list are unique, no amount is
    negative, and the receivable held for editing has no negative paid
    amount. *)
Definition Local_sound (s : Local.State) : Prop :=
  NoDup (map Local.Receivable.id (Local.receivables s))
  /\ NoDup (map Local.Revenue.id (Local.revenues s))
  /\ Forall (fun r => 0 <= Local.Receivable.totalAmount r /\ 0 <= Local.Receivable.paidAmount r)
            (Local.receivables s)
  /\ Forall (fun v => 0 <= Local.Revenue.amount v) (Local.revenues s)
  /\ match Local.editingItem s with
     | Some (Local.receivable item) => 0 <= Local.Receivable.paidAmount item
     | _ => True
     end.

(** The amounts that a state holds are doubles. *)
Definition Local_doubles (s : Local.State) : Prop :=
  Forall (fun r => JS.isDouble (Local.Receivable.totalAmount r) = true
                   /\ JS.isDouble (Local.Receivable.paidAmount r) = true)
         (Local.receivables s)
  /\ Forall (fun v => JS.isDouble (Local.Revenue.amount v) = true) (Local.revenues s)
  /\ match Local.editingItem s with
     | Some (Local.receivable item) => JS.isDouble (Local.Receivable.paidAmount item) = true
     | _ => True
     end.

(** One event of the interface: a tab button, the buttons that open and close
    the modals, the four forms (submitted through their constraints), and the
    pay, edit and delete buttons of a row of a table.  A new record gets an id
    that its list does not hold; the pay button is rendered only for a row with a
    remaining balance.  Which modal is open is not looked at, so the relation
    allows more than the interface does. *)
Inductive Local_event : Local.State -> Local.State -> Prop :=
| event_tab (tab : Local.ActiveTab) (s : Local.State) :
    Local_event s (LocalUI.setActiveTab tab s)
| event_receivable_modal (open : bool) (s : Local.State) :
    Local_event s (Local.setReceivableModalOpen open s)
| event_revenue_modal (open : bool) (s : Local.State) :
    Local_event s (Local.setRevenueModalOpen open s)
| event_submit_receivable (uuid : string) (form : Form.Receivable.t) (s : Local.State) :
    absent Local.Receivable.id uuid (Local.receivables s) ->
    Local_event s (Local.submitReceivableForm uuid form s)
| event_submit_revenue (uuid : string) (form : Form.Revenue.t) (s : Local.State) :
    absent Local.Revenue.id uuid (Local.revenues s) ->
    Local_event s (LocalUI.submitRevenueForm uuid form s)
| event_click_pay (r : Local.Receivable.t) (s : Local.State) :
    In r (Local.receivables s) ->
    0 < Local_remaining r ->
    Local_event s (Local.clickPay r s)
| event_submit_payment (form : Form.Payment.t) (s : Local.State) :
    Local_event s (Local.submitPaymentForm form s)
| event_close_payment (s : Local.State) :
    Local_event s (LocalUI.closePayment s)
| event_edit_receivable (r : Local.Receivable.t) (s : Local.State) :
    In r (Local.receivables s) ->
    Local_event s (Local.handleOpenEditModal (Local.receivable r) s)
| event_edit_revenue (v : Local.Revenue.t) (s : Local.State) :
    In v (Local.revenues s) ->
    Local_event s (Local.handleOpenEditModal (Local.revenue v) s)
| event_submit_edit (form : Form.Edit) (s : Local.State) :
    Local_event s (LocalUI.submitEditForm form s)
| event_close_edit (s : Local.State) :
    Local_event s (Local.handleCloseEditModal s)
| event_delete_receivable (confirmed : bool) (r : Local.Receivable.t) (s : Local.State) :
    In r (Local.receivables s) ->
    Local_event s (Local.handleDeleteReceivable confirmed (Local.Receivable.id r) s)
| event_delete_revenue (confirmed : bool) (v : Local.Revenue.t) (s : Local.State) :
    In v (Local.revenues s) ->
    Local_event s (Local.handleDeleteRevenue confirmed (Local.Revenue.id v) s).

(** A finite run of events. *)
Inductive Local_events : Local.State -> Local.State -> Prop :=
| events_none (s : Local.State) : Local_events s s
| events_more (s s1 s2 : Local.State) :
    Local_event s s1 -> Local_events s1 s2 -> Local_events s s2.


(** * Example data *)

(** A store of the remote variant used in the examples: two receivables and
    one revenue. *)
Definition remoteExample : Remote.State :=
  Remote.mkState Remote.receivables_tab
    [Remote.Receivable.mk "r1" "invoice 1" 1000 800 "2024-03-01";
     Remote.Receivable.mk "r2" "invoice 2" 500 0 "2024-06-01"]
    [Remote.Revenue.mk "v1" "sale" 250 "2024-02-01"]
    false false false None None [].

(** A store of the local variant used in the examples. *)
Definition localExample : Local.State :=
  Local.mkState Local.receivables_tab
    [Local.Receivable.mk "r1" "invoice 1" 1000 800 "2024-03-01";
     Local.Receivable.mk "r2" "invoice 2" 500 0 "2024-06-01"]
    [Local.Revenue.mk "v1" "sale" 250 "2024-02-01"]
    false false false None None.

(** An in-memory stand-in for the collaborator, used to instantiate the
    statements about the remote variant: it holds the given rows, answers an
    update of a row it holds with the patched row, an insert with the row under
    the id [fresh], and reports an error only for an update of a row it does not
    hold. *)
Definition tableClient (rows : list Remote.Receivable.t) (revs : list Remote.Revenue.t)
    (fresh : string) : Remote.Supabase.t :=
  Remote.Supabase.mk
    (fun row =>
       Remote.Response.mk
         (Some (Remote.Receivable.mk fresh
                  (Remote.ReceivableInsert.description row)
                  (Remote.ReceivableInsert.total_amount row)
                  (Remote.ReceivableInsert.paid_amount row)
                  (Remote.ReceivableInsert.due_date row)))
         None)
    (fun patch id =>
       match find (fun r => String.eqb (Remote.Receivable.id r) id) rows with
       | Some r => Remote.Response.mk (Some (Remote.ReceivablePatch.apply patch r)) None
       | None => Remote.Response.mk None (Some "no rows returned"%string)
       end)
    (fun _ => None)
    (fun row =>
       Remote.Response.mk
         (Some (Remote.Revenue.mk fresh
                  (Remote.RevenueInsert.description row)
                  (Remote.RevenueInsert.amount row)
                  (Remote.RevenueInsert.date row)))
         None)
    (fun patch id =>
       match find (fun r => String.eqb (Remote.Revenue.id r) id) revs with
       | Some r => Remote.Response.mk (Some (Remote.RevenuePatch.apply patch r)) None
       | None => Remote.Response.mk None (Some "no rows returned"%string)
       end)
    (fun _ => None).

(** The collaborator that holds exactly the rows of a state. *)
Definition clientOf (s : Remote.State) (fresh : string) : Remote.Supabase.t :=
  tableClient (Remote.receivables s) (Remote.revenues s) fresh.

(** A submitted edit form for a receivable. *)
Definition localEdit (description : string) (totalAmount : Z) (dueDate : string)
    : Local.FormData.t :=
  Local.FormData.mk description totalAmount dueDate 0 EmptyString 0.

Definition remoteEdit (description : string) (totalAmount : Z) (dueDate : string)
    : Remote.FormData.t :=
  Remote.FormData.mk description totalAmount dueDate 0 EmptyString 0.

(** The receivables of the ordering example: remaining 0 due 2024-01-01,
    remaining 500 due 2024-06-01, remaining 200 due 2024-03-01. *)
Definition localOrderExample : list Local.Receivable.t :=
  [Local.Receivable.mk "p" "settled" 300 300 "2024-01-01";
   Local.Receivable.mk "q" "open 500" 500 0 "2024-06-01";
   Local.Receivable.mk "r" "open 200" 1000 800 "2024-03-01"].

Definition remoteOrderExample : list Remote.Receivable.t :=
  [Remote.Receivable.mk "p" "settled" 300 300 "2024-01-01";
   Remote.Receivable.mk "q" "open 500" 500 0 "2024-06-01";
   Remote.Receivable.mk "r" "open 200" 1000 800 "2024-03-01"].

(** Receivables of the remote variant, one of them without due date. *)
Definition remoteUndatedExample : list Remote.Receivable.t :=
  [Remote.Receivable.mk "n" "open, no due date" 50 0 EmptyString;
   Remote.Receivable.mk "p" "settled" 300 300 "2024-01-01";
   Remote.Receivable.mk "q" "open 500" 500 0 "2024-06-01"].

(** The remote example store after a payment of 100 on [r1], and after a
    further payment of 10000 on it, each confirmed by the collaborator. *)
Definition remoteAfterFirst : Remote.State :=
  Remote.handleRecordPayment (clientOf remoteExample "r3") (remotePayment 100)
    (Remote.clickPay (Remote.Receivable.mk "r1" "invoice 1" 1000 800 "2024-03-01")
       remoteExample).

Definition remoteAfterSecond : Remote.State :=
  Remote.handleRecordPayment (clientOf remoteAfterFirst "r3") (remotePayment 10000)
    (Remote.clickPay (Remote.Receivable.mk "r1" "invoice 1" 1000 900 "2024-03-01")
       remoteAfterFirst).

(** Two open receivables of the local variant, the first without due date. *)
Definition localUndated : Local.Receivable.t :=
  Local.Receivable.mk "a" "no due date" 100 0 EmptyString.

Definition localDated : Local.Receivable.t :=
  Local.Receivable.mk "b" "dated" 100 0 "2024-03-01".

(** The remote example store while a payment is being entered: the pay button
    of [r1] (paid 800 of 1000) has been pressed. *)
Definition remotePressed : Remote.State :=
  Remote.clickPay (Remote.Receivable.mk "r1" "invoice 1" 1000 800 "2024-03-01") remoteExample.

(** ... and a notification has then reported a payment of 100 on [r1] that
    was recorded in another session. *)
Definition remotePaidElsewhere : Remote.State :=
  Remote.handleChanges
    (Remote.receivables_change "UPDATE"
       (Remote.Receivable.mk "r1" "invoice 1" 1000 900 "2024-03-01") EmptyString)
    remotePressed.

(** ... or a notification has reported that the total of [r1] was edited down
    to 850 in another session. *)
Definition remoteLoweredElsewhere : Remote.State :=
  Remote.handleChanges
    (Remote.receivables_change "UPDATE"
       (Remote.Receivable.mk "r1" "invoice 1" 850 800 "2024-03-01") EmptyString)
    remotePressed.

(** Two receivables whose totals are 2^53 and 1, and three revenues whose
    amounts are 2^53, 1 and 1, the large one being the oldest. *)
Definition localLargeTotals : list Local.Receivable.t :=
  [Local.Receivable.mk "a" "large" 9007199254740992 0 "2024-01-01";
   Local.Receivable.mk "b" "small" 1 0 "2024-02-01"].

Definition remoteLargeTotals : list Remote.Receivable.t :=
  [Remote.Receivable.mk "a" "large" 9007199254740992 0 "2024-01-01";
   Remote.Receivable.mk "b" "small" 1 0 "2024-02-01"].

Definition localLargeRevenues : list Local.Revenue.t :=
  [Local.Revenue.mk "x" "large" 9007199254740992 "2024-01-01";
   Local.Revenue.mk "y" "small" 1 "2024-02-01";
   Local.Revenue.mk "z" "small" 1 "2024-03-01"].

(** Receivables of the remote variant: two open ones without due date around
    an open dated one. *)
Definition remoteUndatedTies : list Remote.Receivable.t :=
  [Remote.Receivable.mk "n1" "open, no due date" 50 0 EmptyString;
   Remote.Receivable.mk "d" "open, dated" 70 0 "2024-06-01";
   Remote.Receivable.mk "n2" "open, no due date" 60 0 EmptyString].

(** The receivables of the summary example: total 1000 paid 200, total 500
    paid 500. *)
Definition localSummaryExample : list Local.Receivable.t :=
  [Local.Receivable.mk "a" "first" 1000 200 "2024-01-01";
   Local.Receivable.mk "b" "second" 500 500 "2024-02-01"].

Definition remoteSummaryExample : list Remote.Receivable.t :=
  [Remote.Receivable.mk "a" "first" 1000 200 "2024-01-01";
   Remote.Receivable.mk "b" "second" 500 500 "2024-02-01"].

(** Revenues of the remote variant, the first without date. *)
Definition remoteRevenuesExample : list Remote.Revenue.t :=
  [Remote.Revenue.mk "w" "undated" 5 EmptyString;
   Remote.Revenue.mk "x" "one" 10 "2024-01-01";
   Remote.Revenue.mk "y" "two" 20 "2024-03-01";
   Remote.Revenue.mk "z" "three" 30 "2024-02-01"].

Definition localRevenuesExample : list Local.Revenue.t :=
  [Local.Revenue.mk "x" "one" 10 "2024-01-01";
   Local.Revenue.mk "y" "two" 20 "2024-03-01";
   Local.Revenue.mk "z" "three" 30 "2024-02-01"].

(** A codec that knows the lists of the local example store, for the examples
    of the persistence effects: it writes them as a fixed text and reads that
    text back; any other text does not parse. *)
Definition exampleStringifyReceivables (l : list Local.Receivable.t) : string :=
  "[receivables of the example]".

Definition exampleStringifyRevenues (l : list Local.Revenue.t) : string :=
  "[revenues of the example]".

Definition exampleParseReceivables (text : string) : option (list Local.Receivable.t) :=
  if String.eqb text "[receivables of the example]"
  then Some (Local.receivables localExample) else None.

Definition exampleParseRevenues (text : string) : option (list Local.Revenue.t) :=
  if String.eqb text "[revenues of the example]"
  then Some (Local.revenues localExample) else None.

(** An empty storage, and one whose receivables entry is damaged while its
    revenues entry is sound. *)
Definition emptyStorage : Persistence.Storage := fun _ => None.

Definition damagedStorage : Persistence.Storage :=
  Persistence.setItem "revenues" "[revenues of the example]"
    (Persistence.setItem "receivables" "[{" emptyStorage).

(** A client of the sign-in screen that refuses every request. *)
Definition refusingAuth : Auth.Client.t :=
  Auth.Client.mk
    (fun _ _ => Some (Auth.AuthError.mk None "Invalid login credentials"))
    (fun _ _ => Some (Auth.AuthError.mk (Some "User already registered"%string)
                        "signup failed")).

Definition acceptingAuth : Auth.Client.t :=
  Auth.Client.mk (fun _ _ => None) (fun _ _ => None).

Definition authExample : Auth.State :=
  Auth.mkState false "a@b.c" "secret" true [].


(** * Properties *)

(** ** Rounding to a double *)

(** The grid of a magnitude of 2^53 or more. *)
Lemma ulp_grid (a : Z) :
  2 ^ 53 <= a ->
  exists e, 1 <= e /\ Z.log2 a = 52 + e /\ JS.ulp a = 2 ^ e
            /\ 2 ^ 52 * 2 ^ e <= a < 2 ^ 53 * 2 ^ e.
Proof.
  intros Ha. assert (Hpos : 0 < a) by (pose proof (Z.pow_pos_nonneg 2 53); lia).
  pose proof (Z.log2_spec a Hpos) as [L U].
  assert (H53 : 53 <= Z.log2 a).
  { apply Z.log2_le_pow2; [exact Hpos | exact Ha]. }
  exists (Z.log2 a - 52). split; [lia|]. split; [lia|]. split; [reflexivity|].
  rewrite <- !Z.pow_add_r by lia.
  replace (52 + (Z.log2 a - 52)) with (Z.log2 a) by lia.
  replace (53 + (Z.log2 a - 52)) with (Z.succ (Z.log2 a)) by lia.
  split; assumption.
Qed.

(** What [roundMagnitude] returns on such a magnitude, in terms of its
    quotient and remainder on the grid. *)
Lemma roundMagnitude_grid (a : Z) :
  2 ^ 53 <= a ->
  exists e q r,
    1 <= e /\ a = q * 2 ^ e + r /\ 0 <= r < 2 ^ e /\ 2 ^ 52 <= q < 2 ^ 53
    /\ Z.log2 a = 52 + e
    /\ ((2 * r < 2 ^ e /\ JS.roundMagnitude a = q * 2 ^ e)
        \/ (2 ^ e < 2 * r /\ JS.roundMagnitude a = (q + 1) * 2 ^ e)
        \/ (2 * r = 2 ^ e /\ Z.even q = true /\ JS.roundMagnitude a = q * 2 ^ e)
        \/ (2 * r = 2 ^ e /\ Z.even q = false /\ JS.roundMagnitude a = (q + 1) * 2 ^ e)).
Proof.
  intros Ha. destruct (ulp_grid Ha) as (e & He & Hl & Hu & L & U).
  assert (Hpos : 0 < 2 ^ e) by (apply Z.pow_pos_nonneg; lia).
  exists e, (a / 2 ^ e), (a mod 2 ^ e).
  split; [exact He|]. split; [rewrite (Z.mul_comm (a / 2 ^ e)); apply Z.div_mod; apply Z.neq_sym, Z.lt_neq, Hpos|].
  split; [apply Z.mod_pos_bound; exact Hpos|]. split.
  - split.
    + apply Z.div_le_lower_bound; [exact Hpos | ]. rewrite Z.mul_comm. exact L.
    + apply Z.div_lt_upper_bound; [exact Hpos | ]. rewrite Z.mul_comm. exact U.
  - split.
    + exact Hl.
    + unfold JS.roundMagnitude. destruct (Z.ltb_spec a (2 ^ 53)) as [C|_]; [lia|].
      cbv zeta. rewrite Hu.
      destruct (Z.ltb_spec (2 * (a mod 2 ^ e)) (2 ^ e)) as [C1|C1]; [left; now split|].
      destruct (Z.ltb_spec (2 ^ e) (2 * (a mod 2 ^ e))) as [C2|C2];
        [right; left; now split|].
      destruct (Z.even (a / 2 ^ e)) eqn:Ev.
      * right; right; left. repeat split; lia.
      * right; right; right. repeat split; lia.
Qed.

Lemma roundMagnitude_small (a : Z) : a < 2 ^ 53 -> JS.roundMagnitude a = a.
Proof.
  intros H. unfold JS.roundMagnitude.
  destruct (Z.ltb_spec a (2 ^ 53)); [reflexivity | lia].
Qed.

Lemma roundMagnitude_bounds (a : Z) :
  2 ^ 53 <= a ->
  2 ^ Z.log2 a <= JS.roundMagnitude a <= 2 ^ (Z.log2 a + 1).
Proof.
  intros Ha. destruct (roundMagnitude_grid Ha) as (e & q & r & He & Ea & Hr & Hq & Hl & Hcase).
  assert (Hpos : 0 < 2 ^ e) by (apply Z.pow_pos_nonneg; lia).
  rewrite Hl. rewrite !Z.pow_add_r by lia.
  change (2 ^ 1) with 2.
  assert (E52 : 2 ^ 52 * 2 ^ e * 2 = 2 ^ 53 * 2 ^ e) by (change (2 ^ 53) with (2 ^ 52 * 2); lia).
  destruct Hcase as [[_ ->]|[[_ ->]|[(_ & _ & ->)|(_ & _ & ->)]]]; nia.
Qed.

Lemma roundMagnitude_monotone (a b : Z) :
  0 <= a <= b -> JS.roundMagnitude a <= JS.roundMagnitude b.
Proof.
  intros [Ha Hab].
  destruct (Z.lt_ge_cases b (2 ^ 53)) as [Hb|Hb].
  - rewrite !roundMagnitude_small by lia. exact Hab.
  - destruct (Z.lt_ge_cases a (2 ^ 53)) as [Ha'|Ha'].
    + rewrite (roundMagnitude_small Ha').
      pose proof (roundMagnitude_bounds Hb) as [L _].
      assert (2 ^ 53 <= 2 ^ Z.log2 b).
      { apply Z.pow_le_mono_r; [lia|]. apply Z.log2_le_pow2; lia. }
      lia.
    + assert (Hl : Z.log2 a <= Z.log2 b) by (apply Z.log2_le_mono; exact Hab).
      destruct (Z.eq_dec (Z.log2 a) (Z.log2 b)) as [El|Nl].
      * destruct (roundMagnitude_grid Ha') as (e & q & r & He & Ea & Hr & Hq & Hla & Hca).
        destruct (roundMagnitude_grid Hb) as (e' & q' & r' & He' & Eb & Hr' & Hq' & Hlb & Hcb).
        assert (e' = e) by lia. subst e'.
        assert (Hpos : 0 < 2 ^ e) by (apply Z.pow_pos_nonneg; lia).
        assert (Hqq : q <= q') by nia.
        destruct (Z.eq_dec q q') as [<-|Nq].
        -- assert (r <= r') by nia.
           destruct Hca as [[C ->]|[[C ->]|[(C & Ev & ->)|(C & Ev & ->)]]];
             destruct Hcb as [[C' ->]|[[C' ->]|[(C' & Ev' & ->)|(C' & Ev' & ->)]]];
             try nia; congruence.
        -- assert (q + 1 <= q') by lia.
           destruct Hca as [[C ->]|[[C ->]|[(C & Ev & ->)|(C & Ev & ->)]]];
             destruct Hcb as [[C' ->]|[[C' ->]|[(C' & Ev' & ->)|(C' & Ev' & ->)]]];
             nia.
      * pose proof (roundMagnitude_bounds Ha') as [_ U].
        pose proof (roundMagnitude_bounds Hb) as [L _].
        assert (2 ^ (Z.log2 a + 1) <= 2 ^ Z.log2 b) by (apply Z.pow_le_mono_r; lia).
        lia.
Qed.

Lemma roundMagnitude_nonneg (a : Z) : 0 <= a -> 0 <= JS.roundMagnitude a.
Proof.
  intros Ha. rewrite <- (roundMagnitude_small (a := 0)) at 1 by reflexivity.
  apply roundMagnitude_monotone. lia.
Qed.

Lemma roundMagnitude_pos (a : Z) : 0 < a -> 0 < JS.roundMagnitude a.
Proof.
  intros Ha. assert (1 <= JS.roundMagnitude a); [|lia].
  rewrite <- (roundMagnitude_small (a := 1)) at 1 by reflexivity.
  apply roundMagnitude_monotone. lia.
Qed.

Lemma round_opp (z : Z) : JS.round (- z) = - JS.round z.
Proof. unfold JS.round. rewrite Z.sgn_opp, Z.abs_opp. lia. Qed.

Lemma round_nonneg_eq (z : Z) : 0 <= z -> JS.round z = JS.roundMagnitude z.
Proof.
  intros H. unfold JS.round. rewrite Z.abs_eq by exact H.
  destruct (Z.eq_dec z 0) as [->|N]; [reflexivity|].
  rewrite Z.sgn_pos by lia. lia.
Qed.

Lemma round_neg_eq (z : Z) : z <= 0 -> JS.round z = - JS.roundMagnitude (- z).
Proof.
  intros H. unfold JS.round. rewrite Z.abs_neq by exact H.
  destruct (Z.eq_dec z 0) as [->|N]; [reflexivity|].
  rewrite Z.sgn_neg by lia. lia.
Qed.

Lemma round_monotone (x y : Z) : x <= y -> JS.round x <= JS.round y.
Proof.
  intros H. destruct (Z.le_gt_cases 0 x) as [Hx|Hx].
  - rewrite !round_nonneg_eq by lia. apply roundMagnitude_monotone. lia.
  - rewrite (@round_neg_eq x) by lia.
    destruct (Z.le_gt_cases 0 y) as [Hy|Hy].
    + rewrite (round_nonneg_eq Hy).
      pose proof (roundMagnitude_nonneg Hy). pose proof (@roundMagnitude_nonneg (- x)). lia.
    + rewrite (@round_neg_eq y) by lia.
      pose proof (@roundMagnitude_monotone (- y) (- x)). lia.
Qed.

Lemma round_safe (z : Z) : Z.abs z <= 2 ^ 53 -> JS.round z = z.
Proof.
  assert (P : forall a, 0 <= a <= 2 ^ 53 -> JS.roundMagnitude a = a).
  { intros a [Ha Hb].
    destruct (Z.eq_dec a (2 ^ 53)) as [->|N]; [reflexivity|].
    apply roundMagnitude_small. lia. }
  intros H. destruct (Z.le_gt_cases 0 z) as [Hz|Hz].
  - rewrite round_nonneg_eq by exact Hz. apply P. lia.
  - rewrite round_neg_eq by lia. rewrite P; lia.
Qed.

Lemma round_sign (z : Z) :
  (0 < JS.round z <-> 0 < z) /\ (JS.round z < 0 <-> z < 0) /\ (JS.round z = 0 <-> z = 0).
Proof.
  assert (R0 : JS.round 0 = 0) by reflexivity.
  assert (R1 : JS.round 1 = 1) by reflexivity.
  assert (Rm1 : JS.round (-1) = -1) by reflexivity.
  destruct (Z.lt_trichotomy z 0) as [H|[->|H]].
  - pose proof (@round_monotone z (-1)). lia.
  - lia.
  - pose proof (@round_monotone 1 z). lia.
Qed.

Lemma roundMagnitude_idempotent (a : Z) :
  0 <= a -> JS.roundMagnitude (JS.roundMagnitude a) = JS.roundMagnitude a.
Proof.
  intros Ha. destruct (Z.lt_ge_cases a (2 ^ 53)) as [S|B].
  - rewrite (roundMagnitude_small S). exact (roundMagnitude_small S).
  - destruct (roundMagnitude_grid B) as (e & q & r & He & Ea & Hr & Hq & Hl & Hcase).
    assert (Hpos : 0 < 2 ^ e) by (apply Z.pow_pos_nonneg; lia).
    assert (G : forall k, 2 ^ 52 <= k <= 2 ^ 53 -> JS.roundMagnitude (k * 2 ^ e) = k * 2 ^ e).
    { intros k Hk.
      assert (Bk : 2 ^ 53 <= k * 2 ^ e).
      { assert (2 <= 2 ^ e) by (change 2 with (2 ^ 1) at 1; apply Z.pow_le_mono_r; lia).
        change (2 ^ 53) with (2 ^ 52 * 2). nia. }
      destruct (roundMagnitude_grid Bk) as (e' & q' & r' & He' & Ek & Hr' & Hq' & Hl' & Hc').
      assert (Hpos' : 0 < 2 ^ e') by (apply Z.pow_pos_nonneg; lia).
      destruct (Z.eq_dec k (2 ^ 53)) as [->|Nk].
      - assert (El : Z.log2 (2 ^ 53 * 2 ^ e) = 53 + e).
        { rewrite <- Z.pow_add_r by lia. apply Z.log2_pow2. lia. }
        assert (e' = e + 1) by lia. subst e'.
        rewrite Z.pow_add_r in * by lia. change (2 ^ 1) with 2 in *.
        change (2 ^ 53) with (2 ^ 52 * 2) in *.
        assert (r' = 0) by (destruct (Z.lt_trichotomy (2 ^ 52) q') as [T|[T|T]]; nia). subst r'.
        destruct Hc' as [[C ->]|[[C ->]|[(C & Ev & ->)|(C & Ev & ->)]]]; nia.
      - assert (El : Z.log2 (k * 2 ^ e) = 52 + e).
        { apply Z.log2_unique; [lia|]. replace (Z.succ (52 + e)) with (53 + e) by lia.
          rewrite !Z.pow_add_r by lia. nia. }
        assert (e' = e) by lia. subst e'.
        assert (r' = 0) by (destruct (Z.lt_trichotomy k q') as [T|[T|T]]; nia). subst r'.
        destruct Hc' as [[C ->]|[[C ->]|[(C & Ev & ->)|(C & Ev & ->)]]]; nia. }
    destruct Hcase as [[_ ->]|[[_ ->]|[(_ & _ & ->)|(_ & _ & ->)]]]; apply G; lia.
Qed.

Lemma round_idempotent (z : Z) : JS.round (JS.round z) = JS.round z.
Proof.
  destruct (Z.le_gt_cases 0 z) as [Hz|Hz].
  - rewrite (round_nonneg_eq Hz).
    rewrite round_nonneg_eq by now apply roundMagnitude_nonneg.
    now apply roundMagnitude_idempotent.
  - rewrite (@round_neg_eq z) by lia.
    rewrite round_opp, round_nonneg_eq by (apply roundMagnitude_nonneg; lia).
    rewrite roundMagnitude_idempotent by lia. reflexivity.
Qed.

(** ** Doubles and exact results *)

Lemma isDouble_spec (z : Z) :
  JS.isDouble z = true <-> JS.round z = z /\ Z.abs z <= JS.MAX_VALUE.
Proof.
  unfold JS.isDouble. rewrite andb_true_iff, Z.eqb_eq, Z.leb_le. reflexivity.
Qed.

Lemma isDouble_safe (z : Z) : Z.abs z <= 2 ^ 53 -> JS.isDouble z = true.
Proof.
  intros H. apply isDouble_spec. split; [now apply round_safe|].
  assert (B : 2 ^ 53 <= JS.MAX_VALUE) by (apply Z.leb_le; vm_compute; reflexivity).
  lia.
Qed.

Lemma add_exact (x y : Z) : JS.isDouble (x + y) = true -> JS.add x y = x + y.
Proof. intros H. apply isDouble_spec in H. exact (proj1 H). Qed.

Lemma subtract_exact (x y : Z) : JS.isDouble (x - y) = true -> JS.subtract x y = x - y.
Proof. intros H. apply isDouble_spec in H. exact (proj1 H). Qed.

Lemma add_monotone (x y x' y' : Z) : x <= x' -> y <= y' -> JS.add x y <= JS.add x' y'.
Proof. intros H1 H2. apply round_monotone. lia. Qed.

Lemma add_nonnegative (x y : Z) : 0 <= x -> 0 <= y -> 0 <= JS.add x y.
Proof. intros H1 H2. change 0 with (JS.round 0) at 1. apply round_monotone. lia. Qed.

(** Adding a non-negative amount to a double does not lower it. *)
Lemma add_not_below (x y : Z) : JS.round x = x -> 0 <= y -> x <= JS.add x y.
Proof. intros E H. rewrite <- E at 1. apply round_monotone. lia. Qed.



Lemma subtract_negative (a b : Z) : (JS.subtract a b <? 0) = (a - b <? 0).
Proof.
  unfold JS.subtract. destruct (round_sign (a - b)) as (_ & N & _).
  destruct (Z.ltb_spec (a - b) 0), (Z.ltb_spec (JS.round (a - b)) 0); try reflexivity; lia.
Qed.

(** What a number input holds is a double. *)
Lemma valueAsNumber_double (input : option Z) (value : Z) :
  Form.valueAsNumber input = Some value -> JS.isDouble value = true.
Proof.
  unfold Form.valueAsNumber. destruct input as [text|]; [|discriminate].
  destruct (JS.isDouble (JS.parseFloat text)) eqn:D; [|discriminate].
  now intros [= <-].
Qed.

Lemma valueAsNumber_sign (text value : Z) :
  Form.valueAsNumber (Some text) = Some value -> (0 <= value <-> 0 <= text).
Proof.
  unfold Form.valueAsNumber, JS.parseFloat.
  destruct (JS.isDouble (JS.round text)); [|discriminate]. intros [= <-].
  destruct (round_sign text) as (P & N & Z0). lia.
Qed.

Lemma valueAsNumber_safe (text : Z) :
  Z.abs text <= 2 ^ 53 -> Form.valueAsNumber (Some text) = Some text.
Proof.
  intros H. unfold Form.valueAsNumber, JS.parseFloat.
  rewrite (round_safe _ H). now rewrite (isDouble_safe _ H).
Qed.

(** ** Sums *)

Lemma fold_add_exact (l : list Z) (acc : Z) :
  Forall (fun sum => JS.isDouble sum = true) (runningSums acc l) ->
  fold_left JS.add l acc = acc + sumZ l.
Proof.
  revert acc. induction l as [|x l IH]; intros acc H; simpl in *.
  - lia.
  - inversion H as [|? ? Hx Hl]; subst.
    rewrite (add_exact _ _ Hx), (IH _ Hl). lia.
Qed.

Lemma fold_add_map_exact {A : Type} (f : A -> Z) (l : list A) (acc : Z) :
  Forall (fun sum => JS.isDouble sum = true) (runningSums acc (map f l)) ->
  fold_left (fun acc curr => JS.add acc (f curr)) l acc = acc + sumZ (map f l).
Proof.
  revert acc. induction l as [|x l IH]; intros acc H; simpl in *.
  - lia.
  - inversion H as [|? ? Hx Hl]; subst.
    rewrite (add_exact _ _ Hx), (IH _ Hl). lia.
Qed.

Lemma sumZ_nonnegative (l : list Z) : Forall (fun x => 0 <= x) l -> 0 <= sumZ l.
Proof. induction 1 as [|x l Hx _ IH]; simpl; lia. Qed.

(** Non-negative amounts whose sum stays within 2^53 are summed exactly. *)
Lemma runningSums_safe (l : list Z) (acc : Z) :
  0 <= acc ->
  Forall (fun x => 0 <= x) l ->
  acc + sumZ l <= 2 ^ 53 ->
  Forall (fun sum => JS.isDouble sum = true) (runningSums acc l).
Proof.
  intros Ha H. revert acc Ha. induction H as [|x l Hx Hl IH]; intros acc Ha B; simpl in *.
  - constructor.
  - pose proof (sumZ_nonnegative Hl). constructor.
    + apply isDouble_safe. lia.
    + apply IH; lia.
Qed.

Lemma summed_exactly_safe (l : list Z) :
  Forall (fun x => 0 <= x) l -> sumZ l <= 2 ^ 53 -> summed_exactly l.
Proof. intros H B. apply runningSums_safe; [lia | exact H | lia]. Qed.

(** ** Lists of records addressed by [id] *)

Section ById.
Context {R : Type}.
Variable id : R -> string.

Lemma existsb_id_present (x : string) (l : list R) :
  existsb (fun r => String.eqb (id r) x) l = true <-> exists r, In r l /\ id r = x.
Proof.
  rewrite existsb_exists. split; intros (r & Hr & E); exists r; split; auto;
    now apply String.eqb_eq.
Qed.

Lemma map_replace_absent (x : string) (d : R) (l : list R) :
  absent id x l -> map (fun r => if String.eqb (id r) x then d else r) l = l.
Proof.
  unfold absent. induction l as [|a l IH]; simpl; intros H; [reflexivity|].
  rewrite IH by (intros r Hr; apply H; now right).
  destruct (String.eqb_spec (id a) x) as [E|_]; [|reflexivity].
  exfalso. apply (H a); [now left | exact E].
Qed.

Lemma filter_remove_absent (x : string) (l : list R) :
  absent id x l -> filter (fun r => negb (String.eqb (id r) x)) l = l.
Proof.
  unfold absent. induction l as [|a l IH]; simpl; intros H; [reflexivity|].
  rewrite IH by (intros r Hr; apply H; now right).
  destruct (String.eqb_spec (id a) x) as [E|_]; [|reflexivity].
  exfalso. apply (H a); [now left | exact E].
Qed.

Lemma filter_remove_makes_absent (x : string) (l : list R) :
  absent id x (filter (fun r => negb (String.eqb (id r) x)) l).
Proof.
  intros r Hr. apply filter_In in Hr. destruct Hr as [_ Hr].
  apply negb_true_iff in Hr. now apply String.eqb_neq.
Qed.

Lemma insert_if_absent_present (d : R) (current : list R) :
  (exists r, In r current /\ id r = id d) -> insert_if_absent id d current = current.
Proof.
  intros H. unfold insert_if_absent.
  now rewrite (proj2 (existsb_id_present (id d) current) H).
Qed.

Lemma insert_if_absent_twice (d : R) (current : list R) :
  insert_if_absent id d (insert_if_absent id d current) = insert_if_absent id d current.
Proof.
  apply insert_if_absent_present. unfold insert_if_absent.
  destruct (existsb _ current) eqn:E.
  - now apply existsb_id_present.
  - exists d. split; [apply in_or_app; right; now left | reflexivity].
Qed.

End ById.

(** ** State updates that change nothing *)

Lemma Local_setReceivables_same f (s : Local.State) :
  f (Local.receivables s) = Local.receivables s -> Local.setReceivables f s = s.
Proof. destruct s; unfold Local.setReceivables; simpl; intros ->; reflexivity. Qed.

Lemma Local_setRevenues_same f (s : Local.State) :
  f (Local.revenues s) = Local.revenues s -> Local.setRevenues f s = s.
Proof. destruct s; unfold Local.setRevenues; simpl; intros ->; reflexivity. Qed.

Lemma Remote_setReceivables_same f (s : Remote.State) :
  f (Remote.receivables s) = Remote.receivables s -> Remote.setReceivables f s = s.
Proof. destruct s; unfold Remote.setReceivables; simpl; intros ->; reflexivity. Qed.

Lemma Remote_setRevenues_same f (s : Remote.State) :
  f (Remote.revenues s) = Remote.revenues s -> Remote.setRevenues f s = s.
Proof. destruct s; unfold Remote.setRevenues; simpl; intros ->; reflexivity. Qed.

Lemma Remote_setReceivables_twice f (s : Remote.State) :
  f (f (Remote.receivables s)) = f (Remote.receivables s) ->
  Remote.setReceivables f (Remote.setReceivables f s) = Remote.setReceivables f s.
Proof. destruct s; unfold Remote.setReceivables; simpl; intros ->; reflexivity. Qed.

Lemma Remote_setRevenues_twice f (s : Remote.State) :
  f (f (Remote.revenues s)) = f (Remote.revenues s) ->
  Remote.setRevenues f (Remote.setRevenues f s) = Remote.setRevenues f s.
Proof. destruct s; unfold Remote.setRevenues; simpl; intros ->; reflexivity. Qed.

(** ** Lists *)

Lemma Forall2_map_in {A B : Type} (P : A -> B -> Prop) (f : A -> B) (l : list A) :
  (forall x, In x l -> P x (f x)) -> Forall2 P l (map f l).
Proof.
  induction l as [|a l IH]; simpl; intros H; constructor.
  - apply H. now left.
  - apply IH. intros x Hx. apply H. now right.
Qed.

Lemma NoDup_map_injective_in {A B : Type} (f : A -> B) (l : list A) (x y : A) :
  NoDup (map f l) -> In x l -> In y l -> f x = f y -> x = y.
Proof.
  induction l as [|a l IH]; simpl; intros ND Hx Hy E; [contradiction|].
  inversion ND as [|? ? Hnot ND']; subst.
  destruct Hx as [<-|Hx], Hy as [<-|Hy]; auto.
  - exfalso. apply Hnot. rewrite E. now apply in_map.
  - exfalso. apply Hnot. rewrite <- E. now apply in_map.
Qed.

Lemma Forall2_compose {A : Type} (P : A -> A -> Prop) (l1 l2 l3 : list A) :
  (forall x y z, P x y -> P y z -> P x z) ->
  Forall2 P l1 l2 -> Forall2 P l2 l3 -> Forall2 P l1 l3.
Proof.
  intros T H. revert l3. induction H as [|x y l1 l2 Hxy _ IH]; intros l3 H3.
  - inversion H3. constructor.
  - inversion H3 as [|? z ? l3' Hyz H3']; subst. constructor; eauto.
Qed.

Lemma Forall2_same {A : Type} (P : A -> A -> Prop) (l : list A) :
  (forall x, P x x) -> Forall2 P l l.
Proof. intros H. induction l; constructor; auto. Qed.

(** ** Stages of a receivable *)

Lemma Local_steady_refl r : Local_steady r r.
Proof. unfold Local_steady. intuition lia. Qed.

Lemma Local_steady_trans r1 r2 r3 :
  Local_steady r1 r2 -> Local_steady r2 r3 -> Local_steady r1 r3.
Proof.
  unfold Local_steady. intros (I1 & T1 & P1) (I2 & T2 & P2).
  split; [congruence|]. split; [congruence|]. intros D1 D2 H0.
  destruct (P1 D1 D2 H0) as (D & L & U).
  rewrite <- T1 in D1.
  destruct (P2 D1 D U) as (D' & L' & U'). split; [exact D'|]. lia.
Qed.

Lemma Remote_steady_refl r : Remote_steady r r.
Proof. unfold Remote_steady. intuition lia. Qed.

Lemma Remote_steady_trans r1 r2 r3 :
  Remote_steady r1 r2 -> Remote_steady r2 r3 -> Remote_steady r1 r3.
Proof.
  unfold Remote_steady. intros (I1 & T1 & P1) (I2 & T2 & P2).
  split; [congruence|]. split; [congruence|]. intros D1 D2 H0.
  destruct (P1 D1 D2 H0) as (D & L & U).
  rewrite <- T1 in D1.
  destruct (P2 D1 D U) as (D' & L' & U'). split; [exact D'|]. lia.
Qed.

(** The paid amount after a payment of a non-negative amount is a double,
    and when the paid amount before was not above the total, it lies between
    that amount and the total. *)
Lemma payment_is_double (total paid amount : Z) :
  JS.isDouble total = true -> JS.isDouble paid = true -> 0 <= amount ->
  JS.isDouble (Z.min total (JS.add paid amount)) = true.
Proof.
  intros Dt Dp Ha.
  destruct (Z.min_spec total (JS.add paid amount)) as [[_ ->]|[C ->]]; [exact Dt|].
  apply isDouble_spec in Dp. destruct Dp as [Ep Bp].
  pose proof (add_not_below Ep Ha) as L.
  apply isDouble_spec in Dt. destruct Dt as [_ Bt].
  apply isDouble_spec. split; [apply round_idempotent | lia].
Qed.

Lemma payment_keeps_steady (total paid amount : Z) :
  JS.isDouble total = true -> JS.isDouble paid = true -> paid <= total -> 0 <= amount ->
  JS.isDouble (Z.min total (JS.add paid amount)) = true
  /\ paid <= Z.min total (JS.add paid amount)
  /\ Z.min total (JS.add paid amount) <= total.
Proof.
  intros Dt Dp H Ha. split; [now apply payment_is_double|].
  apply isDouble_spec in Dp. destruct Dp as [Ep _].
  pose proof (add_not_below Ep Ha) as L. lia.
Qed.

Lemma Remote_steady_ids l l' :
  Forall2 Remote_steady l l' -> map Remote.Receivable.id l' = map Remote.Receivable.id l.
Proof.
  induction 1 as [|x y l l' (I & _) _ IH]; simpl; [reflexivity|]. now rewrite I, IH.
Qed.

(** ** The sort

    For a comparator whose strict part is a strict weak order on the elements
    at hand, the sort returns a permutation that is ordered and keeps tied
    elements in their original order. *)

Section SortFacts.
Context {A : Type}.
Variable comparefn : A -> A -> option Z.
Variable ok : A -> Prop.

Let lt := JS.precedes comparefn.

Hypothesis lt_irrefl : forall x, ok x -> lt x x = false.
Hypothesis lt_trans :
  forall x y z, ok x -> ok y -> ok z -> lt x y = true -> lt y z = true -> lt x z = true.
Hypothesis lt_negtrans :
  forall x y z, ok x -> ok y -> ok z -> lt x y = false -> lt y z = false -> lt x z = false.

Lemma insert_permutation (x : A) (l : list A) :
  Permutation (x :: l) (JS.insert comparefn x l).
Proof.
  induction l as [|y l IH]; simpl; [reflexivity|].
  destruct (JS.precedes comparefn x y); [reflexivity|].
  rewrite perm_swap. now constructor.
Qed.

Lemma sort_from_permutation (l placed : list A) :
  Permutation (placed ++ l) (fold_left (fun placed x => JS.insert comparefn x placed) l placed).
Proof.
  revert placed. induction l as [|x l IH]; intros placed; simpl.
  - now rewrite app_nil_r.
  - rewrite <- IH. rewrite <- insert_permutation.
    rewrite <- Permutation_middle. reflexivity.
Qed.

Lemma sort_permutation (l : list A) : Permutation l (JS.sort comparefn l).
Proof. exact (sort_from_permutation l []). Qed.

Lemma insert_Forall (P : A -> Prop) (x : A) (l : list A) :
  P x -> Forall P l -> Forall P (JS.insert comparefn x l).
Proof.
  intros Hx Hl. eapply Permutation_Forall; [apply insert_permutation|]. now constructor.
Qed.

Lemma insert_ordered (x : A) (l : list A) :
  ok x -> Forall ok l ->
  StronglySorted (ordered_by comparefn) l ->
  StronglySorted (ordered_by comparefn) (JS.insert comparefn x l).
Proof.
  intros Hx Hok Hs. induction Hs as [|y l Hs IH Hy]; simpl.
  - constructor; constructor.
  - inversion Hok as [|? ? Hoky Hokl]; subst.
    destruct (JS.precedes comparefn x y) eqn:E.
    + constructor; [now constructor|]. constructor.
      * unfold ordered_by. fold lt.
        destruct (lt y x) eqn:F; [|reflexivity].
        rewrite <- (lt_irrefl Hx). symmetry. now apply (lt_trans Hx Hoky Hx).
      * rewrite Forall_forall in Hy, Hokl |- *. intros z Hz.
        unfold ordered_by. fold lt.
        destruct (lt z x) eqn:F; [|reflexivity].
        rewrite <- (Hy z Hz). symmetry. apply (lt_trans (Hokl z Hz) Hx Hoky F E).
    + constructor; [now apply IH|].
      apply insert_Forall; [exact E | exact Hy].
Qed.

Lemma insert_stable (k x : A) (l : list A) :
  ok k -> ok x -> Forall ok l ->
  StronglySorted (ordered_by comparefn) l ->
  filter (tied_by comparefn k) (JS.insert comparefn x l)
  = filter (tied_by comparefn k) (l ++ [x]).
Proof.
  intros Hk Hx Hok Hs. induction Hs as [|y l Hs IH Hy]; simpl; [reflexivity|].
  inversion Hok as [|? ? Hoky Hokl]; subst.
  destruct (JS.precedes comparefn x y) eqn:E.
  - (* [x] goes in front of [y :: l]: nothing there is tied with what [x] is tied with *)
    change (filter (tied_by comparefn k) ([x] ++ y :: l)
            = filter (tied_by comparefn k) ((y :: l) ++ [x])).
    rewrite !filter_app.
    destruct (tied_by comparefn k x) eqn:T.
    + assert (N : filter (tied_by comparefn k) (y :: l) = []).
      { assert (F : forall z, In z (y :: l) -> tied_by comparefn k z = false).
        { intros z Hz.
          assert (Hokz : ok z) by (rewrite Forall_forall in Hok; now apply Hok).
          assert (Hzy : lt z y = false).
          { destruct Hz as [<-|Hz]; [now apply lt_irrefl|].
            rewrite Forall_forall in Hy. exact (Hy z Hz). }
          assert (Hxz : lt x z = true).
          { destruct (lt x z) eqn:F; [reflexivity|].
            rewrite <- E. symmetry. fold lt. now apply (lt_negtrans Hx Hokz Hoky). }
          unfold tied_by in T |- *. fold lt in T |- *.
          apply andb_true_iff in T. destruct T as [T1 T2].
          apply negb_true_iff in T1, T2.
          destruct (lt k z) eqn:Kz; [reflexivity|].
          rewrite (lt_negtrans Hx Hk Hokz T2 Kz) in Hxz. discriminate. }
        clear - F. induction (y :: l) as [|z l' IH']; simpl; [reflexivity|].
        rewrite (F z) by now left. apply IH'. intros z' Hz'. apply F. now right. }
      rewrite N. simpl. rewrite T. reflexivity.
    + simpl. rewrite T. simpl. now rewrite app_nil_r.
  - simpl. rewrite (IH Hokl). reflexivity.
Qed.

Lemma sort_from_ordered (l placed : list A) :
  Forall ok placed -> Forall ok l ->
  StronglySorted (ordered_by comparefn) placed ->
  StronglySorted (ordered_by comparefn)
    (fold_left (fun placed x => JS.insert comparefn x placed) l placed)
  /\ forall k, ok k ->
       filter (tied_by comparefn k)
         (fold_left (fun placed x => JS.insert comparefn x placed) l placed)
       = filter (tied_by comparefn k) (placed ++ l).
Proof.
  revert placed. induction l as [|x l IH]; intros placed Hp Hl Hs; simpl.
  - split; [exact Hs | intros; now rewrite app_nil_r].
  - inversion Hl as [|? ? Hx Hl']; subst.
    destruct (IH (JS.insert comparefn x placed)) as [S T].
    + now apply insert_Forall.
    + exact Hl'.
    + now apply insert_ordered.
    + split; [exact S|]. intros k Hk. rewrite (T k Hk).
      rewrite filter_app, (insert_stable Hk Hx Hp Hs), <- filter_app, <- app_assoc.
      reflexivity.
Qed.

Lemma sort_ordered (l : list A) :
  Forall ok l -> StronglySorted (ordered_by comparefn) (JS.sort comparefn l).
Proof.
  intros H. apply (sort_from_ordered (placed := [])); auto; constructor.
Qed.

Lemma sort_stable (l : list A) (k : A) :
  Forall ok l -> ok k ->
  filter (tied_by comparefn k) (JS.sort comparefn l) = filter (tied_by comparefn k) l.
Proof.
  intros H Hk.
  exact (proj2 (sort_from_ordered (placed := []) (Forall_nil _) H (SSorted_nil _)) k Hk).
Qed.

(** The ordered permutation that keeps tied elements in their order is unique:
    whatever returns such a permutation returns what [JS.sort] returns. *)
Lemma ordered_stable_unique (s s' : list A) :
  Forall ok s ->
  Permutation s s' ->
  StronglySorted (ordered_by comparefn) s ->
  StronglySorted (ordered_by comparefn) s' ->
  (forall k, ok k -> filter (tied_by comparefn k) s = filter (tied_by comparefn k) s') ->
  s = s'.
Proof.
  intros Hok. revert s' Hok. induction s as [|x t IH]; intros s' Hok P S S' T.
  - apply Permutation_nil in P. now subst.
  - destruct s' as [|y t'].
    + apply Permutation_sym, Permutation_nil in P. discriminate.
    + inversion Hok as [|? ? Hx Ht]; subst.
      inversion S as [|? ? St Hmin]; subst. inversion S' as [|? ? St' Hmin']; subst.
      assert (Hy : ok y).
      { eapply Permutation_Forall in Hok; [|exact P]. now inversion Hok. }
      assert (Hxx : tied_by comparefn x x = true).
      { unfold tied_by. fold lt. now rewrite (lt_irrefl Hx). }
      assert (Hxy : tied_by comparefn x y = true).
      { unfold tied_by. fold lt. apply andb_true_iff. split; apply negb_true_iff.
        - assert (Hin : In x (y :: t')) by (eapply Permutation_in; [exact P | now left]).
          destruct Hin as [<-|Hin]; [now apply lt_irrefl|].
          rewrite Forall_forall in Hmin'. exact (Hmin' x Hin).
        - assert (Hin : In y (x :: t))
            by (eapply Permutation_in; [apply Permutation_sym; exact P | now left]).
          destruct Hin as [<-|Hin]; [now apply lt_irrefl|].
          rewrite Forall_forall in Hmin. exact (Hmin y Hin). }
      assert (E : x = y).
      { pose proof (T x Hx) as Tx. simpl in Tx. rewrite Hxx, Hxy in Tx. now inversion Tx. }
      subst y. f_equal. apply IH; auto.
      * now apply Permutation_cons_inv in P.
      * intros k Hk. pose proof (T k Hk) as Tk. simpl in Tk.
        destruct (tied_by comparefn k x); [now inversion Tk | exact Tk].
Qed.

Lemma sort_determined (l s' : list A) :
  Forall ok l ->
  Permutation l s' ->
  StronglySorted (ordered_by comparefn) s' ->
  (forall k, ok k -> filter (tied_by comparefn k) s' = filter (tied_by comparefn k) l) ->
  s' = JS.sort comparefn l.
Proof.
  intros Hok P S T. symmetry. apply ordered_stable_unique.
  - eapply Permutation_Forall; [apply sort_permutation | exact Hok].
  - rewrite <- P. apply Permutation_sym, sort_permutation.
  - now apply sort_ordered.
  - exact S.
  - intros k Hk. rewrite (T k Hk). now apply sort_stable.
Qed.

End SortFacts.

Lemma StronglySorted_weaken {A : Type} (R R' : A -> A -> Prop) (ok : A -> Prop) (l : list A) :
  (forall x y, ok x -> ok y -> R x y -> R' x y) ->
  Forall ok l -> StronglySorted R l -> StronglySorted R' l.
Proof.
  intros W Hok Hs. induction Hs as [|x l Hs IH Hx]; [constructor|].
  inversion Hok as [|? ? Hokx Hokl]; subst.
  constructor; [now apply IH|].
  rewrite Forall_forall in Hx, Hokl |- *. intros y Hy. apply W; auto.
Qed.

(** ** The comparators of [sortedReceivables] *)

Ltac close_order :=
  intros;
  repeat match goal with
    | H : (_ <? _) = true |- _ => apply Z.ltb_lt in H
    | H : (_ <? _) = false |- _ => apply Z.ltb_ge in H
    | H : (_ =? _) = true |- _ => apply Z.eqb_eq in H
    | H : (_ =? _) = false |- _ => apply Z.eqb_neq in H
    | |- (_ <? _) = true => apply Z.ltb_lt
    | |- (_ <? _) = false => apply Z.ltb_ge
    | |- (_ =? _) = true => apply Z.eqb_eq
    | |- (_ =? _) = false => apply Z.eqb_neq
    end;
  try discriminate; try reflexivity; try congruence; try lia.

Section ComparatorFacts.
Variable getTime : string -> option Z.













End ComparatorFacts.

Lemma filter_none {A : Type} (f : A -> bool) (l : list A) :
  (forall x, In x l -> f x = false) -> filter f l = [].
Proof.
  induction l as [|a l IH]; simpl; intros H; [reflexivity|].
  rewrite (H a) by now left. apply IH. intros x Hx. apply H. now right.
Qed.

(** ** More on lists of records addressed by [id] *)

Section ByIdMore.
Context {R : Type}.
Variable id : R -> string.

Lemma NoDup_ids_app_absent (l1 l2 : list R) (x : R) :
  NoDup (map id (l1 ++ x :: l2)) -> absent id (id x) l1 /\ absent id (id x) l2.
Proof.
  rewrite map_app. simpl. intros ND. apply NoDup_remove_2 in ND.
  split; intros r Hr E; apply ND; apply in_or_app; [left|right];
    rewrite <- E; now apply in_map.
Qed.

Lemma map_replace_at (l1 l2 : list R) (x d : R) :
  NoDup (map id (l1 ++ x :: l2)) ->
  map (fun r => if String.eqb (id r) (id x) then d else r) (l1 ++ x :: l2) = l1 ++ d :: l2.
Proof.
  intros ND. destruct (NoDup_ids_app_absent _ _ _ ND) as [A1 A2].
  rewrite map_app. simpl. rewrite String.eqb_refl.
  now rewrite (map_replace_absent d A1), (map_replace_absent d A2).
Qed.

Lemma filter_remove_at (l1 l2 : list R) (x : R) :
  NoDup (map id (l1 ++ x :: l2)) ->
  filter (fun r => negb (String.eqb (id r) (id x))) (l1 ++ x :: l2) = l1 ++ l2.
Proof.
  intros ND. destruct (NoDup_ids_app_absent _ _ _ ND) as [A1 A2].
  rewrite filter_app. simpl. rewrite String.eqb_refl. simpl.
  now rewrite (filter_remove_absent A1), (filter_remove_absent A2).
Qed.

Lemma filter_remove_appended (l : list R) (d : R) :
  absent id (id d) l ->
  filter (fun r => negb (String.eqb (id r) (id d))) (l ++ [d]) = l.
Proof.
  intros A. rewrite filter_app. simpl. rewrite String.eqb_refl. simpl.
  now rewrite (filter_remove_absent A), app_nil_r.
Qed.

Lemma map_replace_ids (d : R) (l : list R) :
  map id (map (fun r => if String.eqb (id r) (id d) then d else r) l) = map id l.
Proof.
  rewrite map_map. apply map_ext. intros r.
  destruct (String.eqb_spec (id r) (id d)) as [E|_]; [now rewrite E | reflexivity].
Qed.

Lemma NoDup_ids_filter (f : R -> bool) (l : list R) :
  NoDup (map id l) -> NoDup (map id (filter f l)).
Proof.
  induction l as [|a l IH]; simpl; intros ND; [constructor|].
  inversion ND as [|? ? Hnot ND']; subst.
  destruct (f a); simpl; [|now apply IH].
  constructor; [|now apply IH].
  intros Hin. apply Hnot. apply in_map_iff in Hin. destruct Hin as (r & E & Hr).
  apply filter_In in Hr. rewrite <- E. apply in_map. tauto.
Qed.

Lemma NoDup_ids_append (l : list R) (d : R) :
  absent id (id d) l -> NoDup (map id l) -> NoDup (map id (l ++ [d])).
Proof.
  intros A ND. rewrite map_app. simpl.
  apply NoDup_app; [exact ND | repeat constructor; intros [] | ].
  intros x Hx [<-|[]]. apply in_map_iff in Hx. destruct Hx as (r & E & Hr).
  exact (A r Hr E).
Qed.

Lemma NoDup_ids_insert_if_absent (l : list R) (d : R) :
  NoDup (map id l) -> NoDup (map id (insert_if_absent id d l)).
Proof.
  intros ND. unfold insert_if_absent.
  destruct (existsb _ l) eqn:E; [exact ND|].
  apply NoDup_ids_append; [|exact ND].
  intros r Hr Eid.
  assert (existsb (fun r => String.eqb (id r) (id d)) l = true)
    by (apply existsb_id_present; now exists r).
  congruence.
Qed.

End ByIdMore.

Lemma existsb_id_absent_false {R : Type} (id : R -> string) (x : string) (l : list R) :
  absent id x l -> existsb (fun r => String.eqb (id r) x) l = false.
Proof.
  intros A. destruct (existsb _ l) eqn:E; [|reflexivity].
  apply existsb_id_present in E. destruct E as (r & Hr & Er). now destruct (A r Hr).
Qed.

(** ** The comparators of [sortedRevenues] *)

Section RevenueComparatorFacts.
Variable getTime : string -> option Z.

Lemma Local_revenue_precedes_spec (a b : Local.Revenue.t) :
  Local_revenue_dated getTime a -> Local_revenue_dated getTime b ->
  JS.precedes (Local.compareRevenues getTime) a b
  = (time_of getTime (Local.Revenue.date b) <? time_of getTime (Local.Revenue.date a)).
Proof.
  unfold Local_revenue_dated, JS.precedes, JS.SortCompare, Local.compareRevenues, time_of.
  intros Ha Hb.
  destruct (getTime (Local.Revenue.date a)) as [ta|]; [|contradiction].
  destruct (getTime (Local.Revenue.date b)) as [tb|]; [|contradiction].
  simpl. rewrite subtract_negative.
  destruct (Z.ltb_spec tb ta); destruct (Z.ltb_spec (tb - ta) 0); close_order.
Qed.

Lemma Local_revenue_precedes_irrefl (x : Local.Revenue.t) :
  Local_revenue_dated getTime x -> JS.precedes (Local.compareRevenues getTime) x x = false.
Proof. intros Hx. rewrite (Local_revenue_precedes_spec Hx Hx). close_order. Qed.

Lemma Local_revenue_precedes_trans (x y z : Local.Revenue.t) :
  Local_revenue_dated getTime x -> Local_revenue_dated getTime y ->
  Local_revenue_dated getTime z ->
  JS.precedes (Local.compareRevenues getTime) x y = true ->
  JS.precedes (Local.compareRevenues getTime) y z = true ->
  JS.precedes (Local.compareRevenues getTime) x z = true.
Proof.
  intros Hx Hy Hz.
  rewrite (Local_revenue_precedes_spec Hx Hy), (Local_revenue_precedes_spec Hy Hz),
    (Local_revenue_precedes_spec Hx Hz).
  close_order.
Qed.

Lemma Local_revenue_precedes_negtrans (x y z : Local.Revenue.t) :
  Local_revenue_dated getTime x -> Local_revenue_dated getTime y ->
  Local_revenue_dated getTime z ->
  JS.precedes (Local.compareRevenues getTime) x y = false ->
  JS.precedes (Local.compareRevenues getTime) y z = false ->
  JS.precedes (Local.compareRevenues getTime) x z = false.
Proof.
  intros Hx Hy Hz.
  rewrite (Local_revenue_precedes_spec Hx Hy), (Local_revenue_precedes_spec Hy Hz),
    (Local_revenue_precedes_spec Hx Hz).
  close_order.
Qed.

Lemma Local_revenue_ordered_in_order (a b : Local.Revenue.t) :
  Local_revenue_dated getTime a -> Local_revenue_dated getTime b ->
  ordered_by (Local.compareRevenues getTime) a b -> Local_revenue_in_order getTime a b.
Proof.
  intros Ha Hb. unfold ordered_by, Local_revenue_in_order.
  rewrite (Local_revenue_precedes_spec Hb Ha). close_order.
Qed.

Lemma Local_revenue_tied_same_key (k x : Local.Revenue.t) :
  Local_revenue_dated getTime k -> Local_revenue_dated getTime x ->
  Local_revenue_same_key getTime k x = tied_by (Local.compareRevenues getTime) k x.
Proof.
  intros Hk Hx. unfold tied_by, Local_revenue_same_key.
  rewrite (Local_revenue_precedes_spec Hk Hx), (Local_revenue_precedes_spec Hx Hk).
  destruct (Z.eqb_spec (time_of getTime (Local.Revenue.date k))
                       (time_of getTime (Local.Revenue.date x)));
    destruct (Z.ltb_spec (time_of getTime (Local.Revenue.date k))
                         (time_of getTime (Local.Revenue.date x)));
    destruct (Z.ltb_spec (time_of getTime (Local.Revenue.date x))
                         (time_of getTime (Local.Revenue.date k)));
    simpl; close_order.
Qed.

Lemma Remote_revenue_precedes_spec (a b : Remote.Revenue.t) :
  Remote_revenue_missing_or_dated getTime a -> Remote_revenue_missing_or_dated getTime b ->
  JS.precedes (Remote.compareRevenues getTime) a b
  = negb (JS.falsy (Remote.Revenue.date a))
    && (JS.falsy (Remote.Revenue.date b)
        || (time_of getTime (Remote.Revenue.date b)
            <? time_of getTime (Remote.Revenue.date a))).
Proof.
  unfold Remote_revenue_missing_or_dated, JS.precedes, JS.SortCompare,
    Remote.compareRevenues, time_of, JS.falsy.
  intros Ha Hb.
  destruct (String.eqb_spec (Remote.Revenue.date a) EmptyString) as [Ea|Ea];
    [reflexivity|].
  destruct (String.eqb_spec (Remote.Revenue.date b) EmptyString) as [Eb|Eb];
    [reflexivity|].
  destruct Ha as [Ha|Ha]; [contradiction|]. destruct Hb as [Hb|Hb]; [contradiction|].
  destruct (getTime (Remote.Revenue.date a)) as [ta|]; [|contradiction].
  destruct (getTime (Remote.Revenue.date b)) as [tb|]; [|contradiction].
  simpl. rewrite subtract_negative.
  destruct (Z.ltb_spec tb ta); destruct (Z.ltb_spec (tb - ta) 0); close_order.
Qed.

Lemma Remote_revenue_precedes_irrefl (x : Remote.Revenue.t) :
  Remote_revenue_missing_or_dated getTime x ->
  JS.precedes (Remote.compareRevenues getTime) x x = false.
Proof.
  intros Hx. rewrite (Remote_revenue_precedes_spec Hx Hx).
  destruct (JS.falsy (Remote.Revenue.date x)); simpl; close_order.
Qed.

Lemma Remote_revenue_precedes_trans (x y z : Remote.Revenue.t) :
  Remote_revenue_missing_or_dated getTime x -> Remote_revenue_missing_or_dated getTime y ->
  Remote_revenue_missing_or_dated getTime z ->
  JS.precedes (Remote.compareRevenues getTime) x y = true ->
  JS.precedes (Remote.compareRevenues getTime) y z = true ->
  JS.precedes (Remote.compareRevenues getTime) x z = true.
Proof.
  intros Hx Hy Hz.
  rewrite (Remote_revenue_precedes_spec Hx Hy), (Remote_revenue_precedes_spec Hy Hz),
    (Remote_revenue_precedes_spec Hx Hz).
  destruct (JS.falsy (Remote.Revenue.date x)), (JS.falsy (Remote.Revenue.date y)),
    (JS.falsy (Remote.Revenue.date z)); simpl; close_order.
Qed.

Lemma Remote_revenue_precedes_negtrans (x y z : Remote.Revenue.t) :
  Remote_revenue_missing_or_dated getTime x -> Remote_revenue_missing_or_dated getTime y ->
  Remote_revenue_missing_or_dated getTime z ->
  JS.precedes (Remote.compareRevenues getTime) x y = false ->
  JS.precedes (Remote.compareRevenues getTime) y z = false ->
  JS.precedes (Remote.compareRevenues getTime) x z = false.
Proof.
  intros Hx Hy Hz.
  rewrite (Remote_revenue_precedes_spec Hx Hy), (Remote_revenue_precedes_spec Hy Hz),
    (Remote_revenue_precedes_spec Hx Hz).
  destruct (JS.falsy (Remote.Revenue.date x)), (JS.falsy (Remote.Revenue.date y)),
    (JS.falsy (Remote.Revenue.date z)); simpl; close_order.
Qed.

Lemma Remote_revenue_ordered_in_order (a b : Remote.Revenue.t) :
  Remote_revenue_missing_or_dated getTime a -> Remote_revenue_missing_or_dated getTime b ->
  ordered_by (Remote.compareRevenues getTime) a b -> Remote_revenue_in_order getTime a b.
Proof.
  intros Ha Hb. unfold ordered_by, Remote_revenue_in_order.
  rewrite (Remote_revenue_precedes_spec Hb Ha). unfold JS.falsy.
  destruct (String.eqb_spec (Remote.Revenue.date a) EmptyString),
    (String.eqb_spec (Remote.Revenue.date b) EmptyString);
    simpl; intros Hord; split; intros; close_order.
Qed.

Lemma Remote_revenue_tied_same_key (k x : Remote.Revenue.t) :
  Remote_revenue_missing_or_dated getTime k -> Remote_revenue_missing_or_dated getTime x ->
  Remote_revenue_same_key getTime k x
  = negb (JS.falsy (Remote.Revenue.date k))
    && tied_by (Remote.compareRevenues getTime) k x.
Proof.
  intros Hk Hx. unfold tied_by, Remote_revenue_same_key.
  rewrite (Remote_revenue_precedes_spec Hk Hx), (Remote_revenue_precedes_spec Hx Hk).
  destruct (JS.falsy (Remote.Revenue.date k)), (JS.falsy (Remote.Revenue.date x));
    simpl; try reflexivity;
    destruct (Z.eqb_spec (time_of getTime (Remote.Revenue.date k))
                         (time_of getTime (Remote.Revenue.date x)));
    destruct (Z.ltb_spec (time_of getTime (Remote.Revenue.date k))
                         (time_of getTime (Remote.Revenue.date x)));
    destruct (Z.ltb_spec (time_of getTime (Remote.Revenue.date x))
                         (time_of getTime (Remote.Revenue.date k)));
    simpl; close_order.
Qed.

End RevenueComparatorFacts.

(** ** Sums *)

Lemma sumZ_permutation {A : Type} (f : A -> Z) (l l' : list A) :
  Permutation l l' -> sumZ (map f l) = sumZ (map f l').
Proof.
  induction 1 as [| x l l' _ IH | x y l | l l' l'' _ IH1 _ IH2]; simpl; lia.
Qed.

Lemma sumZ_map_app {A : Type} (f : A -> Z) (l1 l2 : list A) :
  sumZ (map f (l1 ++ l2)) = sumZ (map f l1) + sumZ (map f l2).
Proof. induction l1 as [|x l1 IH]; simpl; lia. Qed.

Lemma map_replace_ids_at {R : Type} (id : R -> string) (x : string) (d : R) (l : list R) :
  id d = x ->
  map id (map (fun r => if String.eqb (id r) x then d else r) l) = map id l.
Proof. intros <-. apply map_replace_ids. Qed.

Lemma map_ids_kept {R : Type} (id : R -> string) (f : R -> R) (l : list R) :
  (forall r, id (f r) = id r) -> map id (map f l) = map id l.
Proof. intros H. rewrite map_map. now apply map_ext. Qed.

Lemma Forall_kept_by_filter {A : Type} (P : A -> Prop) (f : A -> bool) (l : list A) :
  Forall P l -> Forall P (filter f l).
Proof.
  rewrite !Forall_forall. intros H x Hx. apply filter_In in Hx. now apply H.
Qed.

Lemma Forall_kept_by_map {A : Type} (P : A -> Prop) (f : A -> A) (l : list A) :
  (forall x, P x -> P (f x)) -> Forall P l -> Forall P (map f l).
Proof. intros H F. induction F; simpl; constructor; auto. Qed.

Lemma sumZ_bounds {A : Type} (f g : A -> Z) (l : list A) :
  Forall (fun x => f x <= g x) l -> sumZ (map f l) <= sumZ (map g l).
Proof. induction 1; simpl; lia. Qed.

Lemma sumZ_map_nonnegative {A : Type} (f : A -> Z) (l : list A) :
  Forall (fun x => 0 <= f x) l -> 0 <= sumZ (map f l).
Proof. induction 1; simpl; lia. Qed.

Lemma sumZ_member {A : Type} (f : A -> Z) (l : list A) (x : A) :
  Forall (fun x => 0 <= f x) l -> In x l -> f x <= sumZ (map f l).
Proof.
  induction 1 as [|y l Hy Hl IH]; simpl; [contradiction|].
  pose proof (sumZ_map_nonnegative f Hl). intros [<-|Hx]; [lia|]. specialize (IH Hx). lia.
Qed.

(** A sum of non-negative amounts that stays within 2^53 is reached without
    rounding, whatever the order of the amounts. *)
Lemma summed_exactly_map {A : Type} (f : A -> Z) (l : list A) :
  Forall (fun x => 0 <= f x) l -> sumZ (map f l) <= 2 ^ 53 -> summed_exactly (map f l).
Proof.
  intros H B. apply summed_exactly_safe; [|exact B].
  apply Forall_map. exact H.
Qed.


(** ** Summaries (C8) *)

Lemma Local_summary_fold (l : list Local.Receivable.t) (acc : Local.Summary.t) :
  Forall (fun r => JS.isDouble (Local_remaining r) = true) l ->
  Forall (fun sum => JS.isDouble sum = true)
    (runningSums (Local.Summary.total acc) (map Local.Receivable.totalAmount l)) ->
  Forall (fun sum => JS.isDouble sum = true)
    (runningSums (Local.Summary.remaining acc) (map Local_remaining l)) ->
  fold_left
    (fun acc curr =>
       Local.Summary.mk
         (JS.add (Local.Summary.total acc) (Local.Receivable.totalAmount curr))
         (JS.add (Local.Summary.remaining acc)
                 (JS.subtract (Local.Receivable.totalAmount curr)
                              (Local.Receivable.paidAmount curr))))
    l acc
  = Local.Summary.mk
      (Local.Summary.total acc + sumZ (map Local.Receivable.totalAmount l))
      (Local.Summary.remaining acc + sumZ (map Local_remaining l)).
Proof.
  revert acc. induction l as [|r l IH]; intros acc D T R; simpl in *.
  - destruct acc; simpl. f_equal; lia.
  - inversion D as [|? ? Dr Dl]; subst. inversion T as [|? ? Tr Tl]; subst.
    inversion R as [|? ? Rr Rl]; subst. unfold Local_remaining in Dr, Rr.
    rewrite IH; simpl.
    + rewrite (subtract_exact _ _ Dr), (add_exact _ _ Tr), (add_exact _ _ Rr).
      unfold Local_remaining. f_equal; lia.
    + exact Dl.
    + now rewrite (add_exact _ _ Tr).
    + rewrite (subtract_exact _ _ Dr). now rewrite (add_exact _ _ Rr).
Qed.

Lemma Remote_summary_fold (l : list Remote.Receivable.t) (acc : Remote.Summary.t) :
  Forall (fun r => JS.isDouble (Remote_remaining r) = true) l ->
  Forall (fun sum => JS.isDouble sum = true)
    (runningSums (Remote.Summary.total acc) (map Remote.Receivable.total_amount l)) ->
  Forall (fun sum => JS.isDouble sum = true)
    (runningSums (Remote.Summary.remaining acc) (map Remote_remaining l)) ->
  fold_left
    (fun acc curr =>
       Remote.Summary.mk
         (JS.add (Remote.Summary.total acc) (Remote.Receivable.total_amount curr))
         (JS.add (Remote.Summary.remaining acc)
                 (JS.subtract (Remote.Receivable.total_amount curr)
                              (Remote.Receivable.paid_amount curr))))
    l acc
  = Remote.Summary.mk
      (Remote.Summary.total acc + sumZ (map Remote.Receivable.total_amount l))
      (Remote.Summary.remaining acc + sumZ (map Remote_remaining l)).
Proof.
  revert acc. induction l as [|r l IH]; intros acc D T R; simpl in *.
  - destruct acc; simpl. f_equal; lia.
  - inversion D as [|? ? Dr Dl]; subst. inversion T as [|? ? Tr Tl]; subst.
    inversion R as [|? ? Rr Rl]; subst. unfold Remote_remaining in Dr, Rr.
    rewrite IH; simpl.
    + rewrite (subtract_exact _ _ Dr), (add_exact _ _ Tr), (add_exact _ _ Rr).
      unfold Remote_remaining. f_equal; lia.
    + exact Dl.
    + now rewrite (add_exact _ _ Tr).
    + rewrite (subtract_exact _ _ Dr). now rewrite (add_exact _ _ Rr).
Qed.

Lemma Local_receivablesSummary_as_sums (l : list Local.Receivable.t) :
  Forall (fun r => JS.isDouble (Local_remaining r) = true) l ->
  summed_exactly (map Local.Receivable.totalAmount l) ->
  summed_exactly (map Local_remaining l) ->
  Local.receivablesSummary l
  = Local.Summary.mk (sumZ (map Local.Receivable.totalAmount l))
                     (sumZ (map Local_remaining l)).
Proof.
  intros D T R. unfold Local.receivablesSummary.
  now rewrite (Local_summary_fold (Local.Summary.mk 0 0) D T R).
Qed.

Lemma Remote_receivablesSummary_as_sums (l : list Remote.Receivable.t) :
  Forall (fun r => JS.isDouble (Remote_remaining r) = true) l ->
  summed_exactly (map Remote.Receivable.total_amount l) ->
  summed_exactly (map Remote_remaining l) ->
  Remote.receivablesSummary l
  = Remote.Summary.mk (sumZ (map Remote.Receivable.total_amount l))
                      (sumZ (map Remote_remaining l)).
Proof.
  intros D T R. unfold Remote.receivablesSummary.
  now rewrite (Remote_summary_fold (Remote.Summary.mk 0 0) D T R).
Qed.

(** Receivables with paid amounts between 0 and their totals, the totals
    adding up to 2^53 at most, are summed without rounding. *)
Lemma Local_safe_amounts (l : list Local.Receivable.t) :
  Forall (fun r => 0 <= Local.Receivable.paidAmount r <= Local.Receivable.totalAmount r) l ->
  sumZ (map Local.Receivable.totalAmount l) <= 2 ^ 53 ->
  Forall (fun r => JS.isDouble (Local_remaining r) = true) l
  /\ summed_exactly (map Local.Receivable.totalAmount l)
  /\ summed_exactly (map Local_remaining l).
Proof.
  intros H B.
  assert (Ht : Forall (fun r => 0 <= Local.Receivable.totalAmount r) l)
    by (eapply Forall_impl; [|exact H]; simpl; intros r Hr; lia).
  assert (Hr : Forall (fun r => 0 <= Local_remaining r) l)
    by (eapply Forall_impl; [|exact H]; unfold Local_remaining; simpl; intros r Hr; lia).
  assert (Le : sumZ (map Local_remaining l) <= sumZ (map Local.Receivable.totalAmount l)).
  { apply sumZ_bounds. eapply Forall_impl; [|exact H].
    unfold Local_remaining. simpl. intros r Hr'. lia. }
  split; [|split].
  - apply Forall_forall. intros r Hin. apply isDouble_safe.
    pose proof (@sumZ_member _ Local_remaining l r Hr Hin) as M.
    rewrite Forall_forall in Hr. specialize (Hr r Hin). lia.
  - now apply summed_exactly_map.
  - apply summed_exactly_map; [exact Hr | lia].
Qed.

Lemma Remote_safe_amounts (l : list Remote.Receivable.t) :
  Forall (fun r => 0 <= Remote.Receivable.paid_amount r <= Remote.Receivable.total_amount r)
         l ->
  sumZ (map Remote.Receivable.total_amount l) <= 2 ^ 53 ->
  Forall (fun r => JS.isDouble (Remote_remaining r) = true) l
  /\ summed_exactly (map Remote.Receivable.total_amount l)
  /\ summed_exactly (map Remote_remaining l).
Proof.
  intros H B.
  assert (Ht : Forall (fun r => 0 <= Remote.Receivable.total_amount r) l)
    by (eapply Forall_impl; [|exact H]; simpl; intros r Hr; lia).
  assert (Hr : Forall (fun r => 0 <= Remote_remaining r) l)
    by (eapply Forall_impl; [|exact H]; unfold Remote_remaining; simpl; intros r Hr; lia).
  assert (Le : sumZ (map Remote_remaining l) <= sumZ (map Remote.Receivable.total_amount l)).
  { apply sumZ_bounds. eapply Forall_impl; [|exact H].
    unfold Remote_remaining. simpl. intros r Hr'. lia. }
  split; [|split].
  - apply Forall_forall. intros r Hin. apply isDouble_safe.
    pose proof (@sumZ_member _ Remote_remaining l r Hr Hin) as M.
    rewrite Forall_forall in Hr. specialize (Hr r Hin). lia.
  - now apply summed_exactly_map.
  - apply summed_exactly_map; [exact Hr | lia].
Qed.

(** With totals of 2^53 and 1 the summary holds a total of 2^53, where the
    totals add up to 2^53 + 1: the last addition is rounded. *)
Lemma receivablesSummary_rounds_large_totals :
  Local.receivablesSummary localLargeTotals
  = Local.Summary.mk 9007199254740992 9007199254740992
  /\ sumZ (map Local.Receivable.totalAmount localLargeTotals) = 9007199254740993
  /\ Remote.receivablesSummary remoteLargeTotals
     = Remote.Summary.mk 9007199254740992 9007199254740992
  /\ sumZ (map Remote.Receivable.total_amount remoteLargeTotals) = 9007199254740993.
Proof. repeat split; vm_compute; reflexivity. Qed.

(** C8, as the code has it.  In both variants the receivables summary of a
    list is the sum of the total amounts and the sum of the remaining amounts
    (total minus paid) over all its records, provided that no addition on the
    way is rounded: each remaining amount and each running sum of the totals and
    of the remaining amounts is held by a double. *)
Theorem receivablesSummary_sums :
  (forall l : list Local.Receivable.t,
     Forall (fun r => JS.isDouble (Local_remaining r) = true) l ->
     summed_exactly (map Local.Receivable.totalAmount l) ->
     summed_exactly (map Local_remaining l) ->
     Local.receivablesSummary l
     = Local.Summary.mk (sumZ (map Local.Receivable.totalAmount l))
                        (sumZ (map Local_remaining l)))
  /\
  (forall l : list Remote.Receivable.t,
     Forall (fun r => JS.isDouble (Remote_remaining r) = true) l ->
     summed_exactly (map Remote.Receivable.total_amount l) ->
     summed_exactly (map Remote_remaining l) ->
     Remote.receivablesSummary l
     = Remote.Summary.mk (sumZ (map Remote.Receivable.total_amount l))
                         (sumZ (map Remote_remaining l))).
Proof.
  split; intros l D T R.
  - now apply Local_receivablesSummary_as_sums.
  - now apply Remote_receivablesSummary_as_sums.
Qed.

(** The summary of [{total:1000, paid:200}, {total:500, paid:500}] is
    [{total:1500, remaining:800}]. *)
Lemma receivablesSummary_sums_witness :
  Local.receivablesSummary localSummaryExample = Local.Summary.mk 1500 800
  /\ Remote.receivablesSummary remoteSummaryExample = Remote.Summary.mk 1500 800.
Proof.
  destruct receivablesSummary_sums as [L R]. split.
  - destruct (@Local_safe_amounts localSummaryExample) as (D & T & S).
    + repeat constructor; simpl; lia.
    + vm_compute. discriminate.
    + rewrite (L localSummaryExample D T S). reflexivity.
  - destruct (@Remote_safe_amounts remoteSummaryExample) as (D & T & S).
    + repeat constructor; simpl; lia.
    + vm_compute. discriminate.
    + rewrite (R remoteSummaryExample D T S). reflexivity.
Defined.

(** ** Realtime changes (C4, C5, C9, C10) *)

(** C9.  An [UPDATE] notification whose record id matches no record of the
    store leaves the whole state as it was: nothing is inserted, nothing is
    modified, nothing is reported. *)
Theorem handleChanges_update_unknown_id :
  (forall (s : Remote.State) (newRecord : Remote.Receivable.t) (oldId : string),
     absent Remote.Receivable.id (Remote.Receivable.id newRecord) (Remote.receivables s) ->
     Remote.handleChanges (Remote.receivables_change "UPDATE" newRecord oldId) s = s)
  /\
  (forall (s : Remote.State) (newRecord : Remote.Revenue.t) (oldId : string),
     absent Remote.Revenue.id (Remote.Revenue.id newRecord) (Remote.revenues s) ->
     Remote.handleChanges (Remote.revenues_change "UPDATE" newRecord oldId) s = s).
Proof.
  split; intros s newRecord oldId H; cbn.
  - apply Remote_setReceivables_same. now apply map_replace_absent.
  - apply Remote_setRevenues_same. now apply map_replace_absent.
Qed.

Lemma handleChanges_update_unknown_id_witness :
  Remote.handleChanges
    (Remote.receivables_change "UPDATE"
       (Remote.Receivable.mk "r9" "elsewhere" 70 10 "2024-09-09") "r9")
    remoteExample
  = remoteExample
  /\
  Remote.handleChanges
    (Remote.revenues_change "UPDATE" (Remote.Revenue.mk "v9" "elsewhere" 70 "2024-09-09") "v9")
    remoteExample
  = remoteExample.
Proof.
  split.
  - apply (proj1 handleChanges_update_unknown_id).
    intros r [<-|[<-|[]]]; simpl; discriminate.
  - apply (proj2 handleChanges_update_unknown_id).
    intros r [<-|[]]; simpl; discriminate.
Defined.

Lemma handleChanges_insert_receivable (s : Remote.State) newRecord oldId :
  Remote.handleChanges (Remote.receivables_change "INSERT" newRecord oldId) s
  = Remote.setReceivables (insert_if_absent Remote.Receivable.id newRecord) s.
Proof. reflexivity. Qed.

Lemma handleChanges_insert_revenue (s : Remote.State) newRecord oldId :
  Remote.handleChanges (Remote.revenues_change "INSERT" newRecord oldId) s
  = Remote.setRevenues (insert_if_absent Remote.Revenue.id newRecord) s.
Proof. reflexivity. Qed.

(** C10.  When the store already holds a record with the id of an [INSERT]
    notification, the state after the notification is the state before it: the
    stored record stays as it was and the incoming one is dropped, whatever its
    other fields are. *)
Theorem handleChanges_insert_existing_wins :
  (forall (s : Remote.State) (stored newRecord : Remote.Receivable.t) (oldId : string),
     In stored (Remote.receivables s) ->
     Remote.Receivable.id stored = Remote.Receivable.id newRecord ->
     Remote.handleChanges (Remote.receivables_change "INSERT" newRecord oldId) s = s)
  /\
  (forall (s : Remote.State) (stored newRecord : Remote.Revenue.t) (oldId : string),
     In stored (Remote.revenues s) ->
     Remote.Revenue.id stored = Remote.Revenue.id newRecord ->
     Remote.handleChanges (Remote.revenues_change "INSERT" newRecord oldId) s = s).
Proof.
  split; intros s stored newRecord oldId Hin Hid.
  - rewrite handleChanges_insert_receivable. apply Remote_setReceivables_same.
    apply insert_if_absent_present. now exists stored.
  - rewrite handleChanges_insert_revenue. apply Remote_setRevenues_same.
    apply insert_if_absent_present. now exists stored.
Qed.

(** The incoming record differs from the stored one in every field but the
    id; the store keeps the stored one. *)
Lemma handleChanges_insert_existing_wins_witness :
  Remote.receivables
    (Remote.handleChanges
       (Remote.receivables_change "INSERT"
          (Remote.Receivable.mk "r1" "rewritten" 5 5 "2030-01-01") EmptyString)
       remoteExample)
  = [Remote.Receivable.mk "r1" "invoice 1" 1000 800 "2024-03-01";
     Remote.Receivable.mk "r2" "invoice 2" 500 0 "2024-06-01"]
  /\
  Remote.revenues
    (Remote.handleChanges
       (Remote.revenues_change "INSERT" (Remote.Revenue.mk "v1" "rewritten" 5 "2030-01-01") EmptyString)
       remoteExample)
  = [Remote.Revenue.mk "v1" "sale" 250 "2024-02-01"].
Proof.
  split.
  - rewrite (proj1 handleChanges_insert_existing_wins remoteExample
               (Remote.Receivable.mk "r1" "invoice 1" 1000 800 "2024-03-01")).
    + reflexivity.
    + simpl. now left.
    + reflexivity.
  - rewrite (proj2 handleChanges_insert_existing_wins remoteExample
               (Remote.Revenue.mk "v1" "sale" 250 "2024-02-01")).
    + reflexivity.
    + simpl. now left.
    + reflexivity.
Defined.

(** C4.  An [INSERT] notification is idempotent: it changes nothing when a
    record with its id is already stored, so applying it twice gives the state
    that applying it once gives. *)
Theorem handleChanges_insert_idempotent :
  (forall (s : Remote.State) (newRecord : Remote.Receivable.t) (oldId : string),
     ((exists r, In r (Remote.receivables s)
                 /\ Remote.Receivable.id r = Remote.Receivable.id newRecord) ->
      Remote.handleChanges (Remote.receivables_change "INSERT" newRecord oldId) s = s)
     /\
     Remote.handleChanges (Remote.receivables_change "INSERT" newRecord oldId)
       (Remote.handleChanges (Remote.receivables_change "INSERT" newRecord oldId) s)
     = Remote.handleChanges (Remote.receivables_change "INSERT" newRecord oldId) s)
  /\
  (forall (s : Remote.State) (newRecord : Remote.Revenue.t) (oldId : string),
     ((exists r, In r (Remote.revenues s)
                 /\ Remote.Revenue.id r = Remote.Revenue.id newRecord) ->
      Remote.handleChanges (Remote.revenues_change "INSERT" newRecord oldId) s = s)
     /\
     Remote.handleChanges (Remote.revenues_change "INSERT" newRecord oldId)
       (Remote.handleChanges (Remote.revenues_change "INSERT" newRecord oldId) s)
     = Remote.handleChanges (Remote.revenues_change "INSERT" newRecord oldId) s).
Proof.
  split; intros s newRecord oldId; split.
  - intros H. rewrite handleChanges_insert_receivable.
    apply Remote_setReceivables_same. now apply insert_if_absent_present.
  - rewrite !handleChanges_insert_receivable. apply Remote_setReceivables_twice.
    apply insert_if_absent_twice.
  - intros H. rewrite handleChanges_insert_revenue.
    apply Remote_setRevenues_same. now apply insert_if_absent_present.
  - rewrite !handleChanges_insert_revenue. apply Remote_setRevenues_twice.
    apply insert_if_absent_twice.
Qed.

(** A receivable that is already stored arrives: nothing changes.  A new
    one arrives twice: it is stored once. *)
Lemma handleChanges_insert_idempotent_witness :
  Remote.handleChanges
    (Remote.receivables_change "INSERT"
       (Remote.Receivable.mk "r1" "invoice 1" 1000 800 "2024-03-01") EmptyString)
    remoteExample
  = remoteExample
  /\
  Remote.receivables
    (Remote.handleChanges
       (Remote.receivables_change "INSERT"
          (Remote.Receivable.mk "r3" "invoice 3" 40 0 "2024-07-01") EmptyString)
       (Remote.handleChanges
          (Remote.receivables_change "INSERT"
             (Remote.Receivable.mk "r3" "invoice 3" 40 0 "2024-07-01") EmptyString)
          remoteExample))
  = [Remote.Receivable.mk "r1" "invoice 1" 1000 800 "2024-03-01";
     Remote.Receivable.mk "r2" "invoice 2" 500 0 "2024-06-01";
     Remote.Receivable.mk "r3" "invoice 3" 40 0 "2024-07-01"].
Proof.
  split.
  - apply (proj1 (proj1 handleChanges_insert_idempotent remoteExample _ _)).
    exists (Remote.Receivable.mk "r1" "invoice 1" 1000 800 "2024-03-01").
    split; [simpl; now left | reflexivity].
  - rewrite (proj2 (proj1 handleChanges_insert_idempotent remoteExample
                      (Remote.Receivable.mk "r3" "invoice 3" 40 0 "2024-07-01") EmptyString)).
    reflexivity.
Defined.

(** ** Deletion (C5) *)

Lemma handleChanges_delete_receivable (s : Remote.State) newRecord oldId :
  Remote.handleChanges (Remote.receivables_change "DELETE" newRecord oldId) s
  = Remote.setReceivables
      (filter (fun r => negb (String.eqb (Remote.Receivable.id r) oldId))) s.
Proof. reflexivity. Qed.

Lemma handleChanges_delete_revenue (s : Remote.State) newRecord oldId :
  Remote.handleChanges (Remote.revenues_change "DELETE" newRecord oldId) s
  = Remote.setRevenues
      (filter (fun r => negb (String.eqb (Remote.Revenue.id r) oldId))) s.
Proof. reflexivity. Qed.

(** C5.  Deleting an id that the store does not hold leaves the state as it
    was, and a delete that follows a delete of the same id changes nothing
    more.  This holds for [handleDeleteReceivable] and [handleDeleteRevenue] of
    the local variant and for a [DELETE] notification of the remote variant;
    none of them has an error to report.  The delete handlers of the remote
    variant keep the lists as they were too, and report only what the
    collaborator reports. *)
Theorem delete_absent_is_noop :
  ((forall (s : Local.State) (confirmed : bool) (id : string),
      absent Local.Receivable.id id (Local.receivables s) ->
      Local.handleDeleteReceivable confirmed id s = s)
   /\ (forall (s : Local.State) (confirmed : bool) (id : string),
      Local.handleDeleteReceivable confirmed id (Local.handleDeleteReceivable true id s)
      = Local.handleDeleteReceivable true id s)
   /\ (forall (s : Local.State) (confirmed : bool) (id : string),
      absent Local.Revenue.id id (Local.revenues s) ->
      Local.handleDeleteRevenue confirmed id s = s)
   /\ (forall (s : Local.State) (confirmed : bool) (id : string),
      Local.handleDeleteRevenue confirmed id (Local.handleDeleteRevenue true id s)
      = Local.handleDeleteRevenue true id s))
  /\
  ((forall (s : Remote.State) (newRecord : Remote.Receivable.t) (id : string),
      absent Remote.Receivable.id id (Remote.receivables s) ->
      Remote.handleChanges (Remote.receivables_change "DELETE" newRecord id) s = s)
   /\ (forall (s : Remote.State) (newRecord : Remote.Receivable.t) (id : string),
      Remote.handleChanges (Remote.receivables_change "DELETE" newRecord id)
        (Remote.handleChanges (Remote.receivables_change "DELETE" newRecord id) s)
      = Remote.handleChanges (Remote.receivables_change "DELETE" newRecord id) s)
   /\ (forall (s : Remote.State) (newRecord : Remote.Revenue.t) (id : string),
      absent Remote.Revenue.id id (Remote.revenues s) ->
      Remote.handleChanges (Remote.revenues_change "DELETE" newRecord id) s = s)
   /\ (forall (s : Remote.State) (newRecord : Remote.Revenue.t) (id : string),
      Remote.handleChanges (Remote.revenues_change "DELETE" newRecord id)
        (Remote.handleChanges (Remote.revenues_change "DELETE" newRecord id) s)
      = Remote.handleChanges (Remote.revenues_change "DELETE" newRecord id) s))
  /\
  ((forall (supabase : Remote.Supabase.t) (s : Remote.State) (confirmed : bool) (id : string),
      absent Remote.Receivable.id id (Remote.receivables s) ->
      Remote.receivables (Remote.handleDeleteReceivable supabase confirmed id s)
      = Remote.receivables s
      /\ (Remote.Supabase.delete_receivable supabase id = None ->
          Remote.handleDeleteReceivable supabase confirmed id s = s))
   /\ (forall (supabase : Remote.Supabase.t) (s : Remote.State) (confirmed : bool) (id : string),
      absent Remote.Revenue.id id (Remote.revenues s) ->
      Remote.revenues (Remote.handleDeleteRevenue supabase confirmed id s)
      = Remote.revenues s
      /\ (Remote.Supabase.delete_revenue supabase id = None ->
          Remote.handleDeleteRevenue supabase confirmed id s = s))).
Proof.
  assert (L1 : forall s confirmed id,
             absent Local.Receivable.id id (Local.receivables s) ->
             Local.handleDeleteReceivable confirmed id s = s).
  { intros s [] id H; unfold Local.handleDeleteReceivable; [|reflexivity].
    apply Local_setReceivables_same. now apply filter_remove_absent. }
  assert (L2 : forall s confirmed id,
             absent Local.Revenue.id id (Local.revenues s) ->
             Local.handleDeleteRevenue confirmed id s = s).
  { intros s [] id H; unfold Local.handleDeleteRevenue; [|reflexivity].
    apply Local_setRevenues_same. now apply filter_remove_absent. }
  assert (R1 : forall s newRecord id,
             absent Remote.Receivable.id id (Remote.receivables s) ->
             Remote.handleChanges (Remote.receivables_change "DELETE" newRecord id) s = s).
  { intros s n id H. rewrite handleChanges_delete_receivable.
    apply Remote_setReceivables_same. now apply filter_remove_absent. }
  assert (R2 : forall s newRecord id,
             absent Remote.Revenue.id id (Remote.revenues s) ->
             Remote.handleChanges (Remote.revenues_change "DELETE" newRecord id) s = s).
  { intros s n id H. rewrite handleChanges_delete_revenue.
    apply Remote_setRevenues_same. now apply filter_remove_absent. }
  repeat split.
  - apply L1.
  - intros s confirmed id. apply L1. destruct s; simpl. apply filter_remove_makes_absent.
  - apply L2.
  - intros s confirmed id. apply L2. destruct s; simpl. apply filter_remove_makes_absent.
  - apply R1.
  - intros s n id. apply R1. destruct s; simpl. apply filter_remove_makes_absent.
  - apply R2.
  - intros s n id. apply R2. destruct s; simpl. apply filter_remove_makes_absent.
  - unfold Remote.handleDeleteReceivable.
    destruct confirmed; [|reflexivity].
    destruct (Remote.Supabase.delete_receivable supabase id); destruct s; simpl in *;
      [reflexivity | now apply filter_remove_absent].
  - intros E. unfold Remote.handleDeleteReceivable. rewrite E.
    destruct confirmed; [|reflexivity].
    apply Remote_setReceivables_same. now apply filter_remove_absent.
  - unfold Remote.handleDeleteRevenue.
    destruct confirmed; [|reflexivity].
    destruct (Remote.Supabase.delete_revenue supabase id); destruct s; simpl in *;
      [reflexivity | now apply filter_remove_absent].
  - intros E. unfold Remote.handleDeleteRevenue. rewrite E.
    destruct confirmed; [|reflexivity].
    apply Remote_setRevenues_same. now apply filter_remove_absent.
Qed.

(** Deleting [r1] twice from the example stores: the second delete changes
    nothing, in the local handler and for the realtime notification. *)
Lemma delete_absent_is_noop_witness :
  Local.handleDeleteReceivable true "r9" localExample = localExample
  /\
  Local.receivables
    (Local.handleDeleteReceivable true "r1" (Local.handleDeleteReceivable true "r1" localExample))
  = [Local.Receivable.mk "r2" "invoice 2" 500 0 "2024-06-01"]
  /\
  Remote.handleChanges
    (Remote.receivables_change "DELETE"
       (Remote.Receivable.mk "r9" "gone" 0 0 "2024-01-01") "r9")
    remoteExample
  = remoteExample.
Proof.
  destruct delete_absent_is_noop as [[L1 [L2 _]] [[R1 _] _]].
  split; [|split].
  - apply L1. intros r [<-|[<-|[]]]; simpl; discriminate.
  - rewrite L2. reflexivity.
  - apply R1. intros r [<-|[<-|[]]]; simpl; discriminate.
Defined.

(** ** Recording a payment (C1) *)

Lemma Local_handleRecordPayment_receivables formData s current :
  Local.currentReceivable s = Some current ->
  Local.receivables (Local.handleRecordPayment formData s)
  = map (fun r =>
           if String.eqb (Local.Receivable.id r) (Local.Receivable.id current)
           then Local.Receivable.mk (Local.Receivable.id r) (Local.Receivable.description r)
                  (Local.Receivable.totalAmount r)
                  (Z.min (Local.Receivable.totalAmount r)
                         (JS.add (Local.Receivable.paidAmount r)
                                 (Local.FormData.paymentAmount formData)))
                  (Local.Receivable.dueDate r)
           else r)
        (Local.receivables s).
Proof. intros H. unfold Local.handleRecordPayment. rewrite H. reflexivity. Qed.

Lemma Remote_handleRecordPayment_confirmed supabase formData s current data :
  Remote.currentReceivable s = Some current ->
  Remote.Supabase.update_receivable supabase
    (Remote.paymentPatch current (Remote.FormData.paymentAmount formData))
    (Remote.Receivable.id current)
  = Remote.Response.mk (Some data) None ->
  Remote.receivables (Remote.handleRecordPayment supabase formData s)
  = map (fun r => if String.eqb (Remote.Receivable.id r) (Remote.Receivable.id data)
                  then data else r)
        (Remote.receivables s).
Proof.
  intros H E. unfold Remote.handleRecordPayment. rewrite H. cbv zeta. rewrite E. reflexivity.
Qed.

(** C1, where the code departs from it.  In the remote variant the pay
    button of [r1] (total 1000, paid 800) is pressed, a notification then
    reports that 900 are paid, and a payment of 50 is submitted, which the
    collaborator confirms on its row: the store ends with 850 paid, where
    [min (total, paid + payment)] of the receivable is 950.  The handler takes
    the amounts from the receivable as it was when the button was pressed. *)
Theorem recordPayment_on_stale_snapshot :
  Remote.receivables remotePaidElsewhere
  = [Remote.Receivable.mk "r1" "invoice 1" 1000 900 "2024-03-01";
     Remote.Receivable.mk "r2" "invoice 2" 500 0 "2024-06-01"]
  /\
  Remote.currentReceivable remotePaidElsewhere
  = Some (Remote.Receivable.mk "r1" "invoice 1" 1000 800 "2024-03-01")
  /\
  Remote.receivables
    (Remote.submitPaymentForm (clientOf remotePaidElsewhere "r3")
       (Form.Payment.mk (Some 50)) remotePaidElsewhere)
  = [Remote.Receivable.mk "r1" "invoice 1" 1000 850 "2024-03-01";
     Remote.Receivable.mk "r2" "invoice 2" 500 0 "2024-06-01"]
  /\
  Z.min 1000 (JS.add 900 50) = 950.
Proof. repeat split; vm_compute; reflexivity. Qed.

(** ** Editing a receivable (C6) *)



(** ** Adding a receivable (C2) *)

(** What the constraints of the receivable form refuse and what they let
    through (the two variants have the same constraints). *)
Lemma Local_receivableForm_refuses (form : Form.Receivable.t) :
  (exists total, Form.Receivable.totalAmount form = Some total /\ total < 0)
  \/ Form.Receivable.totalAmount form = None
  \/ Form.Receivable.description form = EmptyString
  \/ Form.Receivable.dueDate form = EmptyString ->
  Local.receivableFormValid form = false.
Proof.
  unfold Local.receivableFormValid. intros [(total & E & N)|[E|[E|E]]].
  - rewrite E. destruct (Form.valueAsNumber (Some total)) as [value|] eqn:V.
    + pose proof (valueAsNumber_sign _ V) as S.
      destruct (Z.leb_spec 0 value); [lia|]. now rewrite andb_false_r.
    + now rewrite andb_false_r.
  - rewrite E. simpl. now rewrite andb_false_r.
  - rewrite E. reflexivity.
  - rewrite E. simpl. now rewrite andb_false_r.
Qed.

Lemma Local_receivableForm_accepts (form : Form.Receivable.t) :
  Local.receivableFormValid form = true ->
  exists total,
    Form.valueAsNumber (Form.Receivable.totalAmount form) = Some total
    /\ 0 <= total
    /\ Form.Receivable.description form <> EmptyString
    /\ Form.Receivable.dueDate form <> EmptyString
    /\ Local.receivableFormData form
       = Some (Local.FormData.mk (Form.Receivable.description form) total
                 (Form.Receivable.dueDate form) 0 EmptyString 0).
Proof.
  intros V. unfold Local.receivableFormData. rewrite V.
  unfold Local.receivableFormValid, JS.falsy in V.
  apply andb_true_iff in V. destruct V as [V V3].
  apply andb_true_iff in V. destruct V as [V1 V2].
  destruct (Form.valueAsNumber (Form.Receivable.totalAmount form)) as [total|];
    [|discriminate].
  exists total. apply Z.leb_le in V2.
  apply negb_true_iff, String.eqb_neq in V1. apply negb_true_iff, String.eqb_neq in V3.
  repeat split; assumption.
Qed.

Lemma Remote_receivableForm_refuses (form : Form.Receivable.t) :
  (exists total, Form.Receivable.totalAmount form = Some total /\ total < 0)
  \/ Form.Receivable.totalAmount form = None
  \/ Form.Receivable.description form = EmptyString
  \/ Form.Receivable.dueDate form = EmptyString ->
  Remote.receivableFormValid form = false.
Proof. exact (Local_receivableForm_refuses form). Qed.

Lemma Remote_receivableForm_accepts (form : Form.Receivable.t) :
  Remote.receivableFormValid form = true ->
  exists total,
    Form.valueAsNumber (Form.Receivable.totalAmount form) = Some total
    /\ 0 <= total
    /\ Form.Receivable.description form <> EmptyString
    /\ Form.Receivable.dueDate form <> EmptyString
    /\ Remote.receivableFormData form
       = Some (Remote.FormData.mk (Form.Receivable.description form) total
                 (Form.Receivable.dueDate form) 0 EmptyString 0).
Proof.
  intros V. unfold Remote.receivableFormData. rewrite V.
  unfold Remote.receivableFormValid, JS.falsy in V.
  apply andb_true_iff in V. destruct V as [V V3].
  apply andb_true_iff in V. destruct V as [V1 V2].
  destruct (Form.valueAsNumber (Form.Receivable.totalAmount form)) as [total|];
    [|discriminate].
  exists total. apply Z.leb_le in V2.
  apply negb_true_iff, String.eqb_neq in V1. apply negb_true_iff, String.eqb_neq in V3.
  repeat split; assumption.
Qed.

(** C2.  A receivable whose total amount is negative, or one of whose
    required fields (description, total amount, due date) is empty, fails the
    validation of the form that adds receivables, and the state stays as it
    was: no record is added, and in the remote variant nothing is asked of the
    collaborator.  The validation is that of the form: the handler is reached
    only by a submission that passes it, and then adds exactly one record, with
    paid amount 0, a total that is not negative and no empty field (in the
    remote variant it sends such a record and adds the row the collaborator
    returns, or shows the error the collaborator reports). *)
Theorem addReceivable_validation :
  ((forall (uuid : string) (form : Form.Receivable.t) (s : Local.State),
      (exists total, Form.Receivable.totalAmount form = Some total /\ total < 0)
      \/ Form.Receivable.totalAmount form = None
      \/ Form.Receivable.description form = EmptyString
      \/ Form.Receivable.dueDate form = EmptyString ->
      Local.receivableFormValid form = false
      /\ Local.submitReceivableForm uuid form s = s)
   /\
   (forall (uuid : string) (form : Form.Receivable.t) (s : Local.State),
      Local.receivableFormValid form = true ->
      exists total,
        Form.valueAsNumber (Form.Receivable.totalAmount form) = Some total
        /\ 0 <= total
        /\ Form.Receivable.description form <> EmptyString
        /\ Form.Receivable.dueDate form <> EmptyString
        /\ Local.receivables (Local.submitReceivableForm uuid form s)
           = Local.receivables s
             ++ [Local.Receivable.mk uuid (Form.Receivable.description form) total 0
                   (Form.Receivable.dueDate form)]
        /\ Local.revenues (Local.submitReceivableForm uuid form s) = Local.revenues s))
  /\
  ((forall (supabase : Remote.Supabase.t) (user_id : string) (form : Form.Receivable.t)
           (s : Remote.State),
      (exists total, Form.Receivable.totalAmount form = Some total /\ total < 0)
      \/ Form.Receivable.totalAmount form = None
      \/ Form.Receivable.description form = EmptyString
      \/ Form.Receivable.dueDate form = EmptyString ->
      Remote.receivableFormValid form = false
      /\ Remote.submitReceivableForm supabase user_id form s = s)
   /\
   (forall (supabase : Remote.Supabase.t) (user_id : string) (form : Form.Receivable.t)
           (s : Remote.State),
      Remote.receivableFormValid form = true ->
      exists total,
        Form.valueAsNumber (Form.Receivable.totalAmount form) = Some total
        /\ 0 <= total
        /\ Form.Receivable.description form <> EmptyString
        /\ Form.Receivable.dueDate form <> EmptyString
        /\ (forall message,
              Remote.Response.error
                (Remote.Supabase.insert_receivable supabase
                   (Remote.ReceivableInsert.mk (Form.Receivable.description form) total 0
                      (Form.Receivable.dueDate form) user_id))
              = Some message ->
              Remote.submitReceivableForm supabase user_id form s = Remote.alert message s)
        /\ (forall data,
              Remote.Supabase.insert_receivable supabase
                (Remote.ReceivableInsert.mk (Form.Receivable.description form) total 0
                   (Form.Receivable.dueDate form) user_id)
              = Remote.Response.mk (Some data) None ->
              Remote.receivables (Remote.submitReceivableForm supabase user_id form s)
              = Remote.receivables s ++ [data]
              /\ Remote.revenues (Remote.submitReceivableForm supabase user_id form s)
                 = Remote.revenues s))).
Proof.
  split; split.
  - intros uuid form s H. pose proof (Local_receivableForm_refuses form H) as V.
    split; [exact V|]. unfold Local.submitReceivableForm, Local.receivableFormData.
    now rewrite V.
  - intros uuid form s V.
    destruct (Local_receivableForm_accepts form V) as (total & E & P & D & U & F).
    exists total. unfold Local.submitReceivableForm. rewrite F.
    repeat split; assumption || reflexivity.
  - intros supabase user_id form s H.
    pose proof (Remote_receivableForm_refuses form H) as V.
    split; [exact V|]. unfold Remote.submitReceivableForm, Remote.receivableFormData.
    now rewrite V.
  - intros supabase user_id form s V.
    destruct (Remote_receivableForm_accepts form V) as (total & E & P & D & U & F).
    exists total. unfold Remote.submitReceivableForm. rewrite F.
    unfold Remote.handleAddReceivable. cbv zeta. simpl.
    repeat split; try assumption.
    + intros message M. now rewrite M.
    + rewrite H. reflexivity.
    + rewrite H. reflexivity.
Qed.

(** The form with a total amount of -5 and the form with an empty total
    amount are refused, in both variants; the same fields with a total amount of
    5 are stored, by the remote variant under the id the collaborator gives. *)
Lemma addReceivable_validation_witness :
  Local.submitReceivableForm "u1" (Form.Receivable.mk "goods" (Some (-5)) "2024-05-01")
    localExample
  = localExample
  /\
  Local.submitReceivableForm "u1" (Form.Receivable.mk "goods" None "2024-05-01") localExample
  = localExample
  /\
  Remote.submitReceivableForm (clientOf remoteExample "r3") "user"
    (Form.Receivable.mk "goods" (Some (-5)) "2024-05-01") remoteExample
  = remoteExample
  /\
  Remote.submitReceivableForm (clientOf remoteExample "r3") "user"
    (Form.Receivable.mk EmptyString (Some 5) "2024-05-01") remoteExample
  = remoteExample
  /\
  Local.receivables
    (Local.submitReceivableForm "u1" (Form.Receivable.mk "goods" (Some 5) "2024-05-01")
       localExample)
  = Local.receivables localExample
    ++ [Local.Receivable.mk "u1" "goods" 5 0 "2024-05-01"]
  /\
  Remote.receivables
    (Remote.submitReceivableForm (clientOf remoteExample "r3") "user"
       (Form.Receivable.mk "goods" (Some 5) "2024-05-01") remoteExample)
  = Remote.receivables remoteExample
    ++ [Remote.Receivable.mk "r3" "goods" 5 0 "2024-05-01"].
Proof.
  destruct addReceivable_validation as [[L1 L2] [R1 R2]].
  split; [|split; [|split; [|split; [|split]]]].
  - apply L1. left. exists (-5). split; [reflexivity | lia].
  - apply L1. right. left. reflexivity.
  - apply R1. left. exists (-5). split; [reflexivity | lia].
  - apply R1. right. right. left. reflexivity.
  - destruct (L2 "u1"%string (Form.Receivable.mk "goods" (Some 5) "2024-05-01") localExample
                eq_refl) as (total & E & _ & _ & _ & H & _).
    rewrite H. vm_compute in E. injection E as <-. reflexivity.
  - destruct (R2 (clientOf remoteExample "r3") "user"%string
                (Form.Receivable.mk "goods" (Some 5) "2024-05-01") remoteExample eq_refl)
      as (total & E & _ & _ & _ & _ & H).
    vm_compute in E. injection E as <-.
    exact (proj1 (H (Remote.Receivable.mk "r3" "goods" 5 0 "2024-05-01") eq_refl)).
Defined.

(** ** Sequences of payments (C3) *)

(** C3, where the code departs from it.  In the remote variant the pay
    button of [r1] (total 1000, paid 800) is pressed.  When a notification then
    reports a payment of 100 recorded in another session (paid 900) and a
    payment of 50 is submitted, the paid amount goes from 900 down to 850.  When
    instead a notification reports that the total was edited down to 850 and a
    payment of 100 is submitted, the paid amount becomes 900, above the total.
    Both payments pass the form, whose bound is the remaining amount of the
    receivable as it was when the button was pressed. *)
Theorem recordPayment_sequence_on_stale_snapshot :
  map Remote.Receivable.paid_amount (Remote.receivables remotePressed) = [800; 0]
  /\
  map Remote.Receivable.paid_amount (Remote.receivables remotePaidElsewhere) = [900; 0]
  /\
  map Remote.Receivable.paid_amount
    (Remote.receivables
       (Remote.submitPaymentForm (clientOf remotePaidElsewhere "r3")
          (Form.Payment.mk (Some 50)) remotePaidElsewhere))
  = [850; 0]
  /\
  Remote.receivables
    (Remote.submitPaymentForm (clientOf remoteLoweredElsewhere "r3")
       (Form.Payment.mk (Some 100)) remoteLoweredElsewhere)
  = [Remote.Receivable.mk "r1" "invoice 1" 850 900 "2024-03-01";
     Remote.Receivable.mk "r2" "invoice 2" 500 0 "2024-06-01"].
Proof. repeat split; vm_compute; reflexivity. Qed.

(** ** The order of receivables (C7) *)




(** The ordering example of the specification, in both variants. *)
Example sortedReceivables_example :
  Local.sortedReceivables JS.isoTime localOrderExample
  = [Local.Receivable.mk "r" "open 200" 1000 800 "2024-03-01";
     Local.Receivable.mk "q" "open 500" 500 0 "2024-06-01";
     Local.Receivable.mk "p" "settled" 300 300 "2024-01-01"]
  /\
  Remote.sortedReceivables JS.isoTime remoteOrderExample
  = [Remote.Receivable.mk "r" "open 200" 1000 800 "2024-03-01";
     Remote.Receivable.mk "q" "open 500" 500 0 "2024-06-01";
     Remote.Receivable.mk "p" "settled" 300 300 "2024-01-01"].
Proof. split; vm_compute; reflexivity. Qed.

(** In the remote variant the open receivable without due date goes behind the
    dated open one and stays in front of the settled one. *)
Example sortedReceivables_undated_example :
  Remote.sortedReceivables JS.isoTime remoteUndatedExample
  = [Remote.Receivable.mk "q" "open 500" 500 0 "2024-06-01";
     Remote.Receivable.mk "n" "open, no due date" 50 0 EmptyString;
     Remote.Receivable.mk "p" "settled" 300 300 "2024-01-01"].
Proof. vm_compute. reflexivity. Qed.


Example sortedReceivables_undated_ties_example :
  map Remote.Receivable.id (Remote.sortedReceivables JS.isoTime remoteUndatedTies)
  = ["d"; "n1"; "n2"]%string.
Proof. vm_compute. reflexivity. Qed.

(** The comparator of the local variant has no rule for a record without due
    date: the time stamp of such a record is [NaN], the comparator returns [NaN]
    whichever way it is asked, and the record stays where it is stored.  The
    forms of the local variant produce no such record. *)
Example local_order_without_due_date :
  Local.sortedReceivables JS.isoTime [localUndated; localDated] = [localUndated; localDated]
  /\ Local.compareReceivables JS.isoTime localUndated localDated = None
  /\ Local.compareReceivables JS.isoTime localDated localUndated = None.
Proof. repeat split; vm_compute; reflexivity. Qed.

(** The revenue ordering example: dates 2024-01-01, 2024-03-01, 2024-02-01 come
    out latest first. *)
Example sortedRevenues_example :
  map Local.Revenue.date
    (Local.sortedRevenues JS.isoTime
       [Local.Revenue.mk "x" "one" 10 "2024-01-01";
        Local.Revenue.mk "y" "two" 20 "2024-03-01";
        Local.Revenue.mk "z" "three" 30 "2024-02-01"])
  = ["2024-03-01"; "2024-02-01"; "2024-01-01"]%string
  /\
  map Remote.Revenue.date
    (Remote.sortedRevenues JS.isoTime
       [Remote.Revenue.mk "x" "one" 10 "2024-01-01";
        Remote.Revenue.mk "y" "two" 20 "2024-03-01";
        Remote.Revenue.mk "z" "three" 30 "2024-02-01"])
  = ["2024-03-01"; "2024-02-01"; "2024-01-01"]%string.
Proof. split; vm_compute; reflexivity. Qed.

(** * Further properties of the code *)

(** ** Realtime changes *)

Lemma handleChanges_receivables_unique payload (s : Remote.State) :
  NoDup (map Remote.Receivable.id (Remote.receivables s)) ->
  NoDup (map Remote.Receivable.id (Remote.receivables (Remote.handleChanges payload s))).
Proof.
  intros ND. destruct payload as [eventType newRecord oldId | eventType newRecord oldId | table];
    simpl; try exact ND.
  destruct (String.eqb eventType "INSERT").
  - exact (NoDup_ids_insert_if_absent Remote.Receivable.id _ newRecord ND).
  - destruct (String.eqb eventType "UPDATE").
    + now rewrite map_replace_ids.
    + destruct (String.eqb eventType "DELETE"); [now apply NoDup_ids_filter | exact ND].
Qed.

Lemma handleChanges_revenues_unique payload (s : Remote.State) :
  NoDup (map Remote.Revenue.id (Remote.revenues s)) ->
  NoDup (map Remote.Revenue.id (Remote.revenues (Remote.handleChanges payload s))).
Proof.
  intros ND. destruct payload as [eventType newRecord oldId | eventType newRecord oldId | table];
    simpl; try exact ND.
  destruct (String.eqb eventType "INSERT").
  - exact (NoDup_ids_insert_if_absent Remote.Revenue.id _ newRecord ND).
  - destruct (String.eqb eventType "UPDATE").
    + now rewrite map_replace_ids.
    + destruct (String.eqb eventType "DELETE"); [now apply NoDup_ids_filter | exact ND].
Qed.

(** X1.  Realtime notifications keep the ids of each list unique: whatever
    the notifications of a run are (any table, any event type, any rows), a
    state with unique ids is taken to a state with unique ids. *)
Theorem handleChanges_keeps_ids_unique (payloads : list Remote.Payload) (s : Remote.State) :
  Remote_unique_ids s -> Remote_unique_ids (Remote_changes payloads s).
Proof.
  revert s. induction payloads as [|payload payloads IH]; intros s H; simpl; [exact H|].
  apply IH. destruct H as [H1 H2]. split.
  - now apply handleChanges_receivables_unique.
  - now apply handleChanges_revenues_unique.
Qed.

(** The receivable [r1] arrives again as an insert, is updated, and a new
    receivable arrives twice: the ids stay unique. *)
Lemma handleChanges_keeps_ids_unique_witness :
  Remote_unique_ids
    (Remote_changes
       [Remote.receivables_change "INSERT"
          (Remote.Receivable.mk "r1" "again" 1 1 "2024-01-01") EmptyString;
        Remote.receivables_change "UPDATE"
          (Remote.Receivable.mk "r1" "invoice 1" 1000 900 "2024-03-01") EmptyString;
        Remote.receivables_change "INSERT"
          (Remote.Receivable.mk "r3" "invoice 3" 40 0 "2024-07-01") EmptyString;
        Remote.receivables_change "INSERT"
          (Remote.Receivable.mk "r3" "invoice 3" 40 0 "2024-07-01") EmptyString]
       remoteExample)
  /\
  map Remote.Receivable.id
    (Remote.receivables
       (Remote_changes
          [Remote.receivables_change "INSERT"
             (Remote.Receivable.mk "r1" "again" 1 1 "2024-01-01") EmptyString;
           Remote.receivables_change "UPDATE"
             (Remote.Receivable.mk "r1" "invoice 1" 1000 900 "2024-03-01") EmptyString;
           Remote.receivables_change "INSERT"
             (Remote.Receivable.mk "r3" "invoice 3" 40 0 "2024-07-01") EmptyString;
           Remote.receivables_change "INSERT"
             (Remote.Receivable.mk "r3" "invoice 3" 40 0 "2024-07-01") EmptyString]
          remoteExample))
  = ["r1"; "r2"; "r3"]%string.
Proof.
  split; [|reflexivity].
  apply handleChanges_keeps_ids_unique. split; simpl.
  - repeat constructor; simpl; intuition discriminate.
  - repeat constructor; simpl; intuition discriminate.
Defined.

(** X2.  An [UPDATE] notification for a stored id puts the incoming record in
    the place of the stored one and keeps every other record and the order
    (ids being unique): the last writer wins, whatever the stored record held. *)
Theorem handleChanges_update_replaces :
  (forall (s : Remote.State) l1 (stored : Remote.Receivable.t) l2 newRecord oldId,
     Remote.receivables s = l1 ++ stored :: l2 ->
     NoDup (map Remote.Receivable.id (Remote.receivables s)) ->
     Remote.Receivable.id newRecord = Remote.Receivable.id stored ->
     Remote.receivables
       (Remote.handleChanges (Remote.receivables_change "UPDATE" newRecord oldId) s)
     = l1 ++ newRecord :: l2)
  /\
  (forall (s : Remote.State) l1 (stored : Remote.Revenue.t) l2 newRecord oldId,
     Remote.revenues s = l1 ++ stored :: l2 ->
     NoDup (map Remote.Revenue.id (Remote.revenues s)) ->
     Remote.Revenue.id newRecord = Remote.Revenue.id stored ->
     Remote.revenues
       (Remote.handleChanges (Remote.revenues_change "UPDATE" newRecord oldId) s)
     = l1 ++ newRecord :: l2).
Proof.
  split; intros s l1 stored l2 newRecord oldId E ND Hid; simpl; rewrite E in *; rewrite Hid.
  - now apply map_replace_at.
  - now apply map_replace_at.
Qed.

Lemma handleChanges_update_replaces_witness :
  Remote.receivables
    (Remote.handleChanges
       (Remote.receivables_change "UPDATE"
          (Remote.Receivable.mk "r1" "renamed elsewhere" 2000 10 EmptyString) EmptyString)
       remoteExample)
  = [Remote.Receivable.mk "r1" "renamed elsewhere" 2000 10 EmptyString;
     Remote.Receivable.mk "r2" "invoice 2" 500 0 "2024-06-01"].
Proof.
  apply (proj1 handleChanges_update_replaces remoteExample []
           (Remote.Receivable.mk "r1" "invoice 1" 1000 800 "2024-03-01")
           [Remote.Receivable.mk "r2" "invoice 2" 500 0 "2024-06-01"]).
  - reflexivity.
  - simpl. repeat constructor; simpl; intuition discriminate.
  - reflexivity.
Defined.

(** ** Deleting a stored record *)

(** X3.  Deleting a stored id removes that record and nothing else, and keeps
    the order of the others (ids being unique): in the delete handlers of the
    local variant once the user has confirmed, for a [DELETE] notification, and
    in the delete handlers of the remote variant once the user has confirmed and
    the collaborator has reported no error.  When the user does not confirm,
    the handlers leave the state as it is. *)
Theorem delete_removes_exactly :
  ((forall (s : Local.State) l1 (stored : Local.Receivable.t) l2,
      Local.receivables s = l1 ++ stored :: l2 ->
      NoDup (map Local.Receivable.id (Local.receivables s)) ->
      Local.receivables (Local.handleDeleteReceivable true (Local.Receivable.id stored) s)
      = l1 ++ l2)
   /\ (forall (s : Local.State) l1 (stored : Local.Revenue.t) l2,
      Local.revenues s = l1 ++ stored :: l2 ->
      NoDup (map Local.Revenue.id (Local.revenues s)) ->
      Local.revenues (Local.handleDeleteRevenue true (Local.Revenue.id stored) s)
      = l1 ++ l2)
   /\ (forall (s : Local.State) (id : string),
      Local.handleDeleteReceivable false id s = s
      /\ Local.handleDeleteRevenue false id s = s))
  /\
  ((forall (s : Remote.State) l1 (stored : Remote.Receivable.t) l2 newRecord,
      Remote.receivables s = l1 ++ stored :: l2 ->
      NoDup (map Remote.Receivable.id (Remote.receivables s)) ->
      Remote.receivables
        (Remote.handleChanges
           (Remote.receivables_change "DELETE" newRecord (Remote.Receivable.id stored)) s)
      = l1 ++ l2)
   /\ (forall (s : Remote.State) l1 (stored : Remote.Revenue.t) l2 newRecord,
      Remote.revenues s = l1 ++ stored :: l2 ->
      NoDup (map Remote.Revenue.id (Remote.revenues s)) ->
      Remote.revenues
        (Remote.handleChanges
           (Remote.revenues_change "DELETE" newRecord (Remote.Revenue.id stored)) s)
      = l1 ++ l2))
  /\
  ((forall (supabase : Remote.Supabase.t) (s : Remote.State) l1
           (stored : Remote.Receivable.t) l2,
      Remote.receivables s = l1 ++ stored :: l2 ->
      NoDup (map Remote.Receivable.id (Remote.receivables s)) ->
      Remote.Supabase.delete_receivable supabase (Remote.Receivable.id stored) = None ->
      Remote.receivables
        (Remote.handleDeleteReceivable supabase true (Remote.Receivable.id stored) s)
      = l1 ++ l2)
   /\ (forall (supabase : Remote.Supabase.t) (s : Remote.State) l1
           (stored : Remote.Revenue.t) l2,
      Remote.revenues s = l1 ++ stored :: l2 ->
      NoDup (map Remote.Revenue.id (Remote.revenues s)) ->
      Remote.Supabase.delete_revenue supabase (Remote.Revenue.id stored) = None ->
      Remote.revenues
        (Remote.handleDeleteRevenue supabase true (Remote.Revenue.id stored) s)
      = l1 ++ l2)
   /\ (forall (supabase : Remote.Supabase.t) (s : Remote.State) (id : string),
      Remote.handleDeleteReceivable supabase false id s = s
      /\ Remote.handleDeleteRevenue supabase false id s = s)).
Proof.
  repeat split.
  - intros s l1 stored l2 E ND. simpl. rewrite E in *. now apply filter_remove_at.
  - intros s l1 stored l2 E ND. simpl. rewrite E in *. now apply filter_remove_at.
  - intros s l1 stored l2 newRecord E ND. simpl. rewrite E in *. now apply filter_remove_at.
  - intros s l1 stored l2 newRecord E ND. simpl. rewrite E in *. now apply filter_remove_at.
  - intros supabase s l1 stored l2 E ND N. unfold Remote.handleDeleteReceivable.
    rewrite N. simpl. rewrite E in *. now apply filter_remove_at.
  - intros supabase s l1 stored l2 E ND N. unfold Remote.handleDeleteRevenue.
    rewrite N. simpl. rewrite E in *. now apply filter_remove_at.
Qed.

Lemma delete_removes_exactly_witness :
  Local.receivables (Local.handleDeleteReceivable true "r1" localExample)
  = [Local.Receivable.mk "r2" "invoice 2" 500 0 "2024-06-01"]
  /\
  Remote.receivables
    (Remote.handleChanges
       (Remote.receivables_change "DELETE"
          (Remote.Receivable.mk "r2" "invoice 2" 500 0 "2024-06-01") "r2")
       remoteExample)
  = [Remote.Receivable.mk "r1" "invoice 1" 1000 800 "2024-03-01"].
Proof.
  destruct delete_removes_exactly as [(L & _) [(R & _) _]]. split.
  - apply (L localExample [] (Local.Receivable.mk "r1" "invoice 1" 1000 800 "2024-03-01")
             [Local.Receivable.mk "r2" "invoice 2" 500 0 "2024-06-01"]).
    + reflexivity.
    + simpl. repeat constructor; simpl; intuition discriminate.
  - apply (R remoteExample [Remote.Receivable.mk "r1" "invoice 1" 1000 800 "2024-03-01"]
             (Remote.Receivable.mk "r2" "invoice 2" 500 0 "2024-06-01") []).
    + reflexivity.
    + simpl. repeat constructor; simpl; intuition discriminate.
Defined.

(** X4.  An [INSERT] notification for an id the store does not hold, followed
    by a [DELETE] notification for that id, gives back the state from before the
    two. *)
Theorem handleChanges_insert_then_delete :
  (forall (s : Remote.State) (newRecord gone : Remote.Receivable.t) (oldId : string),
     absent Remote.Receivable.id (Remote.Receivable.id newRecord) (Remote.receivables s) ->
     Remote.handleChanges
       (Remote.receivables_change "DELETE" gone (Remote.Receivable.id newRecord))
       (Remote.handleChanges (Remote.receivables_change "INSERT" newRecord oldId) s)
     = s)
  /\
  (forall (s : Remote.State) (newRecord gone : Remote.Revenue.t) (oldId : string),
     absent Remote.Revenue.id (Remote.Revenue.id newRecord) (Remote.revenues s) ->
     Remote.handleChanges
       (Remote.revenues_change "DELETE" gone (Remote.Revenue.id newRecord))
       (Remote.handleChanges (Remote.revenues_change "INSERT" newRecord oldId) s)
     = s).
Proof.
  split; intros s newRecord gone oldId A.
  - rewrite handleChanges_insert_receivable, handleChanges_delete_receivable.
    destruct s; unfold Remote.setReceivables, insert_if_absent; simpl in *.
    rewrite (existsb_id_absent_false A). f_equal. now apply filter_remove_appended.
  - rewrite handleChanges_insert_revenue, handleChanges_delete_revenue.
    destruct s; unfold Remote.setRevenues, insert_if_absent; simpl in *.
    rewrite (existsb_id_absent_false A). f_equal. now apply filter_remove_appended.
Qed.

Lemma handleChanges_insert_then_delete_witness :
  Remote.handleChanges
    (Remote.receivables_change "DELETE"
       (Remote.Receivable.mk "r3" "invoice 3" 40 0 "2024-07-01") "r3")
    (Remote.handleChanges
       (Remote.receivables_change "INSERT"
          (Remote.Receivable.mk "r3" "invoice 3" 40 0 "2024-07-01") EmptyString)
       remoteExample)
  = remoteExample.
Proof.
  apply (proj1 handleChanges_insert_then_delete remoteExample
           (Remote.Receivable.mk "r3" "invoice 3" 40 0 "2024-07-01")).
  intros r [<-|[<-|[]]]; simpl; discriminate.
Defined.

(** ** A payment while notifications arrive *)

Lemma Remote_changes_currentReceivable payloads (s : Remote.State) :
  Remote.currentReceivable (Remote_changes payloads s) = Remote.currentReceivable s.
Proof.
  revert s. induction payloads as [|payload payloads IH]; intros s; simpl; [reflexivity|].
  rewrite IH. now destruct payload.
Qed.

(** X5.  The payment form of the remote variant works on the receivable as it
    was when the pay button was pressed: notifications that arrive while the
    form is open change the stored record but not the amount that is asked of
    the collaborator.  When the collaborator patches the row as stored by then,
    the stored record ends with the paid amount [min (total, paid + payment)] of
    the receivable as it was at the press of the button, its other fields being
    the stored ones. *)
Theorem payment_uses_the_snapshot
    (payloads : list Remote.Payload) (r stored : Remote.Receivable.t) (s : Remote.State)
    (amount : Z) (supabase : Remote.Supabase.t) (i : nat) :
  nth_error (Remote.receivables (Remote_changes payloads (Remote.clickPay r s))) i
  = Some stored ->
  Remote.Receivable.id stored = Remote.Receivable.id r ->
  Remote.Supabase.update_receivable supabase (Remote.paymentPatch r amount)
    (Remote.Receivable.id r)
  = Remote.Response.mk
      (Some (Remote.ReceivablePatch.apply (Remote.paymentPatch r amount) stored)) None ->
  nth_error
    (Remote.receivables
       (Remote.handleRecordPayment supabase (remotePayment amount)
          (Remote_changes payloads (Remote.clickPay r s))))
    i
  = Some (Remote.Receivable.mk (Remote.Receivable.id stored)
            (Remote.Receivable.description stored)
            (Remote.Receivable.total_amount stored)
            (Z.min (Remote.Receivable.total_amount r)
                   (JS.add (Remote.Receivable.paid_amount r) amount))
            (Remote.Receivable.due_date stored)).
Proof.
  intros Hnth Hid Hresp.
  assert (C : Remote.currentReceivable (Remote_changes payloads (Remote.clickPay r s))
              = Some r) by now rewrite Remote_changes_currentReceivable.
  rewrite (Remote_handleRecordPayment_confirmed supabase (remotePayment amount) _ C Hresp).
  rewrite nth_error_map, Hnth. simpl. now rewrite String.eqb_refl.
Qed.

(** The pay button is pressed on [r1] (paid 800 of 1000); a notification then
    reports that 900 are paid; a payment of 50 is submitted: the stored paid
    amount becomes 850. *)
Lemma payment_uses_the_snapshot_witness :
  nth_error
    (Remote.receivables
       (Remote.handleRecordPayment
          (tableClient [Remote.Receivable.mk "r1" "invoice 1" 1000 900 "2024-03-01"] [] "r3")
          (remotePayment 50)
          (Remote_changes
             [Remote.receivables_change "UPDATE"
                (Remote.Receivable.mk "r1" "invoice 1" 1000 900 "2024-03-01") EmptyString]
             (Remote.clickPay (Remote.Receivable.mk "r1" "invoice 1" 1000 800 "2024-03-01")
                remoteExample))))
    0
  = Some (Remote.Receivable.mk "r1" "invoice 1" 1000 850 "2024-03-01").
Proof.
  apply (@payment_uses_the_snapshot
           [Remote.receivables_change "UPDATE"
              (Remote.Receivable.mk "r1" "invoice 1" 1000 900 "2024-03-01") EmptyString]
           (Remote.Receivable.mk "r1" "invoice 1" 1000 800 "2024-03-01")
           (Remote.Receivable.mk "r1" "invoice 1" 1000 900 "2024-03-01")
           remoteExample 50
           (tableClient [Remote.Receivable.mk "r1" "invoice 1" 1000 900 "2024-03-01"] [] "r3")
           0%nat); reflexivity.
Defined.

(** ** What the remote handlers do with an error *)

(** X6.  When the collaborator reports an error, a remote handler shows the
    message and changes nothing else: the lists, the open modal and the
    receivable being paid stay as they were, so the user can submit again.
    [handleUpdateItem] is the exception: it shows the message and closes the
    edit modal. *)
Theorem remote_error_is_shown_and_nothing_stored :
  (forall supabase user_id formData (s : Remote.State) message,
     Remote.Response.error
       (Remote.Supabase.insert_revenue supabase
          (Remote.RevenueInsert.mk (Remote.FormData.description formData)
             (Remote.FormData.amount formData) (Remote.FormData.date formData) user_id))
     = Some message ->
     Remote.handleAddRevenue supabase user_id formData s = Remote.alert message s)
  /\
  (forall supabase formData (s : Remote.State) current message,
     Remote.currentReceivable s = Some current ->
     Remote.Response.error
       (Remote.Supabase.update_receivable supabase
          (Remote.paymentPatch current (Remote.FormData.paymentAmount formData))
          (Remote.Receivable.id current))
     = Some message ->
     Remote.handleRecordPayment supabase formData s = Remote.alert message s)
  /\
  (forall supabase id (s : Remote.State) message,
     Remote.Supabase.delete_receivable supabase id = Some message ->
     Remote.handleDeleteReceivable supabase true id s = Remote.alert message s)
  /\
  (forall supabase id (s : Remote.State) message,
     Remote.Supabase.delete_revenue supabase id = Some message ->
     Remote.handleDeleteRevenue supabase true id s = Remote.alert message s)
  /\
  (forall supabase formData (s : Remote.State) item message,
     Remote.editingItem s = Some (Remote.receivable item) ->
     Remote.Response.error
       (Remote.Supabase.update_receivable supabase (Remote.receivableEditPatch formData)
          (Remote.Receivable.id item))
     = Some message ->
     Remote.handleUpdateItem supabase formData s
     = Remote.handleCloseEditModal (Remote.alert message s))
  /\
  (forall supabase formData (s : Remote.State) item message,
     Remote.editingItem s = Some (Remote.revenue item) ->
     Remote.Response.error
       (Remote.Supabase.update_revenue supabase (Remote.revenueEditPatch formData)
          (Remote.Revenue.id item))
     = Some message ->
     Remote.handleUpdateItem supabase formData s
     = Remote.handleCloseEditModal (Remote.alert message s)).
Proof.
  repeat split.
  - intros supabase user_id formData s message E. unfold Remote.handleAddRevenue.
    cbv zeta. now rewrite E.
  - intros supabase formData s current message C E. unfold Remote.handleRecordPayment.
    rewrite C. cbv zeta. now rewrite E.
  - intros supabase id s message E. unfold Remote.handleDeleteReceivable. now rewrite E.
  - intros supabase id s message E. unfold Remote.handleDeleteRevenue. now rewrite E.
  - intros supabase formData s item message C E. unfold Remote.handleUpdateItem.
    rewrite C. cbv zeta. now rewrite E.
  - intros supabase formData s item message C E. unfold Remote.handleUpdateItem.
    rewrite C. cbv zeta. now rewrite E.
Qed.

(** The collaborator holds no row [r1]: a payment on it is refused, the message
    is shown, and the payment form stays open on [r1] with the lists as they
    were. *)
Lemma remote_error_is_shown_and_nothing_stored_witness :
  Remote.handleRecordPayment (tableClient [] [] "r3") (remotePayment 50)
    (Remote.clickPay (Remote.Receivable.mk "r1" "invoice 1" 1000 800 "2024-03-01")
       remoteExample)
  = Remote.mkState Remote.receivables_tab
      [Remote.Receivable.mk "r1" "invoice 1" 1000 800 "2024-03-01";
       Remote.Receivable.mk "r2" "invoice 2" 500 0 "2024-06-01"]
      [Remote.Revenue.mk "v1" "sale" 250 "2024-02-01"]
      false false true None
      (Some (Remote.Receivable.mk "r1" "invoice 1" 1000 800 "2024-03-01"))
      ["no rows returned"%string].
Proof.
  destruct remote_error_is_shown_and_nothing_stored as (_ & P & _).
  rewrite (P (tableClient [] [] "r3") (remotePayment 50)
             (Remote.clickPay (Remote.Receivable.mk "r1" "invoice 1" 1000 800 "2024-03-01")
                remoteExample)
             (Remote.Receivable.mk "r1" "invoice 1" 1000 800 "2024-03-01")
             "no rows returned"%string); reflexivity.
Defined.

(** ** The confirmation of an insert and its echo *)

(** X7.  The add handlers append the confirmed row without looking for its id,
    while an [INSERT] notification looks for it.  So when the confirmation
    comes first and the echo second the row is stored once, and when the echo
    comes first and the confirmation second the row is stored twice. *)
Theorem confirmation_and_echo_order :
  (forall supabase user_id formData (s : Remote.State) (row : Remote.Receivable.t) oldId,
     Remote.Supabase.insert_receivable supabase
       (Remote.ReceivableInsert.mk (Remote.FormData.description formData)
          (Remote.FormData.totalAmount formData) 0 (Remote.FormData.dueDate formData) user_id)
     = Remote.Response.mk (Some row) None ->
     absent Remote.Receivable.id (Remote.Receivable.id row) (Remote.receivables s) ->
     Remote.receivables
       (Remote.handleChanges (Remote.receivables_change "INSERT" row oldId)
          (Remote.handleAddReceivable supabase user_id formData s))
     = Remote.receivables s ++ [row]
     /\
     Remote.receivables
       (Remote.handleAddReceivable supabase user_id formData
          (Remote.handleChanges (Remote.receivables_change "INSERT" row oldId) s))
     = Remote.receivables s ++ [row; row])
  /\
  (forall supabase user_id formData (s : Remote.State) (row : Remote.Revenue.t) oldId,
     Remote.Supabase.insert_revenue supabase
       (Remote.RevenueInsert.mk (Remote.FormData.description formData)
          (Remote.FormData.amount formData) (Remote.FormData.date formData) user_id)
     = Remote.Response.mk (Some row) None ->
     absent Remote.Revenue.id (Remote.Revenue.id row) (Remote.revenues s) ->
     Remote.revenues
       (Remote.handleChanges (Remote.revenues_change "INSERT" row oldId)
          (Remote.handleAddRevenue supabase user_id formData s))
     = Remote.revenues s ++ [row]
     /\
     Remote.revenues
       (Remote.handleAddRevenue supabase user_id formData
          (Remote.handleChanges (Remote.revenues_change "INSERT" row oldId) s))
     = Remote.revenues s ++ [row; row]).
Proof.
  split; intros supabase user_id formData s row oldId E A.
  - unfold Remote.handleAddReceivable. cbv zeta. rewrite E. simpl. split.
    + rewrite (proj2 (existsb_id_present Remote.Receivable.id _ _)); [reflexivity|].
      exists row. split; [apply in_or_app; right; now left | reflexivity].
    + rewrite (existsb_id_absent_false A). now rewrite <- app_assoc.
  - unfold Remote.handleAddRevenue. cbv zeta. rewrite E. simpl. split.
    + rewrite (proj2 (existsb_id_present Remote.Revenue.id _ _)); [reflexivity|].
      exists row. split; [apply in_or_app; right; now left | reflexivity].
    + rewrite (existsb_id_absent_false A). now rewrite <- app_assoc.
Qed.

Lemma confirmation_and_echo_order_witness :
  map Remote.Receivable.id
    (Remote.receivables
       (Remote.handleChanges
          (Remote.receivables_change "INSERT"
             (Remote.Receivable.mk "r3" "goods" 5 0 "2024-05-01") EmptyString)
          (Remote.handleAddReceivable (clientOf remoteExample "r3") "user"
             (remoteEdit "goods" 5 "2024-05-01") remoteExample)))
  = ["r1"; "r2"; "r3"]%string
  /\
  map Remote.Receivable.id
    (Remote.receivables
       (Remote.handleAddReceivable (clientOf remoteExample "r3") "user"
          (remoteEdit "goods" 5 "2024-05-01")
          (Remote.handleChanges
             (Remote.receivables_change "INSERT"
                (Remote.Receivable.mk "r3" "goods" 5 0 "2024-05-01") EmptyString)
             remoteExample)))
  = ["r1"; "r2"; "r3"; "r3"]%string.
Proof.
  destruct (proj1 confirmation_and_echo_order (clientOf remoteExample "r3") "user"%string
              (remoteEdit "goods" 5 "2024-05-01") remoteExample
              (Remote.Receivable.mk "r3" "goods" 5 0 "2024-05-01") EmptyString) as [H1 H2].
  - reflexivity.
  - intros r [<-|[<-|[]]]; simpl; discriminate.
  - rewrite H1, H2. split; reflexivity.
Defined.

(** ** The order of revenues *)

(** X8.  The projected list of revenues is a permutation of the stored list
    with the latest date first; revenues with the same date keep their store
    order.  This holds in the local variant for lists whose dates are valid
    dates, and in the remote variant for lists whose dates are valid or missing,
    where a revenue without date stands behind every dated one. *)
Theorem sortedRevenues_order :
  (forall (getTime : string -> option Z) (l : list Local.Revenue.t),
     Forall (Local_revenue_dated getTime) l ->
     Permutation l (Local.sortedRevenues getTime l)
     /\ StronglySorted (Local_revenue_in_order getTime) (Local.sortedRevenues getTime l)
     /\ (forall k, Local_revenue_dated getTime k ->
           filter (Local_revenue_same_key getTime k) (Local.sortedRevenues getTime l)
           = filter (Local_revenue_same_key getTime k) l))
  /\
  (forall (getTime : string -> option Z) (l : list Remote.Revenue.t),
     Forall (Remote_revenue_missing_or_dated getTime) l ->
     Permutation l (Remote.sortedRevenues getTime l)
     /\ StronglySorted (Remote_revenue_in_order getTime) (Remote.sortedRevenues getTime l)
     /\ (forall k, Remote_revenue_missing_or_dated getTime k ->
           filter (Remote_revenue_same_key getTime k) (Remote.sortedRevenues getTime l)
           = filter (Remote_revenue_same_key getTime k) l)).
Proof.
  split; intros getTime l Hl.
  - unfold Local.sortedRevenues.
    pose proof (sort_permutation (Local.compareRevenues getTime) l) as P.
    assert (Hs : Forall (Local_revenue_dated getTime)
                   (JS.sort (Local.compareRevenues getTime) l))
      by (eapply Permutation_Forall; eauto).
    split; [exact P|]. split.
    + apply StronglySorted_weaken
        with (R := ordered_by (Local.compareRevenues getTime))
             (ok := Local_revenue_dated getTime).
      * apply Local_revenue_ordered_in_order.
      * exact Hs.
      * apply (@sort_ordered _ _ (Local_revenue_dated getTime)
                 (@Local_revenue_precedes_irrefl getTime)
                 (@Local_revenue_precedes_trans getTime)
                 (@Local_revenue_precedes_negtrans getTime)).
        exact Hl.
    + intros k Hk.
      rewrite (filter_ext_in (Local_revenue_same_key getTime k)
                 (tied_by (Local.compareRevenues getTime) k)
                 (JS.sort (Local.compareRevenues getTime) l)).
      * rewrite (filter_ext_in (Local_revenue_same_key getTime k)
                   (tied_by (Local.compareRevenues getTime) k) l).
        -- apply (@sort_stable _ _ (Local_revenue_dated getTime)
                    (@Local_revenue_precedes_irrefl getTime)
                    (@Local_revenue_precedes_trans getTime)
                    (@Local_revenue_precedes_negtrans getTime)); assumption.
        -- intros x Hx. apply Local_revenue_tied_same_key; auto.
           rewrite Forall_forall in Hl. now apply Hl.
      * intros x Hx. apply Local_revenue_tied_same_key; auto.
        rewrite Forall_forall in Hs. now apply Hs.
  - unfold Remote.sortedRevenues.
    pose proof (sort_permutation (Remote.compareRevenues getTime) l) as P.
    assert (Hs : Forall (Remote_revenue_missing_or_dated getTime)
                   (JS.sort (Remote.compareRevenues getTime) l))
      by (eapply Permutation_Forall; eauto).
    split; [exact P|]. split.
    + apply StronglySorted_weaken
        with (R := ordered_by (Remote.compareRevenues getTime))
             (ok := Remote_revenue_missing_or_dated getTime).
      * apply Remote_revenue_ordered_in_order.
      * exact Hs.
      * apply (@sort_ordered _ _ (Remote_revenue_missing_or_dated getTime)
                 (@Remote_revenue_precedes_irrefl getTime)
                 (@Remote_revenue_precedes_trans getTime)
                 (@Remote_revenue_precedes_negtrans getTime)).
        exact Hl.
    + intros k Hk.
      destruct (JS.falsy (Remote.Revenue.date k)) eqn:Fk.
      * rewrite !filter_none; [reflexivity | |];
          intros x Hx; unfold Remote_revenue_same_key; now rewrite Fk.
      * rewrite (filter_ext_in (Remote_revenue_same_key getTime k)
                   (tied_by (Remote.compareRevenues getTime) k)
                   (JS.sort (Remote.compareRevenues getTime) l)).
        -- rewrite (filter_ext_in (Remote_revenue_same_key getTime k)
                      (tied_by (Remote.compareRevenues getTime) k) l).
           ++ apply (@sort_stable _ _ (Remote_revenue_missing_or_dated getTime)
                       (@Remote_revenue_precedes_irrefl getTime)
                       (@Remote_revenue_precedes_trans getTime)
                       (@Remote_revenue_precedes_negtrans getTime)); assumption.
           ++ intros x Hx. rewrite Remote_revenue_tied_same_key, Fk; auto.
              rewrite Forall_forall in Hl. now apply Hl.
        -- intros x Hx. rewrite Remote_revenue_tied_same_key, Fk; auto.
           rewrite Forall_forall in Hs. now apply Hs.
Qed.

Lemma sortedRevenues_order_witness :
  (Permutation localRevenuesExample (Local.sortedRevenues JS.isoTime localRevenuesExample)
   /\ StronglySorted (Local_revenue_in_order JS.isoTime)
        (Local.sortedRevenues JS.isoTime localRevenuesExample))
  /\
  (Permutation remoteRevenuesExample (Remote.sortedRevenues JS.isoTime remoteRevenuesExample)
   /\ StronglySorted (Remote_revenue_in_order JS.isoTime)
        (Remote.sortedRevenues JS.isoTime remoteRevenuesExample))
  /\
  map Remote.Revenue.id (Remote.sortedRevenues JS.isoTime remoteRevenuesExample)
  = ["y"; "z"; "x"; "w"]%string.
Proof.
  destruct sortedRevenues_order as [L R]. split; [|split; [|vm_compute; reflexivity]].
  - destruct (L JS.isoTime localRevenuesExample) as (P & S & _); [|now split].
    apply Forall_cons; [vm_compute; discriminate|].
    apply Forall_cons; [vm_compute; discriminate|].
    apply Forall_cons; [vm_compute; discriminate|].
    apply Forall_nil.
  - destruct (R JS.isoTime remoteRevenuesExample) as (P & S & _); [|now split].
    apply Forall_cons; [left; reflexivity|].
    apply Forall_cons; [right; vm_compute; discriminate|].
    apply Forall_cons; [right; vm_compute; discriminate|].
    apply Forall_cons; [right; vm_compute; discriminate|].
    apply Forall_nil.
Defined.

(** ** Summaries *)

(** X9.  In both variants the revenues summary of a list is the sum of the
    amounts of its records, provided that no addition on the way is rounded:
    each running sum of the amounts is held by a double. *)
Theorem revenuesSummary_sums :
  (forall l : list Local.Revenue.t,
     summed_exactly (map Local.Revenue.amount l) ->
     Local.revenuesSummary l = sumZ (map Local.Revenue.amount l))
  /\
  (forall l : list Remote.Revenue.t,
     summed_exactly (map Remote.Revenue.amount l) ->
     Remote.revenuesSummary l = sumZ (map Remote.Revenue.amount l)).
Proof.
  split; intros l H.
  - unfold Local.revenuesSummary. now rewrite (fold_add_map_exact _ _ _ H).
  - unfold Remote.revenuesSummary. now rewrite (fold_add_map_exact _ _ _ H).
Qed.

(** Revenues of 10, 20 and 30 add up to 60; with amounts of 2^53, 1 and 1 the
    summary is 2^53, the two last additions being rounded. *)
Lemma revenuesSummary_sums_witness :
  Local.revenuesSummary localRevenuesExample = 60
  /\ Local.revenuesSummary localLargeRevenues = 9007199254740992.
Proof.
  split; [|vm_compute; reflexivity].
  rewrite (proj1 revenuesSummary_sums localRevenuesExample); [reflexivity|].
  apply summed_exactly_map.
  - repeat constructor; simpl; lia.
  - vm_compute. discriminate.
Defined.

Lemma Local_amounts_permuted (l l' : list Local.Receivable.t) :
  Permutation l l' ->
  Forall (fun r => 0 <= Local.Receivable.paidAmount r <= Local.Receivable.totalAmount r) l ->
  sumZ (map Local.Receivable.totalAmount l) <= 2 ^ 53 ->
  Local.receivablesSummary l' = Local.receivablesSummary l.
Proof.
  intros P H B.
  destruct (Local_safe_amounts H B) as (D & T & R).
  assert (H' : Forall (fun r => 0 <= Local.Receivable.paidAmount r
                                <= Local.Receivable.totalAmount r) l')
    by (eapply Permutation_Forall; eauto).
  assert (B' : sumZ (map Local.Receivable.totalAmount l') <= 2 ^ 53)
    by (now rewrite <- (sumZ_permutation Local.Receivable.totalAmount P)).
  destruct (Local_safe_amounts H' B') as (D' & T' & R').
  rewrite (Local_receivablesSummary_as_sums D T R),
    (Local_receivablesSummary_as_sums D' T' R').
  now rewrite (sumZ_permutation Local.Receivable.totalAmount P),
    (sumZ_permutation Local_remaining P).
Qed.

Lemma Remote_amounts_permuted (l l' : list Remote.Receivable.t) :
  Permutation l l' ->
  Forall (fun r => 0 <= Remote.Receivable.paid_amount r <= Remote.Receivable.total_amount r)
         l ->
  sumZ (map Remote.Receivable.total_amount l) <= 2 ^ 53 ->
  Remote.receivablesSummary l' = Remote.receivablesSummary l.
Proof.
  intros P H B.
  destruct (Remote_safe_amounts H B) as (D & T & R).
  assert (H' : Forall (fun r => 0 <= Remote.Receivable.paid_amount r
                                <= Remote.Receivable.total_amount r) l')
    by (eapply Permutation_Forall; eauto).
  assert (B' : sumZ (map Remote.Receivable.total_amount l') <= 2 ^ 53)
    by (now rewrite <- (sumZ_permutation Remote.Receivable.total_amount P)).
  destruct (Remote_safe_amounts H' B') as (D' & T' & R').
  rewrite (Remote_receivablesSummary_as_sums D T R),
    (Remote_receivablesSummary_as_sums D' T' R').
  now rewrite (sumZ_permutation Remote.Receivable.total_amount P),
    (sumZ_permutation Remote_remaining P).
Qed.

Lemma revenue_amounts_permuted {A : Type} (amount : A -> Z) (l l' : list A) :
  Permutation l l' ->
  Forall (fun v => 0 <= amount v) l ->
  sumZ (map amount l) <= 2 ^ 53 ->
  fold_left (fun acc curr => JS.add acc (amount curr)) l' 0
  = fold_left (fun acc curr => JS.add acc (amount curr)) l 0.
Proof.
  intros P H B.
  assert (H' : Forall (fun v => 0 <= amount v) l') by (eapply Permutation_Forall; eauto).
  assert (B' : sumZ (map amount l') <= 2 ^ 53) by (now rewrite <- (sumZ_permutation amount P)).
  rewrite (fold_add_map_exact amount l 0 (summed_exactly_map amount H B)).
  rewrite (fold_add_map_exact amount l' 0 (summed_exactly_map amount H' B')).
  now rewrite (sumZ_permutation amount P).
Qed.

(** X10.  While the amounts are not negative, no paid amount exceeds its
    total, and the totals (the revenue amounts) add up to 2^53 at most, the
    summaries do not depend on the order of the records: computed on the
    projected (sorted) list they are what they are on the stored list, whatever
    the dates are.  (Beyond that range the additions are rounded, and the order
    can matter.) *)
Theorem summaries_of_sorted_lists :
  (forall getTime (l : list Local.Receivable.t),
     Forall (fun r => 0 <= Local.Receivable.paidAmount r <= Local.Receivable.totalAmount r)
            l ->
     sumZ (map Local.Receivable.totalAmount l) <= 2 ^ 53 ->
     Local.receivablesSummary (Local.sortedReceivables getTime l)
     = Local.receivablesSummary l)
  /\ (forall getTime (l : list Local.Revenue.t),
     Forall (fun v => 0 <= Local.Revenue.amount v) l ->
     sumZ (map Local.Revenue.amount l) <= 2 ^ 53 ->
     Local.revenuesSummary (Local.sortedRevenues getTime l) = Local.revenuesSummary l)
  /\ (forall getTime (l : list Remote.Receivable.t),
     Forall (fun r => 0 <= Remote.Receivable.paid_amount r <= Remote.Receivable.total_amount r)
            l ->
     sumZ (map Remote.Receivable.total_amount l) <= 2 ^ 53 ->
     Remote.receivablesSummary (Remote.sortedReceivables getTime l)
     = Remote.receivablesSummary l)
  /\ (forall getTime (l : list Remote.Revenue.t),
     Forall (fun v => 0 <= Remote.Revenue.amount v) l ->
     sumZ (map Remote.Revenue.amount l) <= 2 ^ 53 ->
     Remote.revenuesSummary (Remote.sortedRevenues getTime l) = Remote.revenuesSummary l).
Proof.
  split; [|split; [|split]]; intros getTime l H B.
  - apply Local_amounts_permuted; [apply sort_permutation | exact H | exact B].
  - apply (revenue_amounts_permuted Local.Revenue.amount); [apply sort_permutation | exact H | exact B].
  - apply Remote_amounts_permuted; [apply sort_permutation | exact H | exact B].
  - apply (revenue_amounts_permuted Remote.Revenue.amount); [apply sort_permutation | exact H | exact B].
Qed.

(** The revenues of 10, 20 and 30 add up to 60 in store order and in projected
    order.  The revenues of 2^53, 1 and 1 add up to 2^53 in store order and to
    2^53 + 2 in projected order (latest first). *)
Lemma summaries_of_sorted_lists_witness :
  Local.revenuesSummary (Local.sortedRevenues JS.isoTime localRevenuesExample)
  = Local.revenuesSummary localRevenuesExample
  /\ Local.revenuesSummary localLargeRevenues = 9007199254740992
  /\ Local.revenuesSummary (Local.sortedRevenues JS.isoTime localLargeRevenues)
     = 9007199254740994.
Proof.
  split; [|split; vm_compute; reflexivity].
  apply (proj1 (proj2 summaries_of_sorted_lists)).
  - repeat constructor; simpl; lia.
  - vm_compute. discriminate.
Defined.

Lemma Local_summary_bounds (l : list Local.Receivable.t) (acc : Local.Summary.t) :
  0 <= Local.Summary.remaining acc <= Local.Summary.total acc ->
  Forall (fun r => JS.isDouble (Local.Receivable.totalAmount r) = true
                   /\ 0 <= Local.Receivable.paidAmount r <= Local.Receivable.totalAmount r)
         l ->
  0 <= Local.Summary.remaining
         (fold_left
            (fun acc curr =>
               Local.Summary.mk
                 (JS.add (Local.Summary.total acc) (Local.Receivable.totalAmount curr))
                 (JS.add (Local.Summary.remaining acc)
                         (JS.subtract (Local.Receivable.totalAmount curr)
                                      (Local.Receivable.paidAmount curr))))
            l acc)
    <= Local.Summary.total
         (fold_left
            (fun acc curr =>
               Local.Summary.mk
                 (JS.add (Local.Summary.total acc) (Local.Receivable.totalAmount curr))
                 (JS.add (Local.Summary.remaining acc)
                         (JS.subtract (Local.Receivable.totalAmount curr)
                                      (Local.Receivable.paidAmount curr))))
            l acc).
Proof.
  intros Hacc H. revert acc Hacc.
  induction H as [|r l (D & Hr) _ IH]; intros acc Hacc; simpl; [exact Hacc|].
  apply IH. simpl. apply isDouble_spec in D. destruct D as [E _].
  assert (S0 : 0 <= JS.subtract (Local.Receivable.totalAmount r) (Local.Receivable.paidAmount r)).
  { change 0 with (JS.round 0) at 1. apply round_monotone. lia. }
  assert (S1 : JS.subtract (Local.Receivable.totalAmount r) (Local.Receivable.paidAmount r)
               <= Local.Receivable.totalAmount r).
  { rewrite <- E at 2. apply round_monotone. lia. }
  split; [apply add_nonnegative; lia | apply add_monotone; lia].
Qed.

Lemma Remote_summary_bounds (l : list Remote.Receivable.t) (acc : Remote.Summary.t) :
  0 <= Remote.Summary.remaining acc <= Remote.Summary.total acc ->
  Forall (fun r => JS.isDouble (Remote.Receivable.total_amount r) = true
                   /\ 0 <= Remote.Receivable.paid_amount r <= Remote.Receivable.total_amount r)
         l ->
  0 <= Remote.Summary.remaining
         (fold_left
            (fun acc curr =>
               Remote.Summary.mk
                 (JS.add (Remote.Summary.total acc) (Remote.Receivable.total_amount curr))
                 (JS.add (Remote.Summary.remaining acc)
                         (JS.subtract (Remote.Receivable.total_amount curr)
                                      (Remote.Receivable.paid_amount curr))))
            l acc)
    <= Remote.Summary.total
         (fold_left
            (fun acc curr =>
               Remote.Summary.mk
                 (JS.add (Remote.Summary.total acc) (Remote.Receivable.total_amount curr))
                 (JS.add (Remote.Summary.remaining acc)
                         (JS.subtract (Remote.Receivable.total_amount curr)
                                      (Remote.Receivable.paid_amount curr))))
            l acc).
Proof.
  intros Hacc H. revert acc Hacc.
  induction H as [|r l (D & Hr) _ IH]; intros acc Hacc; simpl; [exact Hacc|].
  apply IH. simpl. apply isDouble_spec in D. destruct D as [E _].
  assert (S0 : 0 <= JS.subtract (Remote.Receivable.total_amount r)
                      (Remote.Receivable.paid_amount r)).
  { change 0 with (JS.round 0) at 1. apply round_monotone. lia. }
  assert (S1 : JS.subtract (Remote.Receivable.total_amount r) (Remote.Receivable.paid_amount r)
               <= Remote.Receivable.total_amount r).
  { rewrite <- E at 2. apply round_monotone. lia. }
  split; [apply add_nonnegative; lia | apply add_monotone; lia].
Qed.

(** X11.  When every receivable of a list has a total amount that is a double
    and a paid amount between 0 and its total amount, the remaining amount of
    the summary lies between 0 and the total of the summary, whatever was
    rounded on the way. *)
Theorem receivablesSummary_bounds :
  (forall l : list Local.Receivable.t,
     Forall (fun r => JS.isDouble (Local.Receivable.totalAmount r) = true
                      /\ 0 <= Local.Receivable.paidAmount r <= Local.Receivable.totalAmount r)
            l ->
     0 <= Local.Summary.remaining (Local.receivablesSummary l)
       <= Local.Summary.total (Local.receivablesSummary l))
  /\
  (forall l : list Remote.Receivable.t,
     Forall (fun r => JS.isDouble (Remote.Receivable.total_amount r) = true
                      /\ 0 <= Remote.Receivable.paid_amount r
                         <= Remote.Receivable.total_amount r)
            l ->
     0 <= Remote.Summary.remaining (Remote.receivablesSummary l)
       <= Remote.Summary.total (Remote.receivablesSummary l)).
Proof.
  split; intros l H.
  - apply Local_summary_bounds; [simpl; lia | exact H].
  - apply Remote_summary_bounds; [simpl; lia | exact H].
Qed.

(** The example stores, and the receivables with totals of 2^53 and 1, where
    the summary is rounded. *)
Lemma receivablesSummary_bounds_witness :
  0 <= Local.Summary.remaining (Local.receivablesSummary (Local.receivables localExample))
    <= Local.Summary.total (Local.receivablesSummary (Local.receivables localExample))
  /\
  0 <= Remote.Summary.remaining (Remote.receivablesSummary (Remote.receivables remoteExample))
    <= Remote.Summary.total (Remote.receivablesSummary (Remote.receivables remoteExample))
  /\
  0 <= Local.Summary.remaining (Local.receivablesSummary localLargeTotals)
    <= Local.Summary.total (Local.receivablesSummary localLargeTotals).
Proof.
  destruct receivablesSummary_bounds as [L R]. split; [|split].
  - apply L. simpl. repeat constructor; simpl; lia.
  - apply R. simpl. repeat constructor; simpl; lia.
  - apply L. unfold localLargeTotals. repeat constructor; simpl; lia.
Defined.

(** ** A payment that the form accepts *)

(** What the payment form lets through: an amount between 0 and the
    remaining amount of the receivable whose pay button was pressed. *)
Lemma Local_paymentForm_accepts (r : Local.Receivable.t) (form : Form.Payment.t)
    (formData : Local.FormData.t) :
  Local.paymentFormData (Some r) form = Some formData ->
  JS.isDouble (Local.FormData.paymentAmount formData) = true
  /\ 0 <= Local.FormData.paymentAmount formData
       <= JS.subtract (Local.Receivable.totalAmount r) (Local.Receivable.paidAmount r).
Proof.
  unfold Local.paymentFormData, Local.paymentFormValid.
  destruct (Form.valueAsNumber (Form.Payment.paymentAmount form)) as [value|] eqn:V;
    [|discriminate].
  destruct (0 <=? value) eqn:V1; [|discriminate].
  destruct (value <=? JS.subtract _ _) eqn:V2; [|discriminate].
  simpl. intros [= <-]. simpl. apply Z.leb_le in V1, V2.
  split; [exact (valueAsNumber_double _ V) | lia].
Qed.

Lemma Remote_paymentForm_accepts (r : Remote.Receivable.t) (form : Form.Payment.t)
    (formData : Remote.FormData.t) :
  Remote.paymentFormData (Some r) form = Some formData ->
  JS.isDouble (Remote.FormData.paymentAmount formData) = true
  /\ 0 <= Remote.FormData.paymentAmount formData
       <= JS.subtract (Remote.Receivable.total_amount r) (Remote.Receivable.paid_amount r).
Proof.
  unfold Remote.paymentFormData, Remote.paymentFormValid.
  destruct (Form.valueAsNumber (Form.Payment.paymentAmount form)) as [value|] eqn:V;
    [|discriminate].
  destruct (0 <=? value) eqn:V1; [|discriminate].
  destruct (value <=? JS.subtract _ _) eqn:V2; [|discriminate].
  simpl. intros [= <-]. simpl. apply Z.leb_le in V1, V2.
  split; [exact (valueAsNumber_double _ V) | lia].
Qed.

(** Within 2^53 an accepted payment fits below the total and is added without
    rounding. *)
Lemma accepted_amount_fits (total paid amount : Z) :
  0 <= paid <= total -> total <= 2 ^ 53 ->
  0 <= amount <= JS.subtract total paid ->
  Z.min total (JS.add paid amount) = paid + amount /\ paid + amount <= total.
Proof.
  intros H B Ha.
  rewrite subtract_exact in Ha by (apply isDouble_safe; lia).
  rewrite add_exact by (apply isDouble_safe; lia). lia.
Qed.

Lemma Local_accepted_payment_receivables (s : Local.State) l1 (r : Local.Receivable.t) l2
    (form : Form.Payment.t) (formData : Local.FormData.t) :
  Local.receivables s = l1 ++ r :: l2 ->
  NoDup (map Local.Receivable.id (Local.receivables s)) ->
  0 <= Local.Receivable.paidAmount r <= Local.Receivable.totalAmount r ->
  Local.Receivable.totalAmount r <= 2 ^ 53 ->
  Local.paymentFormData (Some r) form = Some formData ->
  Local.receivables (Local.submitPaymentForm form (Local.clickPay r s))
  = l1 ++ Local.Receivable.mk (Local.Receivable.id r) (Local.Receivable.description r)
            (Local.Receivable.totalAmount r)
            (Local.Receivable.paidAmount r + Local.FormData.paymentAmount formData)
            (Local.Receivable.dueDate r) :: l2.
Proof.
  intros E ND H B V. unfold Local.submitPaymentForm. simpl. rewrite V.
  rewrite (@Local_handleRecordPayment_receivables formData (Local.clickPay r s) r eq_refl).
  simpl. rewrite E in *.
  destruct (Local_paymentForm_accepts r form V) as [_ Ha].
  destruct (accepted_amount_fits H B Ha) as [M _].
  rewrite <- (@map_replace_at _ Local.Receivable.id l1 l2 r
                (Local.Receivable.mk (Local.Receivable.id r) (Local.Receivable.description r)
                   (Local.Receivable.totalAmount r)
                   (Local.Receivable.paidAmount r + Local.FormData.paymentAmount formData)
                   (Local.Receivable.dueDate r)) ND).
  apply map_ext_in. intros x Hx.
  destruct (String.eqb_spec (Local.Receivable.id x) (Local.Receivable.id r)) as [Eid|_];
    [|reflexivity].
  assert (x = r).
  { eapply NoDup_map_injective_in; eauto. apply in_or_app. right. now left. }
  subst x. now rewrite M.
Qed.

Lemma Remote_accepted_payment_receivables (supabase : Remote.Supabase.t) (s : Remote.State)
    l1 (r : Remote.Receivable.t) l2 (form : Form.Payment.t) (formData : Remote.FormData.t) :
  Remote.receivables s = l1 ++ r :: l2 ->
  NoDup (map Remote.Receivable.id (Remote.receivables s)) ->
  0 <= Remote.Receivable.paid_amount r <= Remote.Receivable.total_amount r ->
  Remote.Receivable.total_amount r <= 2 ^ 53 ->
  Remote.paymentFormData (Some r) form = Some formData ->
  Remote.Supabase.update_receivable supabase
    (Remote.paymentPatch r (Remote.FormData.paymentAmount formData)) (Remote.Receivable.id r)
  = Remote.Response.mk
      (Some (Remote.ReceivablePatch.apply
               (Remote.paymentPatch r (Remote.FormData.paymentAmount formData)) r))
      None ->
  Remote.receivables (Remote.submitPaymentForm supabase form (Remote.clickPay r s))
  = l1 ++ Remote.Receivable.mk (Remote.Receivable.id r) (Remote.Receivable.description r)
            (Remote.Receivable.total_amount r)
            (Remote.Receivable.paid_amount r + Remote.FormData.paymentAmount formData)
            (Remote.Receivable.due_date r) :: l2.
Proof.
  intros E ND H B V Hresp. unfold Remote.submitPaymentForm. simpl. rewrite V.
  rewrite (@Remote_handleRecordPayment_confirmed supabase formData (Remote.clickPay r s) r _
             eq_refl Hresp).
  simpl. rewrite E in *.
  destruct (Remote_paymentForm_accepts r form V) as [_ Ha].
  destruct (accepted_amount_fits H B Ha) as [M _].
  rewrite (map_replace_at Remote.Receivable.id l1 l2 r _ ND).
  unfold Remote.ReceivablePatch.apply, Remote.paymentPatch. simpl.
  now rewrite M.
Qed.

(** X12.  The pay button of a stored receivable is pressed and its payment
    form is submitted at once, with an amount that the form accepts (between 0
    and the remaining amount).  When the paid amount of the receivable lies
    between 0 and its total and the total is 2^53 at most, the payment is added
    in full to the paid amount; every other record, the order and the other
    fields stay, and the payment form is closed.  (Ids are unique; in the remote
    variant the collaborator confirms the update on that record.) *)
Theorem accepted_payment_is_added_in_full :
  (forall (s : Local.State) l1 (r : Local.Receivable.t) l2 (form : Form.Payment.t)
          (formData : Local.FormData.t),
     Local.receivables s = l1 ++ r :: l2 ->
     NoDup (map Local.Receivable.id (Local.receivables s)) ->
     0 <= Local.Receivable.paidAmount r <= Local.Receivable.totalAmount r ->
     Local.Receivable.totalAmount r <= 2 ^ 53 ->
     Local.paymentFormData (Some r) form = Some formData ->
     Local.receivables (Local.submitPaymentForm form (Local.clickPay r s))
     = l1 ++ Local.Receivable.mk (Local.Receivable.id r) (Local.Receivable.description r)
               (Local.Receivable.totalAmount r)
               (Local.Receivable.paidAmount r + Local.FormData.paymentAmount formData)
               (Local.Receivable.dueDate r) :: l2
     /\ Local.isPaymentModalOpen (Local.submitPaymentForm form (Local.clickPay r s))
        = false
     /\ Local.currentReceivable (Local.submitPaymentForm form (Local.clickPay r s))
        = None)
  /\
  (forall (supabase : Remote.Supabase.t) (s : Remote.State) l1 (r : Remote.Receivable.t) l2
          (form : Form.Payment.t) (formData : Remote.FormData.t),
     Remote.receivables s = l1 ++ r :: l2 ->
     NoDup (map Remote.Receivable.id (Remote.receivables s)) ->
     0 <= Remote.Receivable.paid_amount r <= Remote.Receivable.total_amount r ->
     Remote.Receivable.total_amount r <= 2 ^ 53 ->
     Remote.paymentFormData (Some r) form = Some formData ->
     Remote.Supabase.update_receivable supabase
       (Remote.paymentPatch r (Remote.FormData.paymentAmount formData))
       (Remote.Receivable.id r)
     = Remote.Response.mk
         (Some (Remote.ReceivablePatch.apply
                  (Remote.paymentPatch r (Remote.FormData.paymentAmount formData)) r))
         None ->
     Remote.receivables (Remote.submitPaymentForm supabase form (Remote.clickPay r s))
     = l1 ++ Remote.Receivable.mk (Remote.Receivable.id r) (Remote.Receivable.description r)
               (Remote.Receivable.total_amount r)
               (Remote.Receivable.paid_amount r + Remote.FormData.paymentAmount formData)
               (Remote.Receivable.due_date r) :: l2
     /\ Remote.isPaymentModalOpen
          (Remote.submitPaymentForm supabase form (Remote.clickPay r s))
        = false
     /\ Remote.currentReceivable
          (Remote.submitPaymentForm supabase form (Remote.clickPay r s))
        = None).
Proof.
  split.
  - intros s l1 r l2 form formData E ND H B V.
    split; [now apply Local_accepted_payment_receivables|].
    unfold Local.submitPaymentForm. simpl. rewrite V. now split.
  - intros supabase s l1 r l2 form formData E ND H B V Hresp.
    split; [now apply Remote_accepted_payment_receivables|].
    unfold Remote.submitPaymentForm, Remote.handleRecordPayment. simpl. rewrite V.
    simpl. rewrite Hresp. now split.
Qed.

(** Paying the remaining 200 of [r1] settles it: paid 1000 of 1000. *)
Lemma accepted_payment_is_added_in_full_witness :
  Local.receivables
    (Local.submitPaymentForm (Form.Payment.mk (Some 200))
       (Local.clickPay (Local.Receivable.mk "r1" "invoice 1" 1000 800 "2024-03-01")
          localExample))
  = [Local.Receivable.mk "r1" "invoice 1" 1000 1000 "2024-03-01";
     Local.Receivable.mk "r2" "invoice 2" 500 0 "2024-06-01"]
  /\
  Remote.receivables
    (Remote.submitPaymentForm (clientOf remoteExample "r3") (Form.Payment.mk (Some 200))
       (Remote.clickPay (Remote.Receivable.mk "r1" "invoice 1" 1000 800 "2024-03-01")
          remoteExample))
  = [Remote.Receivable.mk "r1" "invoice 1" 1000 1000 "2024-03-01";
     Remote.Receivable.mk "r2" "invoice 2" 500 0 "2024-06-01"].
Proof.
  destruct accepted_payment_is_added_in_full as [L R]. split.
  - apply (L localExample [] (Local.Receivable.mk "r1" "invoice 1" 1000 800 "2024-03-01")
             [Local.Receivable.mk "r2" "invoice 2" 500 0 "2024-06-01"]
             (Form.Payment.mk (Some 200))
             (Local.FormData.mk EmptyString 0 EmptyString 0 EmptyString 200)).
    + reflexivity.
    + simpl. repeat constructor; simpl; intuition discriminate.
    + simpl. lia.
    + vm_compute. discriminate.
    + reflexivity.
  - apply (R (clientOf remoteExample "r3") remoteExample []
             (Remote.Receivable.mk "r1" "invoice 1" 1000 800 "2024-03-01")
             [Remote.Receivable.mk "r2" "invoice 2" 500 0 "2024-06-01"]
             (Form.Payment.mk (Some 200))
             (Remote.FormData.mk EmptyString 0 EmptyString 0 EmptyString 200)).
    + reflexivity.
    + simpl. repeat constructor; simpl; intuition discriminate.
    + simpl. lia.
    + vm_compute. discriminate.
    + reflexivity.
    + reflexivity.
Defined.

Lemma Local_amounts_after_payment l1 (r : Local.Receivable.t) l2 (amount : Z) :
  Forall (fun r => 0 <= Local.Receivable.paidAmount r <= Local.Receivable.totalAmount r)
         (l1 ++ r :: l2) ->
  0 <= amount -> Local.Receivable.paidAmount r + amount <= Local.Receivable.totalAmount r ->
  Forall (fun r => 0 <= Local.Receivable.paidAmount r <= Local.Receivable.totalAmount r)
         (l1 ++ Local.Receivable.mk (Local.Receivable.id r) (Local.Receivable.description r)
                  (Local.Receivable.totalAmount r) (Local.Receivable.paidAmount r + amount)
                  (Local.Receivable.dueDate r) :: l2).
Proof.
  intros H Ha Hb. apply Forall_app in H. destruct H as [H1 H2].
  inversion H2 as [|? ? Hr H3]; subst.
  apply Forall_app. split; [exact H1|]. constructor; [simpl; lia | exact H3].
Qed.

Lemma Remote_amounts_after_payment l1 (r : Remote.Receivable.t) l2 (amount : Z) :
  Forall (fun r => 0 <= Remote.Receivable.paid_amount r <= Remote.Receivable.total_amount r)
         (l1 ++ r :: l2) ->
  0 <= amount -> Remote.Receivable.paid_amount r + amount <= Remote.Receivable.total_amount r ->
  Forall (fun r => 0 <= Remote.Receivable.paid_amount r <= Remote.Receivable.total_amount r)
         (l1 ++ Remote.Receivable.mk (Remote.Receivable.id r) (Remote.Receivable.description r)
                  (Remote.Receivable.total_amount r) (Remote.Receivable.paid_amount r + amount)
                  (Remote.Receivable.due_date r) :: l2).
Proof.
  intros H Ha Hb. apply Forall_app in H. destruct H as [H1 H2].
  inversion H2 as [|? ? Hr H3]; subst.
  apply Forall_app. split; [exact H1|]. constructor; [simpl; lia | exact H3].
Qed.

(** X13.  While no paid amount is negative or above its total and the totals
    add up to 2^53 at most: after a payment that the form accepts, made on a
    stored receivable at once after its pay button was pressed, the total of the
    receivables summary is what it was and its remaining amount is lower by the
    amount paid.  (Ids are unique; in the remote variant the collaborator
    confirms the update on that record.) *)
Theorem accepted_payment_lowers_remaining :
  (forall (s : Local.State) l1 (r : Local.Receivable.t) l2 (form : Form.Payment.t)
          (formData : Local.FormData.t),
     Local.receivables s = l1 ++ r :: l2 ->
     NoDup (map Local.Receivable.id (Local.receivables s)) ->
     Forall (fun r => 0 <= Local.Receivable.paidAmount r <= Local.Receivable.totalAmount r)
            (Local.receivables s) ->
     sumZ (map Local.Receivable.totalAmount (Local.receivables s)) <= 2 ^ 53 ->
     Local.paymentFormData (Some r) form = Some formData ->
     Local.receivablesSummary
       (Local.receivables (Local.submitPaymentForm form (Local.clickPay r s)))
     = Local.Summary.mk
         (Local.Summary.total (Local.receivablesSummary (Local.receivables s)))
         (Local.Summary.remaining (Local.receivablesSummary (Local.receivables s))
          - Local.FormData.paymentAmount formData))
  /\
  (forall (supabase : Remote.Supabase.t) (s : Remote.State) l1 (r : Remote.Receivable.t) l2
          (form : Form.Payment.t) (formData : Remote.FormData.t),
     Remote.receivables s = l1 ++ r :: l2 ->
     NoDup (map Remote.Receivable.id (Remote.receivables s)) ->
     Forall (fun r => 0 <= Remote.Receivable.paid_amount r
                      <= Remote.Receivable.total_amount r)
            (Remote.receivables s) ->
     sumZ (map Remote.Receivable.total_amount (Remote.receivables s)) <= 2 ^ 53 ->
     Remote.paymentFormData (Some r) form = Some formData ->
     Remote.Supabase.update_receivable supabase
       (Remote.paymentPatch r (Remote.FormData.paymentAmount formData))
       (Remote.Receivable.id r)
     = Remote.Response.mk
         (Some (Remote.ReceivablePatch.apply
                  (Remote.paymentPatch r (Remote.FormData.paymentAmount formData)) r))
         None ->
     Remote.receivablesSummary
       (Remote.receivables
          (Remote.submitPaymentForm supabase form (Remote.clickPay r s)))
     = Remote.Summary.mk
         (Remote.Summary.total (Remote.receivablesSummary (Remote.receivables s)))
         (Remote.Summary.remaining (Remote.receivablesSummary (Remote.receivables s))
          - Remote.FormData.paymentAmount formData)).
Proof.
  split.
  - intros s l1 r l2 form formData E ND H B V.
    assert (Hr : 0 <= Local.Receivable.paidAmount r <= Local.Receivable.totalAmount r).
    { rewrite E in H. apply Forall_app in H. destruct H as [_ H]. now inversion H. }
    assert (Ht : Forall (fun r => 0 <= Local.Receivable.totalAmount r) (Local.receivables s))
      by (eapply Forall_impl; [|exact H]; simpl; intros x Hx; lia).
    assert (Br : Local.Receivable.totalAmount r <= 2 ^ 53).
    { pose proof (@sumZ_member _ Local.Receivable.totalAmount (Local.receivables s) r Ht) as M.
      assert (Hin : In r (Local.receivables s)) by (rewrite E; apply in_elt).
      specialize (M Hin). lia. }
    rewrite (@Local_accepted_payment_receivables s l1 r l2 form formData E ND Hr Br V).
    destruct (Local_paymentForm_accepts r form V) as [_ Ha].
    destruct (accepted_amount_fits Hr Br Ha) as [_ Hfit].
    destruct (Local_safe_amounts H B) as (D & T & R).
    rewrite (Local_receivablesSummary_as_sums D T R).
    rewrite E in H, B.
    pose proof (Local_amounts_after_payment l1 r l2 H (proj1 Ha) Hfit) as H'.
    assert (B' : sumZ (map Local.Receivable.totalAmount
                         (l1 ++ Local.Receivable.mk (Local.Receivable.id r)
                                  (Local.Receivable.description r)
                                  (Local.Receivable.totalAmount r)
                                  (Local.Receivable.paidAmount r
                                   + Local.FormData.paymentAmount formData)
                                  (Local.Receivable.dueDate r) :: l2)) <= 2 ^ 53).
    { rewrite sumZ_map_app in B |- *. simpl in *. lia. }
    destruct (Local_safe_amounts H' B') as (D' & T' & R').
    rewrite (Local_receivablesSummary_as_sums D' T' R'). rewrite E.
    rewrite !sumZ_map_app. unfold Local_remaining. simpl. f_equal; lia.
  - intros supabase s l1 r l2 form formData E ND H B V Hresp.
    assert (Hr : 0 <= Remote.Receivable.paid_amount r <= Remote.Receivable.total_amount r).
    { rewrite E in H. apply Forall_app in H. destruct H as [_ H]. now inversion H. }
    assert (Ht : Forall (fun r => 0 <= Remote.Receivable.total_amount r)
                   (Remote.receivables s))
      by (eapply Forall_impl; [|exact H]; simpl; intros x Hx; lia).
    assert (Br : Remote.Receivable.total_amount r <= 2 ^ 53).
    { pose proof (@sumZ_member _ Remote.Receivable.total_amount (Remote.receivables s) r Ht)
        as M.
      assert (Hin : In r (Remote.receivables s)) by (rewrite E; apply in_elt).
      specialize (M Hin). lia. }
    rewrite (@Remote_accepted_payment_receivables supabase s l1 r l2 form formData E ND Hr Br
               V Hresp).
    destruct (Remote_paymentForm_accepts r form V) as [_ Ha].
    destruct (accepted_amount_fits Hr Br Ha) as [_ Hfit].
    destruct (Remote_safe_amounts H B) as (D & T & R).
    rewrite (Remote_receivablesSummary_as_sums D T R).
    rewrite E in H, B.
    pose proof (Remote_amounts_after_payment l1 r l2 H (proj1 Ha) Hfit) as H'.
    assert (B' : sumZ (map Remote.Receivable.total_amount
                         (l1 ++ Remote.Receivable.mk (Remote.Receivable.id r)
                                  (Remote.Receivable.description r)
                                  (Remote.Receivable.total_amount r)
                                  (Remote.Receivable.paid_amount r
                                   + Remote.FormData.paymentAmount formData)
                                  (Remote.Receivable.due_date r) :: l2)) <= 2 ^ 53).
    { rewrite sumZ_map_app in B |- *. simpl in *. lia. }
    destruct (Remote_safe_amounts H' B') as (D' & T' & R').
    rewrite (Remote_receivablesSummary_as_sums D' T' R'). rewrite E.
    rewrite !sumZ_map_app. unfold Remote_remaining. simpl. f_equal; lia.
Qed.

(** The example stores have total 1500 and remaining 700; after a payment of
    150 on [r1] the remaining amount is 550. *)
Lemma accepted_payment_lowers_remaining_witness :
  Local.receivablesSummary
    (Local.receivables
       (Local.submitPaymentForm (Form.Payment.mk (Some 150))
          (Local.clickPay (Local.Receivable.mk "r1" "invoice 1" 1000 800 "2024-03-01")
             localExample)))
  = Local.Summary.mk 1500 550.
Proof.
  apply (proj1 accepted_payment_lowers_remaining localExample []
           (Local.Receivable.mk "r1" "invoice 1" 1000 800 "2024-03-01")
           [Local.Receivable.mk "r2" "invoice 2" 500 0 "2024-06-01"]
           (Form.Payment.mk (Some 150))
           (Local.FormData.mk EmptyString 0 EmptyString 0 EmptyString 150)).
  - reflexivity.
  - simpl. repeat constructor; simpl; intuition discriminate.
  - simpl. repeat constructor; simpl; lia.
  - vm_compute. discriminate.
  - reflexivity.
Defined.

(** ** Adding and then deleting *)

(** X14.  A record that was added under an id the list did not hold, and is
    then deleted by that id, leaves both lists as they were before the two
    steps.  (In the remote variant the collaborator confirms the insert with a
    row under such an id and reports no error for the delete.) *)
Theorem add_then_delete_restores_lists :
  ((forall (uuid : string) (formData : Local.FormData.t) (s : Local.State),
      absent Local.Receivable.id uuid (Local.receivables s) ->
      Local.receivables
        (Local.handleDeleteReceivable true uuid (Local.handleAddReceivable uuid formData s))
      = Local.receivables s
      /\ Local.revenues
           (Local.handleDeleteReceivable true uuid (Local.handleAddReceivable uuid formData s))
         = Local.revenues s)
   /\ (forall (uuid : string) (formData : Local.FormData.t) (s : Local.State),
      absent Local.Revenue.id uuid (Local.revenues s) ->
      Local.revenues
        (Local.handleDeleteRevenue true uuid (Local.handleAddRevenue uuid formData s))
      = Local.revenues s
      /\ Local.receivables
           (Local.handleDeleteRevenue true uuid (Local.handleAddRevenue uuid formData s))
         = Local.receivables s))
  /\
  ((forall (supabase later : Remote.Supabase.t) (user_id : string)
           (formData : Remote.FormData.t) (s : Remote.State) (row : Remote.Receivable.t),
      Remote.Supabase.insert_receivable supabase
        (Remote.ReceivableInsert.mk (Remote.FormData.description formData)
           (Remote.FormData.totalAmount formData) 0 (Remote.FormData.dueDate formData) user_id)
      = Remote.Response.mk (Some row) None ->
      absent Remote.Receivable.id (Remote.Receivable.id row) (Remote.receivables s) ->
      Remote.Supabase.delete_receivable later (Remote.Receivable.id row) = None ->
      Remote.receivables
        (Remote.handleDeleteReceivable later true (Remote.Receivable.id row)
           (Remote.handleAddReceivable supabase user_id formData s))
      = Remote.receivables s)
   /\ (forall (supabase later : Remote.Supabase.t) (user_id : string)
           (formData : Remote.FormData.t) (s : Remote.State) (row : Remote.Revenue.t),
      Remote.Supabase.insert_revenue supabase
        (Remote.RevenueInsert.mk (Remote.FormData.description formData)
           (Remote.FormData.amount formData) (Remote.FormData.date formData) user_id)
      = Remote.Response.mk (Some row) None ->
      absent Remote.Revenue.id (Remote.Revenue.id row) (Remote.revenues s) ->
      Remote.Supabase.delete_revenue later (Remote.Revenue.id row) = None ->
      Remote.revenues
        (Remote.handleDeleteRevenue later true (Remote.Revenue.id row)
           (Remote.handleAddRevenue supabase user_id formData s))
      = Remote.revenues s)).
Proof.
  split; split.
  - intros uuid formData s A. split; [|reflexivity]. simpl.
    exact (@filter_remove_appended _ Local.Receivable.id (Local.receivables s)
             (Local.Receivable.mk uuid (Local.FormData.description formData)
                (Local.FormData.totalAmount formData) 0 (Local.FormData.dueDate formData)) A).
  - intros uuid formData s A. split; [|reflexivity]. simpl.
    exact (@filter_remove_appended _ Local.Revenue.id (Local.revenues s)
             (Local.Revenue.mk uuid (Local.FormData.description formData)
                (Local.FormData.amount formData) (Local.FormData.date formData)) A).
  - intros supabase later user_id formData s row E A N.
    unfold Remote.handleDeleteReceivable, Remote.handleAddReceivable. cbv zeta.
    rewrite E, N. simpl. now apply filter_remove_appended.
  - intros supabase later user_id formData s row E A N.
    unfold Remote.handleDeleteRevenue, Remote.handleAddRevenue. cbv zeta.
    rewrite E, N. simpl. now apply filter_remove_appended.
Qed.

Lemma add_then_delete_restores_lists_witness :
  Local.receivables
    (Local.handleDeleteReceivable true "u1"
       (Local.handleAddReceivable "u1" (localEdit "goods" 5 "2024-05-01") localExample))
  = Local.receivables localExample.
Proof.
  apply (proj1 (proj1 add_then_delete_restores_lists)).
  intros r [<-|[<-|[]]]; simpl; discriminate.
Defined.

(** ** Editing a revenue *)

(** X15.  Editing a stored revenue replaces its description, amount and date,
    keeps its id and its place, keeps every other revenue and all receivables,
    and closes the edit modal (ids being unique; in the remote variant the
    collaborator confirms the update with the patched row). *)
Theorem updateRevenue_frame :
  (forall (s : Local.State) l1 (item : Local.Revenue.t) l2 (formData : Local.FormData.t),
     Local.revenues s = l1 ++ item :: l2 ->
     NoDup (map Local.Revenue.id (Local.revenues s)) ->
     Local.revenues
       (Local.handleUpdateItem formData (Local.handleOpenEditModal (Local.revenue item) s))
     = l1 ++ Local.Revenue.mk (Local.Revenue.id item) (Local.FormData.description formData)
               (Local.FormData.amount formData) (Local.FormData.date formData) :: l2
     /\ Local.receivables
          (Local.handleUpdateItem formData (Local.handleOpenEditModal (Local.revenue item) s))
        = Local.receivables s
     /\ Local.editingItem
          (Local.handleUpdateItem formData (Local.handleOpenEditModal (Local.revenue item) s))
        = None)
  /\
  (forall (supabase : Remote.Supabase.t) (s : Remote.State) l1 (item : Remote.Revenue.t) l2
          (formData : Remote.FormData.t),
     Remote.revenues s = l1 ++ item :: l2 ->
     NoDup (map Remote.Revenue.id (Remote.revenues s)) ->
     Remote.Supabase.update_revenue supabase (Remote.revenueEditPatch formData)
       (Remote.Revenue.id item)
     = Remote.Response.mk
         (Some (Remote.RevenuePatch.apply (Remote.revenueEditPatch formData) item)) None ->
     Remote.revenues
       (Remote.handleUpdateItem supabase formData
          (Remote.handleOpenEditModal (Remote.revenue item) s))
     = l1 ++ Remote.Revenue.mk (Remote.Revenue.id item) (Remote.FormData.description formData)
               (Remote.FormData.amount formData) (Remote.FormData.date formData) :: l2
     /\ Remote.receivables
          (Remote.handleUpdateItem supabase formData
             (Remote.handleOpenEditModal (Remote.revenue item) s))
        = Remote.receivables s
     /\ Remote.editingItem
          (Remote.handleUpdateItem supabase formData
             (Remote.handleOpenEditModal (Remote.revenue item) s))
        = None).
Proof.
  split.
  - intros s l1 item l2 formData E ND. simpl. rewrite E in *.
    split; [|now split].
    exact (@map_replace_at _ Local.Revenue.id l1 l2 item _ ND).
  - intros supabase s l1 item l2 formData E ND Hresp.
    unfold Remote.handleUpdateItem, Remote.handleOpenEditModal. simpl.
    rewrite Hresp. simpl. rewrite E in *. split; [|now split].
    exact (@map_replace_at _ Remote.Revenue.id l1 l2 item _ ND).
Qed.

Lemma updateRevenue_frame_witness :
  Local.revenues
    (Local.handleUpdateItem
       (Local.FormData.mk "sale (revised)" 0 EmptyString 300 "2024-02-02" 0)
       (Local.handleOpenEditModal
          (Local.revenue (Local.Revenue.mk "v1" "sale" 250 "2024-02-01")) localExample))
  = [Local.Revenue.mk "v1" "sale (revised)" 300 "2024-02-02"].
Proof.
  apply (proj1 updateRevenue_frame localExample []
           (Local.Revenue.mk "v1" "sale" 250 "2024-02-01") []).
  - reflexivity.
  - simpl. repeat constructor. intros [].
Defined.

(** ** Submitting twice *)

(** X16.  A handler that has acted clears what it acted on, so the same
    submission arriving again changes nothing: after [handleRecordPayment]
    there is no current receivable, after [handleUpdateItem] no editing item.
    In the remote variant this holds for a payment once it is confirmed (after
    an error the form stays open on the receivable), and for an edit whatever
    the collaborator answered. *)
Theorem second_submission_changes_nothing :
  (forall (formData again : Local.FormData.t) (s : Local.State),
     Local.handleRecordPayment again (Local.handleRecordPayment formData s)
     = Local.handleRecordPayment formData s)
  /\ (forall (formData again : Local.FormData.t) (s : Local.State),
     Local.handleUpdateItem again (Local.handleUpdateItem formData s)
     = Local.handleUpdateItem formData s)
  /\ (forall (supabase later : Remote.Supabase.t) (formData again : Remote.FormData.t)
             (s : Remote.State),
     Remote.handleUpdateItem later again (Remote.handleUpdateItem supabase formData s)
     = Remote.handleUpdateItem supabase formData s)
  /\ (forall (supabase later : Remote.Supabase.t) (formData again : Remote.FormData.t)
             (s : Remote.State) (current data : Remote.Receivable.t),
     Remote.currentReceivable s = Some current ->
     Remote.Supabase.update_receivable supabase
       (Remote.paymentPatch current (Remote.FormData.paymentAmount formData))
       (Remote.Receivable.id current)
     = Remote.Response.mk (Some data) None ->
     Remote.handleRecordPayment later again (Remote.handleRecordPayment supabase formData s)
     = Remote.handleRecordPayment supabase formData s).
Proof.
  repeat split.
  - intros formData again s. unfold Local.handleRecordPayment.
    destruct (Local.currentReceivable s) eqn:C; simpl; [reflexivity | now rewrite C].
  - intros formData again s. unfold Local.handleUpdateItem.
    destruct (Local.editingItem s) as [[item|item]|] eqn:C; simpl;
      [reflexivity | reflexivity | now rewrite C].
  - intros supabase later formData again s. unfold Remote.handleUpdateItem.
    destruct (Remote.editingItem s) as [[item|item]|] eqn:C; simpl;
      [reflexivity | reflexivity | now rewrite C].
  - intros supabase later formData again s current data C E.
    unfold Remote.handleRecordPayment. rewrite C. cbv zeta. rewrite E. reflexivity.
Qed.

Lemma second_submission_changes_nothing_witness :
  Remote.handleRecordPayment (clientOf remoteAfterFirst "r3") (remotePayment 100)
    remoteAfterFirst
  = remoteAfterFirst.
Proof.
  apply (proj2 (proj2 (proj2 second_submission_changes_nothing))
           (clientOf remoteExample "r3") (clientOf remoteAfterFirst "r3")
           (remotePayment 100) (remotePayment 100)
           (Remote.clickPay (Remote.Receivable.mk "r1" "invoice 1" 1000 800 "2024-03-01")
              remoteExample)
           (Remote.Receivable.mk "r1" "invoice 1" 1000 800 "2024-03-01")
           (Remote.Receivable.mk "r1" "invoice 1" 1000 900 "2024-03-01")); reflexivity.
Defined.

(** ** The states the local interface can reach *)

(** The numbers in the fields of a submission that a form lets through are
    doubles and not negative. *)
Lemma Local_receivableFormData_total (form : Form.Receivable.t) (formData : Local.FormData.t) :
  Local.receivableFormData form = Some formData ->
  JS.isDouble (Local.FormData.totalAmount formData) = true
  /\ 0 <= Local.FormData.totalAmount formData.
Proof.
  unfold Local.receivableFormData.
  destruct (Local.receivableFormValid form) eqn:V; [|discriminate].
  destruct (Local_receivableForm_accepts form V) as (total & E & P & _ & _ & _).
  rewrite E. intros [= <-]. simpl. split; [exact (valueAsNumber_double _ E) | exact P].
Qed.

Lemma Local_revenueFormData_amount (form : Form.Revenue.t) (formData : Local.FormData.t) :
  LocalUI.revenueFormData form = Some formData ->
  JS.isDouble (Local.FormData.amount formData) = true
  /\ 0 <= Local.FormData.amount formData.
Proof.
  unfold LocalUI.revenueFormData, LocalUI.revenueFormValid.
  destruct (Form.valueAsNumber (Form.Revenue.amount form)) as [value|] eqn:E;
    [|rewrite andb_false_r; discriminate].
  destruct (negb (JS.falsy (Form.Revenue.description form))); [|discriminate].
  destruct (Z.leb_spec 0 value) as [P|_]; [|discriminate].
  destruct (negb (JS.falsy (Form.Revenue.date form))); [|discriminate].
  simpl. intros [= <-]. simpl. split; [exact (valueAsNumber_double _ E) | exact P].
Qed.

Lemma Local_paymentFormData_amount (current : option Local.Receivable.t)
    (form : Form.Payment.t) (formData : Local.FormData.t) :
  Local.paymentFormData current form = Some formData ->
  JS.isDouble (Local.FormData.paymentAmount formData) = true
  /\ 0 <= Local.FormData.paymentAmount formData.
Proof.
  unfold Local.paymentFormData, Local.paymentFormValid.
  destruct (Form.valueAsNumber (Form.Payment.paymentAmount form)) as [value|] eqn:E;
    [|discriminate].
  destruct (Z.leb_spec 0 value) as [P|_]; [|discriminate].
  simpl. destruct (match current with Some _ => _ | None => _ end); [|discriminate].
  intros [= <-]. simpl. split; [exact (valueAsNumber_double _ E) | exact P].
Qed.

Lemma Local_event_sound (s s' : Local.State) :
  Local_sound s -> Local_event s s' -> Local_sound s'.
Proof.
  intros (N1 & N2 & F1 & F2 & E) Hev.
  destruct Hev as [tab s | open s | open s | uuid form s A | uuid form s A
                  | r s Hin Hrem | form s | s | r s Hin | v s Hin | form s | s
                  | confirmed r s Hin | confirmed v s Hin];
    unfold Local_sound.
  - simpl. auto.
  - simpl. auto.
  - simpl. auto.
  - unfold Local.submitReceivableForm.
    destruct (Local.receivableFormData form) as [formData|] eqn:V; [|auto].
    destruct (Local_receivableFormData_total form V) as [_ P].
    simpl. repeat split; auto.
    + exact (@NoDup_ids_append _ Local.Receivable.id (Local.receivables s)
               (Local.Receivable.mk uuid (Local.FormData.description formData)
                  (Local.FormData.totalAmount formData) 0 (Local.FormData.dueDate formData))
               A N1).
    + apply Forall_app. split; [exact F1|]. repeat constructor; simpl; lia.
  - unfold LocalUI.submitRevenueForm.
    destruct (LocalUI.revenueFormData form) as [formData|] eqn:V; [|auto].
    destruct (Local_revenueFormData_amount form V) as [_ P].
    simpl. repeat split; auto.
    + exact (@NoDup_ids_append _ Local.Revenue.id (Local.revenues s)
               (Local.Revenue.mk uuid (Local.FormData.description formData)
                  (Local.FormData.amount formData) (Local.FormData.date formData))
               A N2).
    + apply Forall_app. split; [exact F2|]. repeat constructor; simpl; lia.
  - simpl. auto.
  - unfold Local.submitPaymentForm.
    destruct (Local.paymentFormData (Local.currentReceivable s) form) as [formData|] eqn:V;
      [|auto].
    destruct (Local_paymentFormData_amount _ form V) as [_ P].
    unfold Local.handleRecordPayment.
    destruct (Local.currentReceivable s) as [current|]; [|auto].
    simpl. repeat split; auto.
    + rewrite map_ids_kept; [exact N1|].
      intros r. now destruct (String.eqb (Local.Receivable.id r) (Local.Receivable.id current)).
    + apply Forall_kept_by_map; [|exact F1].
      intros r [Ht Hp].
      destruct (String.eqb (Local.Receivable.id r) (Local.Receivable.id current)); simpl;
        [|lia].
      pose proof (add_nonnegative Hp P). lia.
  - simpl. auto.
  - simpl. repeat split; auto.
    rewrite Forall_forall in F1. now apply (F1 r Hin).
  - simpl. auto.
  - unfold LocalUI.submitEditForm, Local.handleUpdateItem.
    destruct (Local.editingItem s) as [[item|item]|] eqn:C;
      [| |rewrite C; simpl; repeat split; auto].
    + destruct form as [fields|fields]; [|rewrite C; auto].
      destruct (Local.receivableFormData fields) as [formData|] eqn:V; [|rewrite C; auto].
      destruct (Local_receivableFormData_total fields V) as [_ P].
      simpl. repeat split; auto.
      * rewrite map_replace_ids_at; [exact N1 | reflexivity].
      * apply Forall_kept_by_map; [|exact F1].
        intros r Hr.
        destruct (String.eqb (Local.Receivable.id r) (Local.Receivable.id item));
          simpl; [lia | exact Hr].
    + destruct form as [fields|fields]; [rewrite C; auto|].
      destruct (LocalUI.revenueFormData fields) as [formData|] eqn:V; [|rewrite C; auto].
      destruct (Local_revenueFormData_amount fields V) as [_ P].
      simpl. repeat split; auto.
      * rewrite map_replace_ids_at; [exact N2 | reflexivity].
      * apply Forall_kept_by_map; [|exact F2].
        intros r Hr.
        destruct (String.eqb (Local.Revenue.id r) (Local.Revenue.id item));
          simpl; [lia | exact Hr].
  - simpl. auto.
  - destruct confirmed; simpl; [|auto]. repeat split; auto.
    + now apply NoDup_ids_filter.
    + now apply Forall_kept_by_filter.
  - destruct confirmed; simpl; [|auto]. repeat split; auto.
    + now apply NoDup_ids_filter.
    + now apply Forall_kept_by_filter.
Qed.

(** X17.  Every run of events of the local interface keeps the state sound:
    the ids of each list stay unique and no total, paid or revenue amount becomes
    negative (new ids being fresh).  The empty state of a fresh mount is
    sound. *)
Theorem local_events_keep_state_sound (s s' : Local.State) :
  Local_sound s -> Local_events s s' -> Local_sound s'.
Proof.
  intros H Hrun. induction Hrun as [s | s s1 s2 Hev _ IH]; [exact H|].
  apply IH. now apply (Local_event_sound H).
Qed.

(** From the empty state: a receivable of 1000 is added, its pay button is
    pressed, 400 are paid, and the receivable is edited down to a total of 300. *)
Lemma local_events_keep_state_sound_witness :
  Local_sound
    (LocalUI.submitEditForm
       (Form.editReceivable (Form.Receivable.mk "invoice" (Some 300) "2024-04-01"))
       (Local.handleOpenEditModal
          (Local.receivable (Local.Receivable.mk "u1" "invoice" 1000 400 "2024-03-01"))
          (Local.submitPaymentForm (Form.Payment.mk (Some 400))
             (Local.clickPay (Local.Receivable.mk "u1" "invoice" 1000 0 "2024-03-01")
                (Local.submitReceivableForm "u1"
                   (Form.Receivable.mk "invoice" (Some 1000) "2024-03-01")
                   Local.initialState)))))
  /\
  Local.receivables
    (LocalUI.submitEditForm
       (Form.editReceivable (Form.Receivable.mk "invoice" (Some 300) "2024-04-01"))
       (Local.handleOpenEditModal
          (Local.receivable (Local.Receivable.mk "u1" "invoice" 1000 400 "2024-03-01"))
          (Local.submitPaymentForm (Form.Payment.mk (Some 400))
             (Local.clickPay (Local.Receivable.mk "u1" "invoice" 1000 0 "2024-03-01")
                (Local.submitReceivableForm "u1"
                   (Form.Receivable.mk "invoice" (Some 1000) "2024-03-01")
                   Local.initialState)))))
  = [Local.Receivable.mk "u1" "invoice" 300 400 "2024-04-01"].
Proof.
  split; [|reflexivity].
  apply (@local_events_keep_state_sound Local.initialState).
  - unfold Local_sound. simpl. repeat split; constructor.
  - eapply events_more.
    { apply (@event_submit_receivable "u1"%string
               (Form.Receivable.mk "invoice" (Some 1000) "2024-03-01") Local.initialState).
      intros r []. }
    eapply events_more.
    { apply (@event_click_pay (Local.Receivable.mk "u1" "invoice" 1000 0 "2024-03-01"));
        [simpl; now left | reflexivity]. }
    eapply events_more.
    { apply (event_submit_payment (Form.Payment.mk (Some 400))). }
    eapply events_more.
    { apply (@event_edit_receivable
               (Local.Receivable.mk "u1" "invoice" 1000 400 "2024-03-01")).
      simpl. now left. }
    eapply events_more.
    { apply (event_submit_edit
               (Form.editReceivable (Form.Receivable.mk "invoice" (Some 300) "2024-04-01"))). }
    apply events_none.
Defined.

(** ** The persistence effects of the local variant *)

(** X18.  What the save effects have written, the load effect reads back: if
    [JSON.stringify] gives a non-empty text for each list of a state and
    [JSON.parse] gives the list back, then after both save effects have run on
    the state, the load effect puts its receivables and its revenues into any
    state it runs on. *)
Theorem saved_lists_are_loaded_back
    (parseReceivables : string -> option (list Local.Receivable.t))
    (parseRevenues : string -> option (list Local.Revenue.t))
    (stringifyReceivables : list Local.Receivable.t -> string)
    (stringifyRevenues : list Local.Revenue.t -> string)
    (s s0 : Local.State) (storage : Persistence.Storage) :
  parseReceivables (stringifyReceivables (Local.receivables s)) = Some (Local.receivables s) ->
  parseRevenues (stringifyRevenues (Local.revenues s)) = Some (Local.revenues s) ->
  JS.falsy (stringifyReceivables (Local.receivables s)) = false ->
  JS.falsy (stringifyRevenues (Local.revenues s)) = false ->
  Local.receivables
    (Persistence.loadEffect parseReceivables parseRevenues
       (Persistence.saveRevenuesEffect stringifyRevenues true s
          (Persistence.saveReceivablesEffect stringifyReceivables true s storage))
       s0)
  = Local.receivables s
  /\
  Local.revenues
    (Persistence.loadEffect parseReceivables parseRevenues
       (Persistence.saveRevenuesEffect stringifyRevenues true s
          (Persistence.saveReceivablesEffect stringifyReceivables true s storage))
       s0)
  = Local.revenues s.
Proof.
  intros PR PV NR NV.
  unfold Persistence.loadEffect, Persistence.loadReceivables,
    Persistence.saveRevenuesEffect, Persistence.saveReceivablesEffect, Persistence.setItem.
  simpl. rewrite NR, PR, NV, PV. split; reflexivity.
Qed.

Lemma saved_lists_are_loaded_back_witness :
  Local.receivables
    (Persistence.loadEffect exampleParseReceivables exampleParseRevenues
       (Persistence.saveRevenuesEffect exampleStringifyRevenues true localExample
          (Persistence.saveReceivablesEffect exampleStringifyReceivables true localExample
             emptyStorage))
       Local.initialState)
  = Local.receivables localExample
  /\
  Local.revenues
    (Persistence.loadEffect exampleParseReceivables exampleParseRevenues
       (Persistence.saveRevenuesEffect exampleStringifyRevenues true localExample
          (Persistence.saveReceivablesEffect exampleStringifyReceivables true localExample
             emptyStorage))
       Local.initialState)
  = Local.revenues localExample.
Proof.
  apply (@saved_lists_are_loaded_back exampleParseReceivables exampleParseRevenues
           exampleStringifyReceivables exampleStringifyRevenues localExample
           Local.initialState emptyStorage); reflexivity.
Defined.

(** X19.  The load effect on entries it cannot use.  With no entry under
    either key the state stays as it is.  When the receivables entry does not
    parse, nothing is loaded: the revenues entry is not read, even if it is
    sound.  When the receivables entry is absent or parses and the revenues
    entry does not parse, the receivables are loaded and the revenues stay. *)
Theorem loadEffect_on_unusable_entries
    (parseReceivables : string -> option (list Local.Receivable.t))
    (parseRevenues : string -> option (list Local.Revenue.t)) :
  (forall (storage : Persistence.Storage) (s : Local.State),
     storage "receivables"%string = None ->
     storage "revenues"%string = None ->
     Persistence.loadEffect parseReceivables parseRevenues storage s = s)
  /\
  (forall (storage : Persistence.Storage) (s : Local.State) (text : string),
     storage "receivables"%string = Some text ->
     JS.falsy text = false ->
     parseReceivables text = None ->
     Persistence.loadEffect parseReceivables parseRevenues storage s = s)
  /\
  (forall (storage : Persistence.Storage) (s : Local.State) (text damaged : string)
          (parsed : list Local.Receivable.t),
     storage "receivables"%string = Some text ->
     JS.falsy text = false ->
     parseReceivables text = Some parsed ->
     storage "revenues"%string = Some damaged ->
     parseRevenues damaged = None ->
     Persistence.loadEffect parseReceivables parseRevenues storage s
     = Local.setReceivables (fun _ => parsed) s).
Proof.
  unfold Persistence.loadEffect, Persistence.loadReceivables. repeat split.
  - intros storage s E1 E2. now rewrite E1, E2.
  - intros storage s text E F P. now rewrite E, F, P.
  - intros storage s text damaged parsed E F P E2 P2. rewrite E, F, P, E2, P2.
    now destruct (JS.falsy damaged).
Qed.

(** On the damaged storage nothing is loaded, although its revenues entry is
    sound. *)
Lemma loadEffect_on_unusable_entries_witness :
  Persistence.loadEffect exampleParseReceivables exampleParseRevenues damagedStorage
    Local.initialState
  = Local.initialState
  /\
  exampleParseRevenues "[revenues of the example]" = Some (Local.revenues localExample).
Proof.
  split; [|reflexivity].
  apply (proj1 (proj2 (loadEffect_on_unusable_entries exampleParseReceivables
                         exampleParseRevenues))
           damagedStorage Local.initialState "[{"%string); reflexivity.
Defined.

(** ** The sign-in screen *)

Lemma errorText_not_empty (error : Auth.AuthError.t) :
  Auth.AuthError.message error <> EmptyString -> Auth.errorText error <> EmptyString.
Proof.
  unfold Auth.errorText, JS.falsy. intros M.
  destruct (Auth.AuthError.error_description error) as [description|]; [|exact M].
  destruct (String.eqb_spec description EmptyString); [exact M | assumption].
Qed.

(** X20.  [handleAuth] always ends with [loading] off and leaves the email,
    the password and the mode as they were.  It shows no message when a login
    succeeds and exactly one message otherwise: after an accepted registration
    the notice that asks to check the mail, after a refused request the text
    of the error, which is its description when it has a non-empty one and its
    message if not. *)
Theorem handleAuth_outcome (auth : Auth.Client.t) (s : Auth.State) :
  (Auth.loading (Auth.handleAuth auth s) = false
   /\ Auth.email (Auth.handleAuth auth s) = Auth.email s
   /\ Auth.password (Auth.handleAuth auth s) = Auth.password s
   /\ Auth.isLogin (Auth.handleAuth auth s) = Auth.isLogin s)
  /\
  (Auth.isLogin s = true ->
   Auth.Client.signInWithPassword auth (Auth.email s) (Auth.password s) = None ->
   Auth.alerts (Auth.handleAuth auth s) = Auth.alerts s)
  /\
  (forall error,
     (Auth.isLogin s = true
      /\ Auth.Client.signInWithPassword auth (Auth.email s) (Auth.password s) = Some error)
     \/ (Auth.isLogin s = false
         /\ Auth.Client.signUp auth (Auth.email s) (Auth.password s) = Some error) ->
     Auth.alerts (Auth.handleAuth auth s) = Auth.alerts s ++ [Auth.errorText error]
     /\ (Auth.AuthError.message error <> EmptyString ->
         Auth.errorText error <> EmptyString))
  /\
  (Auth.isLogin s = false ->
   Auth.Client.signUp auth (Auth.email s) (Auth.password s) = None ->
   Auth.alerts (Auth.handleAuth auth s)
   = Auth.alerts s
     ++ ["Pendaftaran berhasil! Silakan cek email Anda untuk verifikasi."%string]).
Proof.
  destruct s as [loading email password isLogin alerts].
  unfold Auth.handleAuth. simpl. split; [|split; [|split]].
  - destruct isLogin;
      [destruct (Auth.Client.signInWithPassword auth email password)
      |destruct (Auth.Client.signUp auth email password)]; repeat split; reflexivity.
  - intros L E. rewrite L, E. reflexivity.
  - intros error [[L E]|[L E]]; rewrite L, E;
      (split; [reflexivity | apply errorText_not_empty]).
  - intros L E. rewrite L, E. reflexivity.
Qed.

(** A refused login shows the message of the error; a refused registration
    shows its description; an accepted login shows nothing; an accepted
    registration shows the notice. *)
Lemma handleAuth_outcome_witness :
  Auth.alerts (Auth.handleAuth refusingAuth authExample)
  = ["Invalid login credentials"%string]
  /\
  Auth.alerts (Auth.handleAuth refusingAuth (Auth.setIsLogin false authExample))
  = ["User already registered"%string]
  /\
  Auth.alerts (Auth.handleAuth acceptingAuth authExample) = []
  /\
  Auth.alerts (Auth.handleAuth acceptingAuth (Auth.setIsLogin false authExample))
  = ["Pendaftaran berhasil! Silakan cek email Anda untuk verifikasi."%string].
Proof.
  split; [|split; [|split]].
  - apply (proj1 (proj1 (proj2 (proj2 (handleAuth_outcome refusingAuth authExample)))
                    (Auth.AuthError.mk None "Invalid login credentials") 
                    (or_introl (conj eq_refl eq_refl)))).
  - apply (proj1 (proj1 (proj2 (proj2 (handleAuth_outcome refusingAuth
                                         (Auth.setIsLogin false authExample))))
                    (Auth.AuthError.mk (Some "User already registered"%string)
                       "signup failed")
                    (or_intror (conj eq_refl eq_refl)))).
  - apply (proj1 (proj2 (handleAuth_outcome acceptingAuth authExample))); reflexivity.
  - apply (proj2 (proj2 (proj2 (handleAuth_outcome acceptingAuth
                                  (Auth.setIsLogin false authExample)))));
      reflexivity.
Defined.

(** ** Editing the total of a receivable *)


(** ** The amount that a payment leaves *)

(** X22.  Recording a payment leaves the receivable being paid with the paid
    amount [min (total, paid + payment)], its other fields being kept.  In the
    local variant this is computed on the stored record whose id is that of the
    receivable whose pay button was pressed, whatever has happened to the record
    since.  In the remote variant it holds when the receivable whose pay button
    was pressed is the record as it is stored at the submission, and the
    collaborator confirms the update on that record. *)
Theorem payment_is_clamped :
  (forall (s : Local.State) (current : Local.Receivable.t) (formData : Local.FormData.t)
          (i : nat) (r : Local.Receivable.t),
     Local.currentReceivable s = Some current ->
     nth_error (Local.receivables s) i = Some r ->
     Local.Receivable.id r = Local.Receivable.id current ->
     nth_error (Local.receivables (Local.handleRecordPayment formData s)) i
     = Some (Local.Receivable.mk (Local.Receivable.id r) (Local.Receivable.description r)
               (Local.Receivable.totalAmount r)
               (Z.min (Local.Receivable.totalAmount r)
                      (JS.add (Local.Receivable.paidAmount r)
                              (Local.FormData.paymentAmount formData)))
               (Local.Receivable.dueDate r)))
  /\
  (forall (supabase : Remote.Supabase.t) (s : Remote.State) (formData : Remote.FormData.t)
          (i : nat) (r : Remote.Receivable.t),
     Remote.currentReceivable s = Some r ->
     nth_error (Remote.receivables s) i = Some r ->
     Remote.Supabase.update_receivable supabase
       (Remote.paymentPatch r (Remote.FormData.paymentAmount formData))
       (Remote.Receivable.id r)
     = Remote.Response.mk
         (Some (Remote.ReceivablePatch.apply
                  (Remote.paymentPatch r (Remote.FormData.paymentAmount formData)) r))
         None ->
     nth_error (Remote.receivables (Remote.handleRecordPayment supabase formData s)) i
     = Some (Remote.Receivable.mk (Remote.Receivable.id r) (Remote.Receivable.description r)
               (Remote.Receivable.total_amount r)
               (Z.min (Remote.Receivable.total_amount r)
                      (JS.add (Remote.Receivable.paid_amount r)
                              (Remote.FormData.paymentAmount formData)))
               (Remote.Receivable.due_date r))).
Proof.
  split.
  - intros s current formData i r Hcur Hnth Hid.
    rewrite (Local_handleRecordPayment_receivables formData s Hcur).
    rewrite nth_error_map, Hnth. simpl. rewrite Hid, String.eqb_refl. reflexivity.
  - intros supabase s formData i r Hcur Hnth Hresp.
    rewrite (Remote_handleRecordPayment_confirmed supabase formData s Hcur Hresp).
    rewrite nth_error_map, Hnth. simpl. rewrite String.eqb_refl. reflexivity.
Qed.

(** A payment of 10000 on a receivable with total 1000 and paid 800 leaves it
    with paid 1000.  In the local variant the stored record counts: with 800
    paid in the store and a payment form that holds a copy with 900 paid, a
    payment of 50 leaves 850. *)
Lemma payment_is_clamped_witness :
  nth_error
    (Local.receivables
       (Local.handleRecordPayment (localPayment 10000)
          (Local.clickPay (Local.Receivable.mk "r1" "invoice 1" 1000 800 "2024-03-01")
             localExample)))
    0
  = Some (Local.Receivable.mk "r1" "invoice 1" 1000 1000 "2024-03-01")
  /\
  nth_error
    (Remote.receivables
       (Remote.handleRecordPayment (clientOf remoteExample "r3") (remotePayment 10000)
          (Remote.clickPay (Remote.Receivable.mk "r1" "invoice 1" 1000 800 "2024-03-01")
             remoteExample)))
    0
  = Some (Remote.Receivable.mk "r1" "invoice 1" 1000 1000 "2024-03-01")
  /\
  nth_error
    (Local.receivables
       (Local.handleRecordPayment (localPayment 50)
          (Local.clickPay (Local.Receivable.mk "r1" "invoice 1" 1000 900 "2024-03-01")
             localExample)))
    0
  = Some (Local.Receivable.mk "r1" "invoice 1" 1000 850 "2024-03-01").
Proof.
  split; [|split].
  - apply (proj1 payment_is_clamped
             (Local.clickPay (Local.Receivable.mk "r1" "invoice 1" 1000 800 "2024-03-01")
                localExample)
             (Local.Receivable.mk "r1" "invoice 1" 1000 800 "2024-03-01")
             (localPayment 10000) 0%nat
             (Local.Receivable.mk "r1" "invoice 1" 1000 800 "2024-03-01"));
      reflexivity.
  - apply (proj2 payment_is_clamped (clientOf remoteExample "r3")
             (Remote.clickPay (Remote.Receivable.mk "r1" "invoice 1" 1000 800 "2024-03-01")
                remoteExample)
             (remotePayment 10000) 0%nat
             (Remote.Receivable.mk "r1" "invoice 1" 1000 800 "2024-03-01"));
      reflexivity.
  - apply (proj1 payment_is_clamped
             (Local.clickPay (Local.Receivable.mk "r1" "invoice 1" 1000 900 "2024-03-01")
                localExample)
             (Local.Receivable.mk "r1" "invoice 1" 1000 900 "2024-03-01")
             (localPayment 50) 0%nat
             (Local.Receivable.mk "r1" "invoice 1" 1000 800 "2024-03-01"));
      reflexivity.
Defined.

(** ** Sequences of payments *)

Lemma Local_handleRecordPayment_steady (formData : Local.FormData.t) (s : Local.State) :
  0 <= Local.FormData.paymentAmount formData ->
  Forall2 Local_steady (Local.receivables s)
          (Local.receivables (Local.handleRecordPayment formData s)).
Proof.
  intros Hpos. destruct (Local.currentReceivable s) as [current|] eqn:C.
  - rewrite (Local_handleRecordPayment_receivables formData s C).
    apply Forall2_map_in. intros x _.
    destruct (String.eqb (Local.Receivable.id x) (Local.Receivable.id current)).
    + unfold Local_steady. simpl. split; [reflexivity|]. split; [reflexivity|].
      intros Dt Dp H. now apply payment_keeps_steady.
    + apply Local_steady_refl.
  - unfold Local.handleRecordPayment. rewrite C. apply Forall2_same, Local_steady_refl.
Qed.

Lemma Local_recordPayment_steady (id : string) (amount : Z) (s : Local.State) :
  0 <= amount ->
  Forall2 Local_steady (Local.receivables s)
          (Local.receivables (Local_recordPayment id amount s)).
Proof.
  intros Hpos. unfold Local_recordPayment.
  destruct (find _ (Local.receivables s)) as [r|].
  - now apply (Local_handleRecordPayment_steady (localPayment amount) (Local.clickPay r s)).
  - apply Forall2_same, Local_steady_refl.
Qed.

Lemma Local_recordPayments_steady (id : string) (amounts : list Z) (s : Local.State) :
  Forall (fun amount => 0 <= amount) amounts ->
  Forall2 Local_steady (Local.receivables s)
          (Local.receivables (Local_recordPayments id amounts s)).
Proof.
  intros H. revert s. induction H as [|a amounts Ha _ IH]; intros s; simpl.
  - apply Forall2_same, Local_steady_refl.
  - eapply Forall2_compose; [apply Local_steady_trans | | apply IH].
    now apply Local_recordPayment_steady.
Qed.

Lemma Remote_payment_steady (supabase : Remote.Supabase.t) (r : Remote.Receivable.t)
    (formData : Remote.FormData.t) (s : Remote.State) :
  NoDup (map Remote.Receivable.id (Remote.receivables s)) ->
  In r (Remote.receivables s) ->
  0 <= Remote.FormData.paymentAmount formData ->
  (forall data,
     Remote.Response.data
       (Remote.Supabase.update_receivable supabase
          (Remote.paymentPatch r (Remote.FormData.paymentAmount formData))
          (Remote.Receivable.id r))
     = Some data ->
     data = Remote.ReceivablePatch.apply
              (Remote.paymentPatch r (Remote.FormData.paymentAmount formData)) r) ->
  Forall2 Remote_steady (Remote.receivables s)
    (Remote.receivables (Remote.handleRecordPayment supabase formData (Remote.clickPay r s))).
Proof.
  intros ND Hin Hpos Hfaithful.
  unfold Remote.handleRecordPayment. simpl.
  destruct (Remote.Supabase.update_receivable supabase
              (Remote.paymentPatch r (Remote.FormData.paymentAmount formData))
              (Remote.Receivable.id r)) as [data error] eqn:E.
  simpl in *. destruct error as [message|].
  - simpl. apply Forall2_same, Remote_steady_refl.
  - destruct data as [data|]; simpl; [|apply Forall2_same, Remote_steady_refl].
    rewrite (Hfaithful data eq_refl). simpl.
    apply Forall2_map_in. intros x Hx.
    destruct (String.eqb_spec (Remote.Receivable.id x) (Remote.Receivable.id r)) as [Eid|_].
    + assert (x = r) by (eapply NoDup_map_injective_in; eauto). subst x.
      unfold Remote_steady. simpl. split; [reflexivity|]. split; [reflexivity|].
      intros Dt Dp H. now apply payment_keeps_steady.
    + apply Remote_steady_refl.
Qed.

Lemma Remote_payment_step_steady (s s' : Remote.State) :
  NoDup (map Remote.Receivable.id (Remote.receivables s)) ->
  Remote_payment_step s s' ->
  Forall2 Remote_steady (Remote.receivables s) (Remote.receivables s').
Proof.
  intros ND Hstep. destruct Hstep as [supabase r amount s Hin Hpos Hfaithful].
  now apply Remote_payment_steady.
Qed.

Lemma Remote_payments_steady (s s' : Remote.State) :
  Remote_payments s s' ->
  NoDup (map Remote.Receivable.id (Remote.receivables s)) ->
  Forall2 Remote_steady (Remote.receivables s) (Remote.receivables s')
  /\ NoDup (map Remote.Receivable.id (Remote.receivables s')).
Proof.
  induction 1 as [s | s s1 s2 Hstep _ IH]; intros ND.
  - split; [apply Forall2_same, Remote_steady_refl | exact ND].
  - pose proof (Remote_payment_step_steady ND Hstep) as H1.
    assert (ND1 : NoDup (map Remote.Receivable.id (Remote.receivables s1)))
      by (now rewrite (Remote_steady_ids H1)).
    destruct (IH ND1) as [H2 ND2]. split; [|exact ND2].
    eapply Forall2_compose; [apply Remote_steady_trans | exact H1 | exact H2].
Qed.

(** X23.  Along every finite sequence of payments with non-negative amounts,
    each receivable whose amounts are doubles and whose paid amount was not above
    its total keeps its total, never has its paid amount exceed the total and
    never has it decrease: this holds between the start and any point of the
    sequence, and between any point and any later point.  In the local variant
    this holds for the handler and for every submission of the payment form, in
    whatever state.  In the remote variant it holds when each payment is made on
    a receivable as it is stored, at once after its pay button was pressed, ids
    are unique, and the collaborator returns that record with the requested paid
    amount or reports an error. *)
Theorem payments_keep_receivables_steady :
  (forall (id : string) (before after : list Z) (s : Local.State),
     Forall (fun amount => 0 <= amount) (before ++ after) ->
     Forall2 Local_steady (Local.receivables s)
       (Local.receivables (Local_recordPayments id before s))
     /\ Forall2 Local_steady
          (Local.receivables (Local_recordPayments id before s))
          (Local.receivables (Local_recordPayments id (before ++ after) s)))
  /\
  (forall (form : Form.Payment.t) (s : Local.State),
     Forall2 Local_steady (Local.receivables s)
       (Local.receivables (Local.submitPaymentForm form s)))
  /\
  (forall (s s1 s2 : Remote.State),
     NoDup (map Remote.Receivable.id (Remote.receivables s)) ->
     Remote_payments s s1 ->
     Remote_payments s1 s2 ->
     Forall2 Remote_steady (Remote.receivables s) (Remote.receivables s1)
     /\ Forall2 Remote_steady (Remote.receivables s1) (Remote.receivables s2))
  /\
  (forall (supabase : Remote.Supabase.t) (r : Remote.Receivable.t) (form : Form.Payment.t)
          (s : Remote.State),
     NoDup (map Remote.Receivable.id (Remote.receivables s)) ->
     In r (Remote.receivables s) ->
     (forall amount data,
        Remote.Response.data
          (Remote.Supabase.update_receivable supabase (Remote.paymentPatch r amount)
             (Remote.Receivable.id r))
        = Some data ->
        data = Remote.ReceivablePatch.apply (Remote.paymentPatch r amount) r) ->
     Forall2 Remote_steady (Remote.receivables s)
       (Remote.receivables (Remote.submitPaymentForm supabase form (Remote.clickPay r s)))).
Proof.
  split; [|split; [|split]].
  - intros id before after s H. apply Forall_app in H. destruct H as [Hb Ha]. split.
    + now apply Local_recordPayments_steady.
    + unfold Local_recordPayments at 2. rewrite fold_left_app.
      now apply (Local_recordPayments_steady id (amounts := after)).
  - intros form s. unfold Local.submitPaymentForm.
    destruct (Local.paymentFormData (Local.currentReceivable s) form) as [formData|] eqn:V.
    + apply Local_handleRecordPayment_steady.
      exact (proj2 (Local_paymentFormData_amount _ form V)).
    + apply Forall2_same, Local_steady_refl.
  - intros s s1 s2 ND H1 H2.
    destruct (Remote_payments_steady H1 ND) as [S1 ND1].
    destruct (Remote_payments_steady H2 ND1) as [S2 _].
    now split.
  - intros supabase r form s ND Hin Hfaithful. unfold Remote.submitPaymentForm.
    change (Remote.currentReceivable (Remote.clickPay r s)) with (Some r).
    destruct (Remote.paymentFormData (Some r) form) as [formData|] eqn:V.
    + apply Remote_payment_steady; auto.
      exact (proj1 (proj2 (Remote_paymentForm_accepts r form V))).
    + apply Forall2_same, Remote_steady_refl.
Qed.

(** Payments of 100 and then 10000 on the receivable [r1] (total 1000, paid
    800) of the example stores: 800, then 900, then 1000. *)
Lemma payments_keep_receivables_steady_witness :
  (Forall2 Local_steady (Local.receivables localExample)
     (Local.receivables (Local_recordPayments "r1" [100] localExample))
   /\ Forall2 Local_steady
        (Local.receivables (Local_recordPayments "r1" [100] localExample))
        (Local.receivables (Local_recordPayments "r1" ([100] ++ [10000]) localExample)))
  /\
  (Forall2 Remote_steady (Remote.receivables remoteExample)
     (Remote.receivables remoteAfterFirst)
   /\ Forall2 Remote_steady (Remote.receivables remoteAfterFirst)
        (Remote.receivables remoteAfterSecond))
  /\
  map Local.Receivable.paidAmount
    (Local.receivables (Local_recordPayments "r1" [100; 10000] localExample))
  = [1000; 0]
  /\
  map Remote.Receivable.paid_amount (Remote.receivables remoteAfterSecond) = [1000; 0].
Proof.
  destruct payments_keep_receivables_steady as (L & _ & R & _).
  split; [|split; [|split; reflexivity]].
  - apply L. repeat constructor; lia.
  - apply R.
    + simpl. repeat constructor; simpl; intuition discriminate.
    + eapply payments_more; [|apply payments_done].
      apply payment_step.
      * simpl. now left.
      * lia.
      * simpl. intros data [= <-]. reflexivity.
    + eapply payments_more; [|apply payments_done].
      apply payment_step.
      * simpl. now left.
      * lia.
      * simpl. intros data [= <-]. reflexivity.
Defined.

(** ** Amounts are doubles *)

Lemma Local_event_doubles (s s' : Local.State) :
  Local_doubles s -> Local_event s s' -> Local_doubles s'.
Proof.
  intros (F1 & F2 & E) Hev.
  destruct Hev as [tab s | open s | open s | uuid form s A | uuid form s A
                  | r s Hin Hrem | form s | s | r s Hin | v s Hin | form s | s
                  | confirmed r s Hin | confirmed v s Hin];
    unfold Local_doubles.
  - simpl. auto.
  - simpl. auto.
  - simpl. auto.
  - unfold Local.submitReceivableForm.
    destruct (Local.receivableFormData form) as [formData|] eqn:V; [|auto].
    destruct (Local_receivableFormData_total form V) as [D _].
    simpl. repeat split; auto.
    apply Forall_app. split; [exact F1|]. repeat constructor; simpl; auto.
  - unfold LocalUI.submitRevenueForm.
    destruct (LocalUI.revenueFormData form) as [formData|] eqn:V; [|auto].
    destruct (Local_revenueFormData_amount form V) as [D _].
    simpl. repeat split; auto.
    apply Forall_app. split; [exact F2|]. repeat constructor; simpl; auto.
  - simpl. auto.
  - unfold Local.submitPaymentForm.
    destruct (Local.paymentFormData (Local.currentReceivable s) form) as [formData|] eqn:V;
      [|auto].
    destruct (Local_paymentFormData_amount _ form V) as [_ P].
    unfold Local.handleRecordPayment.
    destruct (Local.currentReceivable s) as [current|]; [|auto].
    simpl. repeat split; auto.
    apply Forall_kept_by_map; [|exact F1].
    intros r [Dt Dp].
    destruct (String.eqb (Local.Receivable.id r) (Local.Receivable.id current)); simpl;
      [|now split].
    split; [exact Dt | now apply payment_is_double].
  - simpl. auto.
  - simpl. repeat split; auto.
    rewrite Forall_forall in F1. exact (proj2 (F1 r Hin)).
  - simpl. auto.
  - unfold LocalUI.submitEditForm, Local.handleUpdateItem.
    destruct (Local.editingItem s) as [[item|item]|] eqn:C;
      [| |rewrite C; simpl; repeat split; auto].
    + destruct form as [fields|fields]; [|rewrite C; auto].
      destruct (Local.receivableFormData fields) as [formData|] eqn:V; [|rewrite C; auto].
      destruct (Local_receivableFormData_total fields V) as [D _].
      simpl. repeat split; auto.
      apply Forall_kept_by_map; [|exact F1].
      intros r Hr.
      destruct (String.eqb (Local.Receivable.id r) (Local.Receivable.id item));
        simpl; [now split | exact Hr].
    + destruct form as [fields|fields]; [rewrite C; auto|].
      destruct (LocalUI.revenueFormData fields) as [formData|] eqn:V; [|rewrite C; auto].
      destruct (Local_revenueFormData_amount fields V) as [D _].
      simpl. repeat split; auto.
      apply Forall_kept_by_map; [|exact F2].
      intros r Hr.
      destruct (String.eqb (Local.Revenue.id r) (Local.Revenue.id item));
        simpl; [exact D | exact Hr].
  - simpl. auto.
  - destruct confirmed; simpl; [|auto]. repeat split; auto.
    now apply Forall_kept_by_filter.
  - destruct confirmed; simpl; [|auto]. repeat split; auto.
    now apply Forall_kept_by_filter.
Qed.

(** X24.  Every amount that the local interface stores is a double, whatever
    is typed into the forms: a run of events from a state whose amounts are
    doubles (the empty state of a fresh mount is one) ends in such a state. *)
Theorem local_events_keep_amounts_double (s s' : Local.State) :
  Local_doubles s -> Local_events s s' -> Local_doubles s'.
Proof.
  intros H Hrun. induction Hrun as [s | s s1 s2 Hev _ IH]; [exact H|].
  apply IH. now apply (Local_event_doubles H).
Qed.

(** From the empty state: a receivable is added with 2^53 + 1 typed as its
    total, which is stored as 2^53. *)
Lemma local_events_keep_amounts_double_witness :
  Local_doubles
    (Local.submitReceivableForm "u1"
       (Form.Receivable.mk "invoice" (Some 9007199254740993) "2024-03-01")
       Local.initialState)
  /\
  Local.receivables
    (Local.submitReceivableForm "u1"
       (Form.Receivable.mk "invoice" (Some 9007199254740993) "2024-03-01")
       Local.initialState)
  = [Local.Receivable.mk "u1" "invoice" 9007199254740992 0 "2024-03-01"].
Proof.
  split; [|vm_compute; reflexivity].
  apply (@local_events_keep_amounts_double Local.initialState).
  - unfold Local_doubles. simpl. repeat split; constructor.
  - eapply events_more; [|apply events_none].
    apply (@event_submit_receivable "u1"%string
             (Form.Receivable.mk "invoice" (Some 9007199254740993) "2024-03-01")
             Local.initialState).
    intros r [].
Defined.
